(** * wave_visualizer: wave-configuration resolution, row filtering and
      transition aggregation

    A shallow embedding of the core of the [wave_visualizer] package:

    - [wave_visualizer/data_prep/wave_parser.py]: the wave registry loaded
      from [wave_definitions.csv], [WaveConfigParser.parse_wave_config],
      [validate_wave_config], the process-wide parser and
      [add_wave_definition];
    - [wave_visualizer/data_prep/cleaning/row_reduction.py]:
      [RowReductionHandler.apply_filters];
    - [wave_visualizer/visualization_techs/alluvial_builder.py]:
      [_process_transition_data] and [_calculate_statistics];
    - [wave_visualizer/visualization_techs/transition_pattern_analysis.py]:
      the pattern table of [create_pattern_analysis_visualization].

    Python exceptions are values of [exn] carried by [result]; dictionaries
    are [gmap]s; the CSV file and the module-level parser are fields of an
    explicit [world] that every module-level function threads. *)

From Stdlib Require Import QArith Qabs Qround Qpower Lqa.
From Stdlib Require Import Ascii OrdersEx.
From stdpp Require Import gmap strings list sorting.

Local Open Scope string_scope.

(** ** Exceptions and results *)

(** The payload of a [ValueError] keeps the data its message is formatted
    from; the listing of the available waves that some messages append is
    not kept. *)
Inductive value_error : Type :=
  | NotPositive (wave_config : string)
  | SameWave (wave_config : string)
  | WaveNotFound (wave_num : N)
  | InvalidFormat (wave_config : string)
  | GrouperNot1D (column : string)
  | AllRowsFiltered.

Inductive key : Type :=
  | KStr (s : string)
  | KInt (n : N).

Inductive exn : Type :=
  | ValueError (v : value_error)
  | KeyError (k : key)
  | IndexError
  | ZeroDivisionError
  | TypeError
  | AttributeError.

Inductive result (A : Type) : Type :=
  | Ok (a : A)
  | Raise (e : exn).
Arguments Ok {A} a.
Arguments Raise {A} e.

(** Sequencing stops at the first exception; [x ← r; k] is stdpp's
    notation for it. *)
Global Instance result_ret : MRet result := λ A a, Ok a.
Global Instance result_bind : MBind result := λ A B k r,
  match r with
  | Ok a => k a
  | Raise e => Raise e
  end.

Definition is_ok {A : Type} (r : result A) : bool :=
  match r with Ok _ => true | Raise _ => false end.

(** ** The string operations the parser uses *)

(** Strings are sequences of ASCII characters: case folding, white space
    and digits are those of the ASCII range. *)
Module PyStr.

Definition code (a : ascii) : N := Ascii.N_of_ascii a.

(** [str.lower] on the ASCII range. *)
Definition lower_ascii (a : ascii) : ascii :=
  if (65 <=? code a)%N && (code a <=? 90)%N
  then Ascii.ascii_of_N (code a + 32)
  else a.

Fixpoint lower (s : string) : string :=
  match s with
  | EmptyString => EmptyString
  | String a s' => String (lower_ascii a) (lower s')
  end.

(** [str.isspace] on the ASCII range: tab to carriage return, the four
    separators 28 to 31 and the space. *)
Definition isspace (a : ascii) : bool :=
  ((9 <=? code a)%N && (code a <=? 13)%N)
  || ((28 <=? code a)%N && (code a <=? 32)%N).

Fixpoint lstrip (s : string) : string :=
  match s with
  | EmptyString => EmptyString
  | String a s' => if isspace a then lstrip s' else s
  end.

Fixpoint rstrip (s : string) : string :=
  match s with
  | EmptyString => EmptyString
  | String a s' =>
      match rstrip s' with
      | EmptyString => if isspace a then EmptyString else String a EmptyString
      | r => String a r
      end
  end.

Definition strip (s : string) : string := rstrip (lstrip s).

Definition isdigit (a : ascii) : bool :=
  (48 <=? code a)%N && (code a <=? 57)%N.

(** The longest prefix of digits, and what follows it. *)
Fixpoint span_digits (s : string) : string * string :=
  match s with
  | EmptyString => (EmptyString, EmptyString)
  | String a s' =>
      if isdigit a
      then let '(d, r) := span_digits s' in (String a d, r)
      else (EmptyString, s)
  end.

(** [int(digits)] for a string of decimal digits. *)
Fixpoint int_acc (acc : N) (s : string) : N :=
  match s with
  | EmptyString => acc
  | String a s' => int_acc (10 * acc + (code a - 48))%N s'
  end.

Definition int (s : string) : N := int_acc 0 s.

(** [re.search(r'(\d+)', s)]: the first maximal run of digits. *)
Fixpoint re_search_digits (s : string) : option string :=
  match s with
  | EmptyString => None
  | String a s' =>
      if isdigit a then Some (span_digits s).1 else re_search_digits s'
  end.

(** A literal of the pattern matched under [re.IGNORECASE]: the prefix of
    [s] must equal [lit] up to ASCII case; the rest of [s] is returned. *)
Fixpoint expect_ci (lit s : string) : option string :=
  match lit, s with
  | EmptyString, _ => Some s
  | String _ _, EmptyString => None
  | String c lit', String a s' =>
      if Ascii.eqb (lower_ascii a) (lower_ascii c)
      then expect_ci lit' s' else None
  end.

(** [re.compile(r'^w(\d+)_to_w(\d+)$', re.IGNORECASE).match(s)], giving
    the two groups. [$] also matches just before a final newline. *)
Definition wave_pattern_match (s : string) : option (string * string) :=
  r0 ← expect_ci "w" s;
  let '(g1, r1) := span_digits r0 in
  if String.eqb g1 EmptyString then None else
  r2 ← expect_ci "_to_w" r1;
  let '(g2, r3) := span_digits r2 in
  if String.eqb g2 EmptyString then None else
  if String.eqb r3 EmptyString || String.eqb r3 (String (Ascii.ascii_of_N 10) EmptyString)
  then Some (g1, g2) else None.

End PyStr.

(** ** wave_parser.py *)

Module WaveConfigParser.

(** One row of [wave_definitions.csv]. *)
Record wave_row : Type := WaveRow {
  wave_name : string;
  column_prefix : string;
  description : string
}.

(** The two dictionaries of a parser instance:
    [wave_definitions : {wave_name: column_prefix}] and
    [wave_numbers : {wave_number: (wave_name, column_prefix)}]. *)
Record t : Type := Parser {
  wave_definitions : gmap string string;
  wave_numbers : gmap N (string * string)
}.

Definition empty : t :=
  {| wave_definitions := ∅; wave_numbers := ∅ |}.

Definition defaults : t :=
  {| wave_definitions :=
       <["Wave3" := "W3_"]> (<["Wave2" := "W2_"]> (<["Wave1" := "W1_"]> ∅));
     wave_numbers :=
       <[3%N := ("Wave3", "W3_")]>
         (<[2%N := ("Wave2", "W2_")]> (<[1%N := ("Wave1", "W1_")]> ∅)) |}.

(** The body of the loop over the rows of the file. *)
Definition load_row (p : t) (row : wave_row) : t :=
  let defs := <[wave_name row := column_prefix row]> (wave_definitions p) in
  match PyStr.re_search_digits (wave_name row) with
  | Some d =>
      {| wave_definitions := defs;
         wave_numbers :=
           <[PyStr.int d := (wave_name row, column_prefix row)]>
             (wave_numbers p) |}
  | None => {| wave_definitions := defs; wave_numbers := wave_numbers p |}
  end.

(** [_load_wave_definitions], run by [__init__] on empty dictionaries.
    [file] is the content of [wave_definitions.csv] ([None] when the file
    does not exist), a table with the columns [wave_name],
    [column_prefix] and [description], as [add_wave_definition] writes
    it.  Every cell is text here, so the loop raises nothing; the
    [except] branch is in [typed.WaveConfigParser] below. *)
Definition _load_wave_definitions (file : option (list wave_row)) : bool * t :=
  match file with
  | None => (true, defaults)
  | Some rows => (true, foldl load_row empty rows)
  end.

Definition __init__ (file : option (list wave_row)) : t :=
  (_load_wave_definitions file).2.

(** [sorted(self.wave_numbers.keys())] *)
Definition sorted_keys (p : t) : list N :=
  merge_sort N.le (elements (dom (wave_numbers p))).

(** [self.wave_numbers[k][1]] *)
Definition prefix_of (p : t) (k : N) : result string :=
  match wave_numbers p !! k with
  | Some (_, prefix) => Ok prefix
  | None => Raise (KeyError (KInt k))
  end.

(** [parse_wave_config] on a registry of text, where the [print] before
    the return, which calls [rstrip] on the two prefixes, raises nothing;
    [typed.WaveConfigParser.parse_wave_config] below has it for the
    prefixes that are not strings. *)
Definition parse_wave_config (self : t) (wave_config : string)
  : result (string * string) :=
  if String.eqb (PyStr.lower wave_config) "all_waves" then
    let available_waves := sorted_keys self in
    if (2 <=? List.length available_waves)%nat then
      match head available_waves, last available_waves with
      | Some first_wave, Some last_wave =>
          source_prefix ← prefix_of self first_wave;
          target_prefix ← prefix_of self last_wave;
          Ok (source_prefix, target_prefix)
      | _, _ => Raise IndexError
      end
    else Ok ("W1_", "W3_")
  else
    match PyStr.wave_pattern_match (PyStr.strip wave_config) with
    | Some (g1, g2) =>
        let source_num := PyStr.int g1 in
        let target_num := PyStr.int g2 in
        if (source_num <? 1)%N || (target_num <? 1)%N then
          Raise (ValueError (NotPositive wave_config))
        else if (source_num =? target_num)%N then
          Raise (ValueError (SameWave wave_config))
        else if decide (source_num ∉ dom (wave_numbers self)) then
          Raise (ValueError (WaveNotFound source_num))
        else if decide (target_num ∉ dom (wave_numbers self)) then
          Raise (ValueError (WaveNotFound target_num))
        else
          source_prefix ← prefix_of self source_num;
          target_prefix ← prefix_of self target_num;
          Ok (source_prefix, target_prefix)
    | None => Raise (ValueError (InvalidFormat wave_config))
    end.

Definition generate_column_names
    (source_wave_prefix target_wave_prefix variable_name : string)
  : string * string :=
  (source_wave_prefix ++ variable_name, target_wave_prefix ++ variable_name).

(** [try: parse; return True / except ValueError: return False]: any
    other exception propagates. *)
Definition validate_wave_config (self : t) (wave_config : string)
  : result bool :=
  match parse_wave_config self wave_config with
  | Ok _ => Ok true
  | Raise (ValueError _) => Ok false
  | Raise e => Raise e
  end.

End WaveConfigParser.

(** The module level of [wave_parser.py]: the file on disk and the global
    [wave_parser] (initially [None]). *)
Module wave_parser.

Import WaveConfigParser.

Record world : Type := World {
  wave_file : option (list wave_row);
  wave_parser : option WaveConfigParser.t
}.

Definition _get_wave_parser (w : world) : WaveConfigParser.t * world :=
  match wave_parser w with
  | Some p => (p, w)
  | None =>
      let p := WaveConfigParser.__init__ (wave_file w) in
      (p, {| wave_file := wave_file w; wave_parser := Some p |})
  end.

Definition parse_wave_config (wave_config : string) (w : world)
  : result (string * string) * world :=
  let '(parser, w') := _get_wave_parser w in
  (WaveConfigParser.parse_wave_config parser wave_config, w').

(** [list(parser.wave_numbers.keys())]: the registered numbers; the
    model does not keep the insertion order of the dictionary. *)
Definition get_available_waves (w : world) : list N * world :=
  let '(parser, w') := _get_wave_parser w in
  (elements (dom (wave_numbers parser)), w').

(** [add_wave_definition]: read the file (an empty table when there is
    none), append the row, write it back and drop the global parser.
    This is the call where the file is written and read back as text;
    [typed.wave_parser.add_wave_definition] below has the rest. *)
Definition add_wave_definition (name prefix descr : string) (w : world)
  : bool * world :=
  let wave_df :=
    match wave_file w with
    | Some rows => rows
    | None => []
    end in
  let wave_df' := (wave_df ++ [WaveRow name prefix descr])%list in
  (true, {| wave_file := Some wave_df'; wave_parser := None |}).

(** The module-level parser is either not built yet or the one built from
    the file as it is. *)
Definition coherent (w : world) : Prop :=
  wave_parser w = None ∨ wave_parser w = Some (WaveConfigParser.__init__ (wave_file w)).

End wave_parser.

(** ** wave_parser.py on the table that pandas reads *)

(** [WaveConfigParser] above is the parser on a registry of text. The
    code builds its registry from what [pd.read_csv] returns, where a cell
    need not be a string, and writes the file through [to_csv]; [typed]
    follows the values through the loader, the resolver and
    [add_wave_definition]. *)
Module typed.

(** A value met where the code expects a string: a string, or what
    [read_csv] made of a cell otherwise (NaN for an empty cell, a number,
    a truth value), kept by the text that [to_csv] writes for it. *)
Inductive value : Type :=
  | Str (s : string)
  | NotStr (written : string).

(** One row of the table that [pd.read_csv] returns for
    [wave_definitions.csv]. *)
Record wave_row : Type := WaveRow {
  wave_name : value;
  column_prefix : value;
  description : value
}.

(** The file as [pd.read_csv] finds it: not readable as a table (the call
    raises), or a table with the columns [wave_name], [column_prefix] and
    [description]. *)
Inductive file : Type :=
  | Unreadable
  | Table (rows : list wave_row).

(** Text that [read_csv] hands back as the string that [to_csv] wrote,
    whatever else its column holds: the reader takes it for neither a
    number, a truth value nor a missing value.  Identifiers that begin
    with a letter are such text, apart from a few words. *)
Definition isalpha (a : ascii) : bool :=
  ((65 <=? PyStr.code a)%N && (PyStr.code a <=? 90)%N)
  || ((97 <=? PyStr.code a)%N && (PyStr.code a <=? 122)%N).

Definition identifier_char (a : ascii) : bool :=
  isalpha a || PyStr.isdigit a || Ascii.eqb a "_".

Definition reserved_words : list string :=
  ["na"; "nan"; "null"; "none"; "true"; "false"; "inf"; "infinity"].

Definition plain_text (s : string) : bool :=
  match s with
  | EmptyString => false
  | String a _ => isalpha a
  end
  && forallb identifier_char (String.list_ascii_of_string s)
  && negb (existsb (String.eqb (PyStr.lower s)) reserved_words).

Definition plain_row (row : wave_row) : bool :=
  match wave_name row, column_prefix row with
  | Str name, Str prefix => plain_text name && plain_text prefix
  | _, _ => false
  end.

(** The two cells of a row that the loader reads. *)
Definition loaded_cells (row : wave_row) : value * value :=
  (wave_name row, column_prefix row).

(** [wave_df.to_csv(wave_file, index=False)] followed by
    [pd.read_csv(wave_file)]: the table read back from the file that a
    table was written to.  What is known of it is that a table of plain
    text comes back as written in the two columns the loader reads. *)
Class CsvFile : Type := {
  read_back : list wave_row → list wave_row;
  read_back_plain (rows : list wave_row) :
    forallb plain_row rows = true →
    loaded_cells <$> read_back rows = loaded_cells <$> rows
}.

(** One reader within that: it keeps plain text and takes every other
    cell for a value that is not a string. *)
Definition keep_plain (cell : value) : value :=
  match cell with
  | Str s => if plain_text s then Str s else NotStr s
  | NotStr written => NotStr written
  end.

Definition keep_plain_row (row : wave_row) : wave_row :=
  {| wave_name := keep_plain (wave_name row);
     column_prefix := keep_plain (column_prefix row);
     description := keep_plain (description row) |}.

Module WaveConfigParser.

(** [wave_definitions : {wave_name: column_prefix}] and
    [wave_numbers : {wave_number: (wave_name, column_prefix)}]; a name
    that is registered has been searched for digits, so it is a string. *)
Record t : Type := Parser {
  wave_definitions : gmap string value;
  wave_numbers : gmap N (string * value)
}.

Definition empty : t :=
  {| wave_definitions := ∅; wave_numbers := ∅ |}.

Definition defaults : t :=
  {| wave_definitions :=
       <["Wave3" := Str "W3_"]>
         (<["Wave2" := Str "W2_"]> (<["Wave1" := Str "W1_"]> ∅));
     wave_numbers :=
       <[3%N := ("Wave3", Str "W3_")]>
         (<[2%N := ("Wave2", Str "W2_")]>
            (<[1%N := ("Wave1", Str "W1_")]> ∅)) |}.

(** The body of the loop over the rows of the table: [re.search] on a
    name that is not a string raises [TypeError]. *)
Definition load_row (p : t) (row : wave_row) : result t :=
  match wave_name row with
  | Str name =>
      let defs := <[name := column_prefix row]> (wave_definitions p) in
      match PyStr.re_search_digits name with
      | Some d =>
          Ok {| wave_definitions := defs;
                wave_numbers :=
                  <[PyStr.int d := (name, column_prefix row)]>
                    (wave_numbers p) |}
      | None => Ok {| wave_definitions := defs;
                      wave_numbers := wave_numbers p |}
      end
  | NotStr _ => Raise TypeError
  end.

Fixpoint load_rows (p : t) (rows : list wave_row) : result t :=
  match rows with
  | [] => Ok p
  | row :: rows' => p' ← load_row p row; load_rows p' rows'
  end.

(** [_load_wave_definitions], run by [__init__] on empty dictionaries:
    the default waves when there is no file, and again, with [False],
    when reading the file or the loop over its rows raises. *)
Definition _load_wave_definitions (file : option file) : bool * t :=
  match file with
  | None => (true, defaults)
  | Some Unreadable => (false, defaults)
  | Some (Table rows) =>
      match load_rows empty rows with
      | Ok p => (true, p)
      | Raise _ => (false, defaults)
      end
  end.

Definition __init__ (file : option file) : t :=
  (_load_wave_definitions file).2.

(** [sorted(self.wave_numbers.keys())] *)
Definition sorted_keys (p : t) : list N :=
  merge_sort N.le (elements (dom (wave_numbers p))).

(** [self.wave_numbers[k][1]] *)
Definition prefix_of (p : t) (k : N) : result value :=
  match wave_numbers p !! k with
  | Some (_, prefix) => Ok prefix
  | None => Raise (KeyError (KInt k))
  end.

(** [prefix.rstrip('_')] in the [print] of the resolver, for what it
    raises: a value that is not a string has no such method. *)
Definition rstrip (prefix : value) : result unit :=
  match prefix with
  | Str _ => Ok ()
  | NotStr _ => Raise AttributeError
  end.

Definition parse_wave_config (self : t) (wave_config : string)
  : result (value * value) :=
  if String.eqb (PyStr.lower wave_config) "all_waves" then
    let available_waves := sorted_keys self in
    if (2 <=? List.length available_waves)%nat then
      match head available_waves, last available_waves with
      | Some first_wave, Some last_wave =>
          source_prefix ← prefix_of self first_wave;
          target_prefix ← prefix_of self last_wave;
          Ok (source_prefix, target_prefix)
      | _, _ => Raise IndexError
      end
    else Ok (Str "W1_", Str "W3_")
  else
    match PyStr.wave_pattern_match (PyStr.strip wave_config) with
    | Some (g1, g2) =>
        let source_num := PyStr.int g1 in
        let target_num := PyStr.int g2 in
        if (source_num <? 1)%N || (target_num <? 1)%N then
          Raise (ValueError (NotPositive wave_config))
        else if (source_num =? target_num)%N then
          Raise (ValueError (SameWave wave_config))
        else if decide (source_num ∉ dom (wave_numbers self)) then
          Raise (ValueError (WaveNotFound source_num))
        else if decide (target_num ∉ dom (wave_numbers self)) then
          Raise (ValueError (WaveNotFound target_num))
        else
          source_prefix ← prefix_of self source_num;
          target_prefix ← prefix_of self target_num;
          rstrip source_prefix;;
          rstrip target_prefix;;
          Ok (source_prefix, target_prefix)
    | None => Raise (ValueError (InvalidFormat wave_config))
    end.

(** [try: parse; return True / except ValueError: return False]: any
    other exception propagates. *)
Definition validate_wave_config (self : t) (wave_config : string)
  : result bool :=
  match parse_wave_config self wave_config with
  | Ok _ => Ok true
  | Raise (ValueError _) => Ok false
  | Raise e => Raise e
  end.

End WaveConfigParser.

(** The module level: whether [wave_definitions.csv] can be written (its
    directory exists), the file as it is read, and the global
    [wave_parser]. *)
Module wave_parser.

Record world : Type := World {
  writable : bool;
  wave_file : option file;
  wave_parser : option WaveConfigParser.t
}.

Definition _get_wave_parser (w : world) : WaveConfigParser.t * world :=
  match wave_parser w with
  | Some p => (p, w)
  | None =>
      let p := WaveConfigParser.__init__ (wave_file w) in
      (p, {| writable := writable w; wave_file := wave_file w;
             wave_parser := Some p |})
  end.

Definition parse_wave_config (wave_config : string) (w : world)
  : result (value * value) * world :=
  let '(parser, w') := _get_wave_parser w in
  (WaveConfigParser.parse_wave_config parser wave_config, w').

(** [add_wave_definition]: read the file (an empty table when there is
    none), append the row, write the table and drop the global parser.
    When the read or the write raises, nothing is changed and the answer
    is [False]. *)
Definition add_wave_definition {C : CsvFile} (name prefix descr : string)
    (w : world) : bool * world :=
  match wave_file w with
  | Some Unreadable => (false, w)
  | existing =>
      let wave_df :=
        match existing with
        | Some (Table rows) => rows
        | _ => []
        end in
      let wave_df' :=
        (wave_df ++ [WaveRow (Str name) (Str prefix) (Str descr)])%list in
      if writable w then
        (true, {| writable := true;
                  wave_file := Some (Table (read_back wave_df'));
                  wave_parser := None |})
      else (false, w)
  end.

(** The module-level parser is either not built yet or the one built from
    the file as it is. *)
Definition coherent (w : world) : Prop :=
  wave_parser w = None
  ∨ wave_parser w = Some (WaveConfigParser.__init__ (wave_file w)).

End wave_parser.

End typed.

(** ** Data frames *)

Module DataFrame.

(** A cell holds a category label; [None] is the missing value (NaN). *)
Definition cell : Type := option string.

(** A frame: its column labels and its rows, each row listing its cells
    in the order of the labels. *)
Record t : Type := Frame {
  columns : list string;
  rows : list (list cell)
}.

Definition len (d : t) : nat := List.length (rows d).

Fixpoint index_of (c : string) (cols : list string) : option nat :=
  match cols with
  | [] => None
  | c' :: cols' =>
      if String.eqb c c' then Some 0%nat else S <$> index_of c cols'
  end.

(** The cell of [row] under label [c]. *)
Definition get (d : t) (row : list cell) (c : string) : cell :=
  match index_of c (columns d) with
  | Some i => default None (row !! i)
  | None => None
  end.

(** [data[[s, t]]]: the two columns side by side; a label the frame does
    not have is a [KeyError]. *)
Definition select2 (d : t) (s t : string) : result (list (cell * cell)) :=
  if bool_decide (s ∈ columns d) then
    if bool_decide (t ∈ columns d) then
      Ok ((λ row, (get d row s, get d row t)) <$> rows d)
    else Raise (KeyError (KStr t))
  else Raise (KeyError (KStr s)).

(** [.dropna()] on two columns: the complete cases. *)
Fixpoint dropna (l : list (cell * cell)) : list (string * string) :=
  match l with
  | [] => []
  | (Some a, Some b) :: l' => (a, b) :: dropna l'
  | _ :: l' => dropna l'
  end.

(** The number of rows in which neither of the two columns is
    missing. *)
Definition complete_cases (d : t) (s t : string) : nat :=
  List.length
    (filter (λ row, is_Some (get d row s) ∧ is_Some (get d row t)) (rows d)).

End DataFrame.

(** ** row_reduction.py *)

Module RowReductionHandler.

Import DataFrame.

(** One entry of [settings["filters"]]. *)
Record filter_item : Type := FilterItem {
  column : string;
  values : list cell
}.

(** [settings.get("filters")]: [None] when the key is absent. *)
Definition settings : Type := option (list filter_item).

(** One turn of the loop: a filter on a label the frame does not have is
    logged and skipped; otherwise the rows whose cell is among [values]
    are kept ([Series.isin]). *)
Definition apply_one (filtered_data : DataFrame.t) (f : filter_item)
  : DataFrame.t :=
  if bool_decide (column f ∈ columns filtered_data) then
    {| columns := columns filtered_data;
       rows := filter (λ row, get filtered_data row (column f) ∈ values f)
                      (rows filtered_data) |}
  else filtered_data.

(** [removed_count / original_count] on Python integers. *)
Definition int_true_div (a b : nat) : result Q :=
  if (b =? 0)%nat then Raise ZeroDivisionError
  else Ok (inject_Z (Z.of_nat a) / inject_Z (Z.of_nat b))%Q.

Definition apply_filters (data : DataFrame.t) (st : settings)
  : result DataFrame.t :=
  match st with
  | None | Some [] => Ok data
  | Some filters =>
      let original_count := len data in
      let filtered_data := foldl apply_one data filters in
      let final_count := len filtered_data in
      let removed_count := (original_count - final_count)%nat in
      ratio ← int_true_div removed_count original_count;
      let removal_rate := (ratio * 100)%Q in
      if (final_count =? 0)%nat then Raise (ValueError AllRowsFiltered)
      else Ok filtered_data
  end.

End RowReductionHandler.

(** ** Floating-point numbers and the sort of a frame *)

(** The standard model of binary64 arithmetic: each operation returns the
    exact result rounded by [fl], whose relative error is at most the unit
    roundoff [fl_u]. The quotients and products formed below lie between
    2^-63 and 100, far from overflow and underflow, so the exponent range
    plays no part. *)
Class FloatModel : Type := {
  fl : Q → Q;
  fl_u : Q;
  fl_u_nonneg : (0 <= fl_u)%Q;
  fl_err : ∀ x : Q, (Qabs (fl x - x) <= fl_u * Qabs x)%Q
}.

(** Rounding to the nearest number with a 53-bit significand, ties to the
    even significand: what IEEE 754 binary64 does in its normal range.
    [ilog2 a b] is the exponent of [a / b], the integer [e] with
    [2^e <= a / b < 2^(e+1)]. *)
Definition round_half_even (q : Q) : Z :=
  let f := Qfloor q in
  match (q - inject_Z f ?= 1 # 2)%Q with
  | Lt => f
  | Gt => (f + 1)%Z
  | Eq => if Z.even f then f else (f + 1)%Z
  end.

Definition ilog2 (a b : positive) : Z :=
  let d := (Z.log2 (Zpos a) - Z.log2 (Zpos b))%Z in
  if Qle_bool (2 ^ d)%Q (Zpos a # b) then d else (d - 1)%Z.

Definition binary64_pos (a b : positive) : Q :=
  let e := (ilog2 a b - 52)%Z in
  (inject_Z (round_half_even ((Zpos a # b) / 2 ^ e)) * 2 ^ e)%Q.

Definition binary64 (x : Q) : Q :=
  match Qnum x with
  | Z0 => 0%Q
  | Zpos a => binary64_pos a (Qden x)
  | Zneg a => (- binary64_pos a (Qden x))%Q
  end.

(** 2^-53 *)
Definition unit_roundoff : Q := 1 # 9007199254740992.

(** A float64 value: a finite number, NaN (0/0) or an infinity (x/0). *)
Inductive float64 : Type :=
  | Finite (q : Q)
  | NaN
  | Inf.

Section floats.
Context {F : FloatModel}.

Definition Q_of_nat (n : nat) : Q := inject_Z (Z.of_nat n).

(** numpy's [/] on an integer count and an integer total: a warning, not
    an exception, when the total is zero. *)
Definition true_divide (a b : nat) : float64 :=
  if (b =? 0)%nat then (if (a =? 0)%nat then NaN else Inf)
  else Finite (fl (Q_of_nat a / Q_of_nat b)).

Definition times_100 (x : float64) : float64 :=
  match x with
  | Finite q => Finite (fl (q * 100))
  | NaN => NaN
  | Inf => Inf
  end.

(** The finite percentage of [c] out of [n]: [(c / n) * 100]. *)
Definition pct (n c : nat) : Q := fl (fl (Q_of_nat c / Q_of_nat n) * 100).

(** How far a percentage computed as [(count / total) * 100] can be from
    the exact [100 * count / total], relative to it: two roundings. *)
Definition two_roundings : Q := 2 * fl_u + fl_u * fl_u.
End floats.

Definition Qsum (l : list Q) : Q := foldr Qplus 0%Q l.

(** [Series.sum()] on a column of counts. *)
Definition sum_counts (l : list nat) : nat := foldr Nat.add 0%nat l.

(** [sort_values(key, ascending=False)] with the default [kind]
    (quicksort), and the sort inside [value_counts]: all that pandas
    promises is that the rows come back rearranged in descending order of
    the key; where rows with equal keys land is left to the algorithm. *)
Class SortValues : Type := {
  sort_values : ∀ {A : Type}, (A → nat) → list A → list A;
  sort_values_perm : ∀ (A : Type) (k : A → nat) (l : list A),
    sort_values k l ≡ₚ l;
  sort_values_sorted : ∀ (A : Type) (k : A → nat) (l : list A),
    Sorted (λ x y, (k y ≤ k x)%nat) (sort_values k l)
}.

(** A sort that meets this contract, by insertion from the right: a row
    stops in front of the first row whose key is not larger, and so keeps
    its place among its ties. *)
Section insertion_sorts.
Context {A : Type} (k : A → nat) (stop : nat → nat → bool).

Fixpoint insert_by (x : A) (l : list A) : list A :=
  match l with
  | [] => [x]
  | y :: l' => if stop (k y) (k x) then x :: l else y :: insert_by x l'
  end.

Definition sort_by (l : list A) : list A := foldr insert_by [] l.
End insertion_sorts.

Definition sort_keep {A : Type} (k : A → nat) : list A → list A :=
  sort_by k Nat.leb.

(** ** alluvial_builder.py *)

Module AlluvialVisualizationBuilder.

Import DataFrame.

(** The fields of the builder that the two methods read. *)
Record t : Type := Builder {
  _data : DataFrame.t;
  _variable_name : string;
  _wave_config : string;
  _source_wave_prefix : string;
  _target_wave_prefix : string
}.

(** A row of the transition table. *)
Record transition : Type := Transition {
  source : string;
  target : string;
  count : nat;
  percentage : float64
}.

(** An entry of [top_patterns] and the dictionary of statistics. *)
Record top_pattern : Type := TopPattern {
  tp_source : string;
  tp_target : string;
  tp_count : nat;
  tp_percentage : float64;
  tp_stable : bool
}.

Record statistics : Type := Statistics {
  total_transitions : nat;
  unique_patterns : nat;
  stability_rate : float64;
  top_patterns : list top_pattern;
  variable_analyzed : string;
  wave_transition : string
}.

Definition as_top_pattern (row : transition) : top_pattern :=
  {| tp_source := source row; tp_target := target row;
     tp_count := count row; tp_percentage := percentage row;
     tp_stable := bool_decide (source row = target row) |}.

Definition pair_compare (a b : string * string) : comparison :=
  match String.compare a.1 b.1 with
  | Eq => String.compare a.2 b.2
  | c => c
  end.

(** [groupby([s, t]).size()]: one entry per observed pair, the pairs in
    ascending order. [group_add] files one more row under its pair. *)
Fixpoint group_add (key : string * string)
    (groups : list (string * string * nat)) : list (string * string * nat) :=
  match groups with
  | [] => [(key, 1%nat)]
  | (key', n) :: groups' =>
      match pair_compare key key' with
      | Eq => (key', S n) :: groups'
      | Lt => (key, 1%nat) :: groups
      | Gt => (key', n) :: group_add key groups'
      end
  end.

Definition groupby_size (l : list (string * string))
  : list (string * string * nat) :=
  foldl (λ groups key, group_add key groups) [] l.

Section methods.
Context {F : FloatModel} {S : SortValues}.

(** The table before it is sorted. Selecting the same label twice
    gives a frame with a duplicated label, which [groupby] rejects. *)
Definition transition_counts (self : t)
  : result (list transition) :=
  let '(source_column, target_column) :=
    WaveConfigParser.generate_column_names
      (_source_wave_prefix self) (_target_wave_prefix self)
      (_variable_name self) in
  selected ← select2 (_data self) source_column target_column;
  let transition_data := dropna selected in
  if String.eqb source_column target_column
  then Raise (ValueError (GrouperNot1D source_column))
  else
    let counts := groupby_size transition_data in
    let total_transitions := sum_counts (snd <$> counts) in
    Ok ((λ g, {| source := g.1.1; target := g.1.2; count := g.2;
                 percentage :=
                   times_100 (true_divide g.2 total_transitions) |})
          <$> counts).

Definition _process_transition_data (self : t)
  : result (list transition) :=
  transition_counts ← transition_counts self;
  Ok (sort_values count transition_counts).

Definition _calculate_statistics (self : t)
    (transition_data : list transition) : statistics :=
  let total_transitions := sum_counts (count <$> transition_data) in
  let stable_transitions :=
    filter (λ row, source row = target row) transition_data in
  let stable_count := sum_counts (count <$> stable_transitions) in
  let stability_rate :=
    if (0 <? total_transitions)%nat
    then times_100 (true_divide stable_count total_transitions)
    else Finite 0 in
  let top_patterns := as_top_pattern <$> take 10 transition_data in
  {| total_transitions := total_transitions;
     unique_patterns := List.length transition_data;
     stability_rate := stability_rate;
     top_patterns := top_patterns;
     variable_analyzed := _variable_name self;
     wave_transition := _wave_config self |}.

(** Steps 3 and 5 of [build]: the table, then its statistics. *)
Definition build_statistics (self : t)
  : result (list transition * statistics) :=
  transition_data ← _process_transition_data self;
  Ok (transition_data, _calculate_statistics self transition_data).
End methods.

End AlluvialVisualizationBuilder.

(** ** transition_pattern_analysis.py *)

Module transition_pattern_analysis.

Import DataFrame.

(** A row of [pattern_df], without its [Type] column. *)
Record pattern_row : Type := PatternRow {
  Pattern : string;
  Count : nat;
  Percentage : float64
}.

(** The counting inside [value_counts]: the distinct values in the order
    in which they first occur. *)
Fixpoint tally_add (x : string) (acc : list (string * nat))
  : list (string * nat) :=
  match acc with
  | [] => [(x, 1%nat)]
  | (y, n) :: acc' =>
      if String.eqb x y then (y, S n) :: acc' else (y, n) :: tally_add x acc'
  end.

Definition tally (l : list string) : list (string * nat) :=
  foldl (λ acc x, tally_add x acc) [] l.

Section pattern_table.
Context {F : FloatModel} {S : SortValues}.

Definition value_counts (l : list string) : list (string * nat) :=
  sort_values snd (tally l).

(** [create_pattern_analysis_visualization] up to [pattern_df], for
    the resolved column names and with no filter. The rows of a frame
    selected with the same label twice do not format as one label
    each; the statements below take two distinct labels. *)
Definition pattern_df (data : DataFrame.t)
    (source_column target_column : string) : result (list pattern_row) :=
  selected ← select2 data source_column target_column;
  let transition_data := dropna selected in
  let patterns :=
    (λ row : string * string, row.1 ++ " -> " ++ row.2)
      <$> transition_data in
  let pattern_counts := value_counts patterns in
  Ok ((λ pc : string * nat,
         {| Pattern := pc.1; Count := pc.2;
            Percentage :=
              times_100 (true_divide pc.2 (List.length transition_data)) |})
        <$> pattern_counts).
End pattern_table.

End transition_pattern_analysis.

(** ** validators.py and exceptions.py *)

Module validators.

Import DataFrame.

(** What a [DataValidationError] reports. *)
Inductive data_issue : Type :=
  | TooFewRows (n min_rows : nat)
  | TooFewColumns (n min_cols : nat)
  | TooManyUnique (column_name : string) (unique_count max_unique : nat)
  | TooFewUnique (column_name : string) (unique_count : nat).

(** The exceptions of [exceptions.py] that the validators and the builder
    raise, with the data their messages are built from. *)
Inductive package_error : Type :=
  | DataValidationError (issue : data_issue)
  | ColumnNotFoundError (column_name : string)
  | WaveConfigurationError (wave_config : string)
  | FilteringError (filter_column filter_value : string)
  | VisualizationError (wave_config : string).

Inductive error : Type :=
  | Package (e : package_error)
  | Python (e : exn).

Inductive outcome (A : Type) : Type :=
  | Returns (a : A)
  | Fails (e : error).
Arguments Returns {A} a.
Arguments Fails {A} e.

Global Instance outcome_ret : MRet outcome := λ A a, Returns a.
Global Instance outcome_bind : MBind outcome := λ A B k r,
  match r with
  | Returns a => k a
  | Fails e => Fails e
  end.

(** A [result] seen from code that also raises package errors. *)
Definition lift {A : Type} (r : result A) : outcome A :=
  match r with
  | Ok a => Returns a
  | Raise e => Fails (Python e)
  end.

(** [data[c]] as a list, [.dropna()] and [.unique()] on it (the values in
    the order in which they first occur), and [.nunique()]. *)
Definition column_values (d : DataFrame.t) (c : string) : list cell :=
  (λ row, get d row c) <$> rows d.

Definition dropna1 (l : list cell) : list string := omap id l.

Definition unique (l : list string) : list string :=
  foldl (λ (seen : list string) (x : string),
           if bool_decide (x ∈ seen) then seen else (seen ++ [x])%list) [] l.

Definition nunique (d : DataFrame.t) (c : string) : nat :=
  List.length (unique (dropna1 (column_values d c))).

(** [DataValidator.validate_dataframe] on a frame. *)
Definition validate_dataframe (data : DataFrame.t) (min_rows min_cols : nat)
  : outcome DataFrame.t :=
  if (len data <? min_rows)%nat then
    Fails (Package (DataValidationError (TooFewRows (len data) min_rows)))
  else if (List.length (columns data) <? min_cols)%nat then
    Fails (Package (DataValidationError
                      (TooFewColumns (List.length (columns data)) min_cols)))
  else Returns data.

Definition validate_column_exists (data : DataFrame.t) (column_name : string)
  : outcome unit :=
  if bool_decide (column_name ∈ columns data) then Returns ()
  else Fails (Package (ColumnNotFoundError column_name)).

(** [DataValidator.validate_categorical_column]; [data[column_name]] is a
    [KeyError] on a label the frame does not have. *)
Definition validate_categorical_column (data : DataFrame.t)
    (column_name : string) (max_unique : nat) : outcome unit :=
  if bool_decide (column_name ∈ columns data) then
    let unique_count := nunique data column_name in
    if (max_unique <? unique_count)%nat then
      Fails (Package (DataValidationError
                        (TooManyUnique column_name unique_count max_unique)))
    else if (unique_count <? 2)%nat then
      Fails (Package (DataValidationError
                        (TooFewUnique column_name unique_count)))
    else Returns ()
  else Fails (Python (KeyError (KStr column_name))).

(** A literal of a pattern matched as it is written. *)
Fixpoint expect_exact (lit s : string) : option string :=
  match lit, s with
  | EmptyString, _ => Some s
  | String _ _, EmptyString => None
  | String c lit', String a s' =>
      if Ascii.eqb a c then expect_exact lit' s' else None
  end.

(** [re.match(r'^w(\d+)_to_w(\d+)$', s)], without [re.IGNORECASE]. *)
Definition wave_pattern_exact (s : string) : option (string * string) :=
  r0 ← expect_exact "w" s;
  let '(g1, r1) := PyStr.span_digits r0 in
  if String.eqb g1 EmptyString then None else
  r2 ← expect_exact "_to_w" r1;
  let '(g2, r3) := PyStr.span_digits r2 in
  if String.eqb g2 EmptyString then None else
  if String.eqb r3 EmptyString
     || String.eqb r3 (String (Ascii.ascii_of_N 10) EmptyString)
  then Some (g1, g2) else None.

(** [WaveConfigValidator.validate_wave_config_format]: the two digit
    groups are compared as texts. *)
Definition validate_wave_config_format (wave_config : string)
  : outcome (string * string) :=
  let wave_config := PyStr.lower (PyStr.strip wave_config) in
  match wave_pattern_exact wave_config with
  | None =>
      if String.eqb wave_config "all_waves" then Returns ("all", "all")
      else Fails (Package (WaveConfigurationError wave_config))
  | Some (source_wave, target_wave) =>
      if String.eqb source_wave target_wave then
        Fails (Package (WaveConfigurationError wave_config))
      else Returns ("w" ++ source_wave, "w" ++ target_wave)
  end.

(** [FilterValidator.validate_filter_operation] for a label as value. *)
Definition validate_filter_operation (data : DataFrame.t)
    (filter_column filter_value : string) : outcome unit :=
  if bool_decide (filter_column ∈ columns data) then
    let available_values :=
      unique (dropna1 (column_values data filter_column)) in
    if bool_decide (filter_value ∈ available_values) then
      let filtered_count :=
        List.length
          (filter (λ c, c = Some filter_value)
                  (column_values data filter_column)) in
      if (filtered_count =? 0)%nat then
        Fails (Package (FilteringError filter_column filter_value))
      else Returns ()
    else Fails (Package (FilteringError filter_column filter_value))
  else Fails (Package (ColumnNotFoundError filter_column)).

(** The truth value of an optional string: set and not empty. *)
Definition truthy (s : option string) : bool :=
  match s with
  | Some (String _ _) => true
  | _ => false
  end.

(** [try: ... except Exception: ...] *)
Definition try_except {A : Type} (body handler : outcome A) : outcome A :=
  match body with
  | Returns a => Returns a
  | Fails _ => handler
  end.

(** [validate_visualization_inputs]; the resolution of the wave
    configuration goes through the module-level parser. *)
Definition validate_visualization_inputs (data : DataFrame.t)
    (variable_name wave_config : string)
    (filter_column filter_value : option string) (w : wave_parser.world)
  : outcome unit * wave_parser.world :=
  match validate_dataframe data 10 2 with
  | Fails e => (Fails e, w)
  | Returns _ =>
      match validate_wave_config_format wave_config with
      | Fails e => (Fails e, w)
      | Returns _ =>
          let '(parsed, w') := wave_parser.parse_wave_config wave_config w in
          let checked :=
            try_except
              ('(source_wave_prefix, target_wave_prefix) ← lift parsed;
               let '(source_column, target_column) :=
                 WaveConfigParser.generate_column_names
                   source_wave_prefix target_wave_prefix variable_name in
               validate_column_exists data source_column;;
               validate_column_exists data target_column;;
               validate_categorical_column data source_column 50;;
               validate_categorical_column data target_column 50)
              (validate_column_exists data variable_name;;
               validate_categorical_column data variable_name 50) in
          (checked;;
           match filter_column, filter_value with
           | Some column, Some value =>
               if truthy filter_column && truthy filter_value
               then validate_filter_operation data column value
               else Returns ()
           | _, _ => Returns ()
           end, w')
      end
  end.

(** [sanitize_filename].  The class of the substitution holds the nine
    characters below (34 is the double quote, 92 the backslash); [strip]
    with an argument removes the characters of the argument from both
    ends. *)
Definition unsafe_chars : list ascii :=
  ["<"; ">"; ":"; Ascii.ascii_of_nat 34; "/"; Ascii.ascii_of_nat 92;
   "|"; "?"; "*"]%char.

Definition one_of (chars : list ascii) (a : ascii) : bool :=
  existsb (Ascii.eqb a) chars.

Fixpoint re_sub (chars : list ascii) (repl : ascii) (s : string) : string :=
  match s with
  | EmptyString => EmptyString
  | String a s' =>
      String (if one_of chars a then repl else a) (re_sub chars repl s')
  end.

Fixpoint lstrip_chars (chars : list ascii) (s : string) : string :=
  match s with
  | EmptyString => EmptyString
  | String a s' => if one_of chars a then lstrip_chars chars s' else s
  end.

Fixpoint rstrip_chars (chars : list ascii) (s : string) : string :=
  match s with
  | EmptyString => EmptyString
  | String a s' =>
      match rstrip_chars chars s' with
      | EmptyString =>
          if one_of chars a then EmptyString else String a EmptyString
      | r => String a r
      end
  end.

Definition strip_chars (chars : list ascii) (s : string) : string :=
  rstrip_chars chars (lstrip_chars chars s).

Definition sanitize_filename (filename : string) : string :=
  let filename := re_sub unsafe_chars "_"%char filename in
  let filename := strip_chars [" "; "."]%char filename in
  let filename :=
    match filename with
    | EmptyString => "untitled"
    | _ => filename
    end in
  if (100 <? String.length filename)%nat
  then String.substring 0 100 filename
  else filename.

End validators.

(** ** alluvial_builder.py: the preparation of the data *)

Module alluvial_builder.

Import DataFrame validators.

(** The fields of the builder that [_prepare_data] reads. *)
Record inputs : Type := Inputs {
  _data : DataFrame.t;
  _variable_name : string;
  _wave_config : string;
  _filter_column : option string;
  _filter_value : option string
}.

(** [_apply_data_filter]: one filter on one value, then the share of rows
    left, for the log. *)
Definition _apply_data_filter (data : DataFrame.t) (column value : string)
  : outcome DataFrame.t :=
  let settings :=
    Some [RowReductionHandler.FilterItem column [Some value]] in
  let original_count := len data in
  filtered ← lift (RowReductionHandler.apply_filters data settings);
  let filtered_count := len filtered in
  ratio ← lift (RowReductionHandler.int_true_div filtered_count original_count);
  Returns filtered.

(** [_prepare_data] on data that is already loaded: validate everything,
    then filter if a column and a value are set. *)
Definition _prepare_data (self : inputs) (w : wave_parser.world)
  : outcome DataFrame.t * wave_parser.world :=
  let '(validated, w') :=
    validate_visualization_inputs (_data self) (_variable_name self)
      (_wave_config self) (_filter_column self) (_filter_value self) w in
  (validated;;
   match _filter_column self, _filter_value self with
   | Some column, Some value =>
       if truthy (_filter_column self) && truthy (_filter_value self)
       then _apply_data_filter (_data self) column value
       else Returns (_data self)
   | _, _ => Returns (_data self)
   end, w').

End alluvial_builder.

(** ** Sample registries and datasets *)

Module Samples.
Import WaveConfigParser wave_parser DataFrame RowReductionHandler.
Import AlluvialVisualizationBuilder.

(** A file that defines the single wave 5. *)
Definition only_wave5 : WaveConfigParser.t :=
  __init__ (Some [WaveRow "Wave5" "W5_" EmptyString]).

(** A file with waves 1 and 2. *)
Definition two_wave_file : world :=
  {| wave_file := Some [WaveRow "Wave1" "W1_" EmptyString; WaveRow "Wave2" "W2_" EmptyString];
     wave_parser := None |}.

(** One respondent, one column. *)
Definition one_row : DataFrame.t :=
  {| columns := ["W1_P"]; rows := [[Some "A"]] |}.

(** Two respondents, and a filter on a value that neither has. *)
Definition two_rows : DataFrame.t :=
  {| columns := ["PID1_labeled"];
     rows := [[Some "Democrat"]; [Some "Independent"]] |}.

Definition builder_on (data : DataFrame.t) : AlluvialVisualizationBuilder.t :=
  {| _data := data; _variable_name := "P"; _wave_config := "w1_to_w2";
     _source_wave_prefix := "W1_"; _target_wave_prefix := "W2_" |}.

(** Four respondents, one of them with no answer in wave 2. *)
Definition four_respondents : AlluvialVisualizationBuilder.t :=
  builder_on {| columns := ["W1_P"; "W2_P"];
                rows := [[Some "A"; Some "A"]; [Some "A"; Some "B"];
                         [Some "B"; None]; [Some "A"; Some "A"]] |}.

(** Two respondents, each with an answer in one wave only. *)
Definition no_complete_case : AlluvialVisualizationBuilder.t :=
  builder_on {| columns := ["W1_P"; "W2_P"];
                rows := [[None; Some "A"]; [Some "B"; None]] |}.

(** Two respondents with different, stable answers: two patterns, each
    counted once. *)
Definition two_tied_patterns : AlluvialVisualizationBuilder.t :=
  builder_on {| columns := ["W1_P"; "W2_P"];
                rows := [[Some "A"; Some "A"]; [Some "B"; Some "B"]] |}.

End Samples.

(** ** Vocabulary of the statements *)

(** A row passes a filter when the filter names a column the frame does
    not have, or when its cell in that column is among the values;
    [kept_rows] are the rows that pass every filter. *)
Definition passes (d : DataFrame.t) (row : list DataFrame.cell)
    (f : RowReductionHandler.filter_item) : Prop :=
  RowReductionHandler.column f ∈ DataFrame.columns d →
  DataFrame.get d row (RowReductionHandler.column f)
    ∈ RowReductionHandler.values f.

Definition kept_rows (d : DataFrame.t)
    (fs : list RowReductionHandler.filter_item) : list (list DataFrame.cell) :=
  filter (λ row, Forall (passes d row) fs) (DataFrame.rows d).

(** Every character of a string satisfies a test. *)
Fixpoint all_chars (P : ascii → bool) (s : string) : bool :=
  match s with
  | EmptyString => true
  | String a s' => P a && all_chars P s'
  end.

(** A token of the shape [w<digits>_to_w<digits>]: the letters in either
    case, any white space around it. *)
Record wave_token : Type := WaveToken {
  tok_lead : string;
  tok_w : string;
  tok_source : string;
  tok_sep : string;
  tok_target : string;
  tok_trail : string
}.

Definition token_text (k : wave_token) : string :=
  tok_lead k ++ tok_w k ++ tok_source k ++ tok_sep k ++ tok_target k
    ++ tok_trail k.

Definition well_formed (k : wave_token) : Prop :=
  all_chars PyStr.isspace (tok_lead k) = true ∧
  PyStr.lower (tok_w k) = "w" ∧
  tok_source k ≠ EmptyString ∧
  all_chars PyStr.isdigit (tok_source k) = true ∧
  PyStr.lower (tok_sep k) = "_to_w" ∧
  tok_target k ≠ EmptyString ∧
  all_chars PyStr.isdigit (tok_target k) = true ∧
  all_chars PyStr.isspace (tok_trail k) = true.

(** A string of ASCII characters: those on which the string operations
    above are Python's. *)
Definition is_ascii (s : string) : Prop :=
  all_chars (λ a, (PyStr.code a <? 128)%N) s = true.

(** The definitions file is absent, or a table of plain text. *)
Definition plain_file (file : option typed.file) : bool :=
  match file with
  | None => true
  | Some typed.Unreadable => false
  | Some (typed.Table rows) => forallb typed.plain_row rows
  end.

(** The rows of the definitions file: none when there is no file. *)
Definition file_rows (file : option typed.file) : list typed.wave_row :=
  match file with
  | Some (typed.Table rows) => rows
  | _ => []
  end.

(** The registry of numbers that the rows of the definitions file give,
    with no default: empty when there is no file. *)
Definition file_registry (file : option typed.file)
  : gmap N (string * typed.value) :=
  match file with
  | Some (typed.Table rows) =>
      typed.WaveConfigParser.wave_numbers
        (typed.WaveConfigParser.__init__ (Some (typed.Table rows)))
  | _ => ∅
  end.

(** A registry of text among the registries of values. *)
Definition text_registry (p : WaveConfigParser.t) : typed.WaveConfigParser.t :=
  {| typed.WaveConfigParser.wave_definitions :=
       typed.Str <$> WaveConfigParser.wave_definitions p;
     typed.WaveConfigParser.wave_numbers :=
       (λ entry : string * string, (entry.1, typed.Str entry.2))
         <$> WaveConfigParser.wave_numbers p |}.

(** The rows of a file of text, as rows of values. *)
Definition text_rows (rows : list WaveConfigParser.wave_row)
  : list typed.wave_row :=
  (λ row, typed.WaveRow (typed.Str (WaveConfigParser.wave_name row))
                        (typed.Str (WaveConfigParser.column_prefix row))
                        (typed.Str (WaveConfigParser.description row)))
    <$> rows.

(** Every registered prefix is a string. *)
Definition text_prefixes (p : typed.WaveConfigParser.t) : Prop :=
  ∀ n name prefix,
    typed.WaveConfigParser.wave_numbers p !! n = Some (name, prefix) →
    ∃ s, prefix = typed.Str s.

(** A statement holds whatever [read_csv] makes of what [to_csv] wrote,
    within what is known of the two. *)
Definition for_every_csv_file (P : typed.CsvFile → Prop) : Prop :=
  ∀ C : typed.CsvFile, P C.

(** The number of rows of a frame that hold [a] in column [s] and [b] in
    column [t]. *)
Definition pair_rows (d : DataFrame.t) (s t a b : string) : nat :=
  List.length
    (filter (λ row, DataFrame.get d row s = Some a
                    ∧ DataFrame.get d row t = Some b) (DataFrame.rows d)).




(** The rows of a transition table that stand for unchanged answers, the
    respondents they count, and their exact share in percent (0 for an
    empty table). *)
Definition stable_total (table : list AlluvialVisualizationBuilder.transition)
  : nat :=
  sum_counts
    (AlluvialVisualizationBuilder.count
       <$> filter (λ r, AlluvialVisualizationBuilder.source r
                        = AlluvialVisualizationBuilder.target r) table).

Definition exact_stability
    (table : list AlluvialVisualizationBuilder.transition) : Q :=
  let total := sum_counts (AlluvialVisualizationBuilder.count <$> table) in
  if (total =? 0)%nat then 0%Q
  else (100 * (Q_of_nat (stable_total table) / Q_of_nat total))%Q.

(** Two filters agree when they name the same column and allow the same
    values, in whatever order and however often each is listed. *)
Definition same_filter (f f' : RowReductionHandler.filter_item) : Prop :=
  RowReductionHandler.column f = RowReductionHandler.column f' ∧
  ∀ c, c ∈ RowReductionHandler.values f ↔ c ∈ RowReductionHandler.values f'.

(** A string without white space. *)
Definition no_space (s : string) : Prop :=
  all_chars (λ a, negb (PyStr.isspace a)) s = true.

(** What a run of digits is followed by: nothing, or a character that is
    not a digit. *)
Definition digits_end (rest : string) : Prop :=
  match rest with
  | EmptyString => True
  | String a _ => PyStr.isdigit a = false
  end.

(** The text of a well-formed token between its white space. *)
Definition token_core (k : wave_token) : string :=
  tok_w k ++ tok_source k ++ tok_sep k ++ tok_target k.

(** The keys of a grouping stand in strictly ascending order. *)
Definition key_lt (x y : string * string * nat) : Prop :=
  AlluvialVisualizationBuilder.pair_compare x.1 y.1 = Lt.

(** The rows filed under a key. *)
Definition filed {K : Type} `{EqDecision K} (key : K)
    (groups : list (K * nat)) : nat :=
  sum_counts (snd <$> filter (λ g, g.1 = key) groups).

(** ** Further sample inputs *)

Module Cases.
Import DataFrame RowReductionHandler.

(** Four respondents by region and party; the last has no party. *)
Definition region_party : DataFrame.t :=
  {| columns := ["Region"; "PID1_labeled"];
     rows := [[Some "North"; Some "Democrat"];
              [Some "South"; Some "Democrat"];
              [Some "North"; Some "Independent"];
              [Some "East"; None]] |}.

Definition democrats : filter_item :=
  FilterItem "PID1_labeled" [Some "Democrat"].

Definition north_or_south : filter_item :=
  FilterItem "Region" [Some "North"; Some "South"].

Definition south_or_north : filter_item :=
  FilterItem "Region" [Some "South"; Some "North"; Some "South"].

Definition any_region : filter_item :=
  FilterItem "Region" [Some "East"; Some "North"; Some "South"].

(** The two Democrats of the north and the south. *)
Definition democrats_north_south : DataFrame.t :=
  {| columns := ["Region"; "PID1_labeled"];
     rows := [[Some "North"; Some "Democrat"];
              [Some "South"; Some "Democrat"]] |}.

(** The token [ W01_TO_w3 ], with a space on either side. *)
Definition padded_token : wave_token :=
  WaveToken " " "W" "01" "_TO_w" "3" " ".

(** [w1_to_w7] and [w01_to_w1]. *)
Definition wave7_token : wave_token :=
  WaveToken EmptyString "w" "1" "_to_w" "7" EmptyString.

Definition same_wave_token : wave_token :=
  WaveToken EmptyString "w" "01" "_to_w" "1" EmptyString.

(** No definitions file, and no parser built yet; the same once the
    parser is built. *)
Definition no_file : wave_parser.world :=
  {| wave_parser.wave_file := None; wave_parser.wave_parser := None |}.

Definition no_file_parsed : wave_parser.world :=
  {| wave_parser.wave_file := None;
     wave_parser.wave_parser := Some (WaveConfigParser.__init__ None) |}.

(** Twelve respondents of two regions, with their answers in two waves. *)
Definition twelve_respondents : DataFrame.t :=
  {| columns := ["W1_P"; "W2_P"; "Region"];
     rows := [[Some "A"; Some "A"; Some "North"];
              [Some "A"; Some "B"; Some "North"];
              [Some "B"; Some "B"; Some "South"];
              [Some "B"; Some "A"; Some "North"];
              [Some "A"; Some "A"; Some "South"];
              [Some "A"; None; Some "North"];
              [Some "B"; Some "B"; Some "North"];
              [Some "A"; Some "A"; Some "South"];
              [Some "B"; Some "A"; Some "South"];
              [Some "A"; Some "A"; Some "North"];
              [None; Some "B"; Some "South"];
              [Some "B"; Some "B"; Some "North"]] |}.

Definition northern_inputs : alluvial_builder.inputs :=
  {| alluvial_builder._data := twelve_respondents;
     alluvial_builder._variable_name := "P";
     alluvial_builder._wave_config := "w1_to_w2";
     alluvial_builder._filter_column := Some "Region";
     alluvial_builder._filter_value := Some "North" |}.

Definition northern_respondents : DataFrame.t :=
  {| columns := columns twelve_respondents;
     rows := filter (λ row, get twelve_respondents row "Region" = Some "North")
                    (rows twelve_respondents) |}.

(** NaN, as an empty cell is read and written. *)
Definition nan : typed.value := typed.NotStr EmptyString.

(** A row of text with no description. *)
Definition text_row (name prefix : string) : typed.wave_row :=
  typed.WaveRow (typed.Str name) (typed.Str prefix) nan.

(** A file with waves 1 and 2, in a directory that can be written. *)
Definition two_wave_table : typed.wave_parser.world :=
  {| typed.wave_parser.writable := true;
     typed.wave_parser.wave_file :=
       Some (typed.Table [text_row "Wave1" "W1_"; text_row "Wave2" "W2_"]);
     typed.wave_parser.wave_parser := None |}.

(** A file whose second row has an empty [column_prefix] cell. *)
Definition empty_prefix_table : typed.file :=
  typed.Table [text_row "Wave1" "W1_";
               typed.WaveRow (typed.Str "Wave2") nan nan].

(** A table of two records, both for unchanged answers. *)
Definition stable_table : list AlluvialVisualizationBuilder.transition :=
  [AlluvialVisualizationBuilder.Transition "A" "A" 3 (Finite 75);
   AlluvialVisualizationBuilder.Transition "B" "B" 1 (Finite 25)].

End Cases.

(** The labels of the columns of a frame are distinct. *)
Definition distinct_labels (d : DataFrame.t) : Prop :=
  NoDup (DataFrame.columns d).

(** * Properties *)

(** ** Two resolutions on the default registry *)

Example parse_w1_to_w2 :
  WaveConfigParser.parse_wave_config WaveConfigParser.defaults " W1_TO_w2 "
  = Ok ("W1_", "W2_").
Proof. vm_compute. reflexivity. Qed.

Example parse_all_waves_default :
  WaveConfigParser.parse_wave_config WaveConfigParser.defaults "ALL_waves"
  = Ok ("W1_", "W3_").
Proof. vm_compute. reflexivity. Qed.

(** ** The registry and the resolver *)

Section resolver_facts.
Import WaveConfigParser.

Lemma sorted_keys_perm (p : WaveConfigParser.t) :
  sorted_keys p ≡ₚ elements (dom (wave_numbers p)).
Proof. apply merge_sort_Permutation. Qed.

Lemma elem_of_sorted_keys (p : WaveConfigParser.t) (k : N) :
  k ∈ sorted_keys p ↔ k ∈ dom (wave_numbers p).
Proof. rewrite sorted_keys_perm. apply elem_of_elements. Qed.

Lemma length_sorted_keys (p : WaveConfigParser.t) :
  List.length (sorted_keys p) = size (wave_numbers p).
Proof.
  rewrite (Permutation_length (sorted_keys_perm p)).
  rewrite <- size_dom. reflexivity.
Qed.

Lemma sorted_keys_sorted (p : WaveConfigParser.t) :
  StronglySorted N.le (sorted_keys p).
Proof.
  apply Sorted_StronglySorted; [intros x y z; apply N.le_trans |].
  apply (Sorted_merge_sort N.le).
Qed.

Lemma head_least (l : list N) (a : N) :
  head l = Some a → StronglySorted N.le l → ∀ x, x ∈ l → (a <= x)%N.
Proof.
  destruct l as [|b l]; simpl; [discriminate |].
  intros [= ->] Hs x Hx.
  apply StronglySorted_cons in Hs as [Hall _].
  apply elem_of_cons in Hx as [-> | Hx]; [reflexivity |].
  rewrite Forall_forall in Hall. auto.
Qed.

Lemma head_elem_of {A : Type} (l : list A) (a : A) : head l = Some a → a ∈ l.
Proof. destruct l; simpl; [discriminate | intros [= ->]; set_solver]. Qed.

Lemma last_elem_of {A : Type} (l : list A) (b : A) : last l = Some b → b ∈ l.
Proof.
  induction l as [|c [|c' l] IH]; simpl; [discriminate | |].
  - intros [= ->]. set_solver.
  - intros Hl. apply elem_of_cons. right. by apply IH.
Qed.

Lemma last_greatest (l : list N) (b : N) :
  last l = Some b → StronglySorted N.le l → ∀ x, x ∈ l → (x <= b)%N.
Proof.
  induction l as [|c l IH]; [discriminate |].
  intros Hlast Hs x Hx.
  apply StronglySorted_cons in Hs as [Hall Hs].
  destruct l as [|c' l].
  - injection Hlast as ->. apply list_elem_of_singleton in Hx as ->.
    reflexivity.
  - change (last (c' :: l) = Some b) in Hlast.
    apply elem_of_cons in Hx as [-> | Hx]; [| by apply IH].
    rewrite Forall_forall in Hall. apply Hall.
    by apply last_elem_of.
Qed.

Lemma prefix_of_dom (p : WaveConfigParser.t) (k : N) :
  k ∈ dom (wave_numbers p) →
  ∃ name prefix,
    wave_numbers p !! k = Some (name, prefix) ∧ prefix_of p k = Ok prefix.
Proof.
  intros [[name prefix] Hk]%elem_of_dom. exists name, prefix.
  unfold prefix_of. rewrite Hk. auto.
Qed.

(** [all_waves] with two waves or more: the prefixes of the least and of
    the greatest registered number. *)
Lemma all_waves_extremes (p : WaveConfigParser.t) :
  (2 ≤ size (wave_numbers p))%nat →
  ∃ lo hi nlo nhi plo phi,
    wave_numbers p !! lo = Some (nlo, plo) ∧
    wave_numbers p !! hi = Some (nhi, phi) ∧
    (∀ k, k ∈ dom (wave_numbers p) → (lo <= k)%N ∧ (k <= hi)%N) ∧
    parse_wave_config p "all_waves" = Ok (plo, phi).
Proof.
  intros Hsize. unfold parse_wave_config. simpl String.eqb. cbv iota.
  rewrite length_sorted_keys.
  destruct (Nat.leb_spec 2 (size (wave_numbers p))) as [_ | ?]; [| lia].
  pose proof (length_sorted_keys p) as Hlen.
  destruct (head (sorted_keys p)) as [lo|] eqn:Hhead;
    [| destruct (sorted_keys p); simpl in *; [lia | discriminate]].
  destruct (last (sorted_keys p)) as [hi|] eqn:Hlast;
    [| apply last_None in Hlast; rewrite Hlast in Hlen; simpl in Hlen; lia].
  destruct (prefix_of_dom p lo) as (nlo & plo & Hlo & Eqlo).
  { apply elem_of_sorted_keys. by apply head_elem_of. }
  destruct (prefix_of_dom p hi) as (nhi & phi & Hhi & Eqhi).
  { apply elem_of_sorted_keys. by apply last_elem_of. }
  exists lo, hi, nlo, nhi, plo, phi. repeat split; auto.
  - apply (head_least _ _ Hhead (sorted_keys_sorted p)).
    by apply elem_of_sorted_keys.
  - apply (last_greatest _ _ Hlast (sorted_keys_sorted p)).
    by apply elem_of_sorted_keys.
  - rewrite Eqlo, Eqhi. reflexivity.
Qed.

(** With fewer than two waves the branch taken is the fallback. *)
Lemma all_waves_fallback (p : WaveConfigParser.t) :
  (size (wave_numbers p) < 2)%nat →
  parse_wave_config p "all_waves" = Ok ("W1_", "W3_").
Proof.
  intros Hsize. unfold parse_wave_config. simpl String.eqb. cbv iota.
  rewrite length_sorted_keys.
  destruct (Nat.leb_spec 2 (size (wave_numbers p))) as [? | _]; [lia | done].
Qed.

(** The resolver raises nothing but [ValueError]. *)
Lemma parse_wave_config_raises (p : WaveConfigParser.t) (cfg : string) (e : exn) :
  parse_wave_config p cfg = Raise e → ∃ v, e = ValueError v.
Proof.
  unfold parse_wave_config.
  destruct (String.eqb (PyStr.lower cfg) "all_waves").
  - destruct (Nat.leb_spec 2 (List.length (sorted_keys p))) as [Hlen | _];
      [| discriminate].
    rewrite length_sorted_keys in Hlen.
    destruct (all_waves_extremes p Hlen)
      as (lo & hi & nlo & nhi & plo & phi & _ & _ & _ & Heq).
    unfold parse_wave_config in Heq. simpl String.eqb in Heq.
    cbv iota in Heq. rewrite length_sorted_keys in Heq.
    destruct (Nat.leb_spec 2 (size (wave_numbers p))); [| lia].
    rewrite Heq. discriminate.
  - destruct (PyStr.wave_pattern_match (PyStr.strip cfg)) as [[g1 g2]|];
      [| intros [= <-]; eauto].
    destruct (_ || _); [intros [= <-]; eauto |].
    destruct (_ =? _)%N; [intros [= <-]; eauto |].
    destruct (decide (PyStr.int g1 ∉ _)) as [|Hs]; [intros [= <-]; eauto |].
    destruct (decide (PyStr.int g2 ∉ _)) as [|Ht]; [intros [= <-]; eauto |].
    apply dec_stable in Hs. apply dec_stable in Ht.
    destruct (prefix_of_dom p _ Hs) as (? & ? & _ & ->).
    destruct (prefix_of_dom p _ Ht) as (? & ? & _ & ->).
    discriminate.
Qed.

End resolver_facts.

Section registry_facts.
Import WaveConfigParser wave_parser.

Lemma init_snoc (rows : list wave_row) (row : wave_row) :
  __init__ (Some (rows ++ [row])%list) = load_row (__init__ (Some rows)) row.
Proof. unfold __init__. simpl. rewrite foldl_app. reflexivity. Qed.

Lemma wave_numbers_load_row (p : WaveConfigParser.t)
    (name prefix descr d : string) :
  PyStr.re_search_digits name = Some d →
  wave_numbers (load_row p (WaveRow name prefix descr))
  = <[PyStr.int d := (name, prefix)]> (wave_numbers p).
Proof. intros Hd. unfold load_row. simpl. rewrite Hd. reflexivity. Qed.

Lemma parse_coherent (cfg : string) (w : world) :
  coherent w →
  (parse_wave_config cfg w).1
  = WaveConfigParser.parse_wave_config (__init__ (wave_file w)) cfg.
Proof.
  unfold parse_wave_config, _get_wave_parser.
  intros [Hw | Hw]; rewrite Hw; reflexivity.
Qed.

Lemma parse_after_add (cfg name prefix descr : string) (w : world)
    (rows : list wave_row) :
  wave_file w = Some rows →
  (parse_wave_config cfg (add_wave_definition name prefix descr w).2).1
  = WaveConfigParser.parse_wave_config
      (load_row (__init__ (Some rows)) (WaveRow name prefix descr)) cfg.
Proof.
  intros Hf. unfold add_wave_definition. rewrite Hf.
  unfold parse_wave_config, _get_wave_parser. simpl.
  rewrite init_snoc. reflexivity.
Qed.

(** A wave appended to a file that already defines numbered waves is
    resolvable at once, next to the waves that were there. *)
Lemma add_wave_on_persisted_registry :
  let w0 := {| wave_file := Some [WaveRow "Wave1" "W1_" EmptyString;
                                  WaveRow "Wave2" "W2_" EmptyString;
                                  WaveRow "Wave3" "W3_" EmptyString];
               wave_parser := None |} in
  let w1 := (parse_wave_config "w1_to_w3" w0).2 in
  let w2 := (add_wave_definition "Wave4" "W4_" EmptyString w1).2 in
  (parse_wave_config "w1_to_w4" w2).1 = Ok ("W1_", "W4_").
Proof. vm_compute. reflexivity. Qed.

End registry_facts.

Section resolver_claims.
Import WaveConfigParser wave_parser Samples.

(** C5, as the code has it. With fewer than two registered waves
    [all_waves] raises nothing: it resolves to the fixed pair
    [("W1_", "W3_")]. *)
Theorem all_waves_fallback_pair (p : WaveConfigParser.t) :
  (size (wave_numbers p) < 2)%nat →
  WaveConfigParser.parse_wave_config p "all_waves" = Ok ("W1_", "W3_").
Proof. apply all_waves_fallback. Qed.

Lemma all_waves_fallback_pair_witness :
  (size (wave_numbers only_wave5) < 2)%nat ∧
  WaveConfigParser.parse_wave_config only_wave5 "all_waves"
  = Ok ("W1_", "W3_").
Proof.
  assert (H : (size (wave_numbers only_wave5) < 2)%nat).
  { vm_compute. lia. }
  split; [exact H | exact (all_waves_fallback_pair only_wave5 H)].
Defined.

(** C5 fails as stated: one registered wave, and [all_waves] returns a
    pair instead of raising. *)
Lemma all_waves_one_wave_no_error :
  size (wave_numbers only_wave5) = 1%nat ∧
  ¬ (∃ e, WaveConfigParser.parse_wave_config only_wave5 "all_waves" = Raise e).
Proof.
  split; [vm_compute; reflexivity |].
  intros [e He]. vm_compute in He. discriminate.
Qed.

(** C6, at the input where it fails. No definitions file: the registry is
    the default one, waves 1, 2 and 3. [add_wave_definition] then writes
    a file that holds the new row only, so the parser rebuilt for the
    next call knows wave 4 alone and [w1_to_w4] is rejected. *)
Theorem add_wave_on_default_registry_loses_defaults :
  let w0 := {| wave_file := None; wave_parser := None |} in
  let '(available, w1) := get_available_waves w0 in
  let '(added, w2) := add_wave_definition "Wave4" "W4_" EmptyString w1 in
  merge_sort N.le available = [1%N; 2%N; 3%N] ∧
  added = true ∧
  (get_available_waves w2).1 = [4%N] ∧
  (parse_wave_config "w1_to_w4" w2).1 = Raise (ValueError (WaveNotFound 1)).
Proof.
  vm_compute. repeat split; reflexivity.
Qed.

End resolver_claims.

(** ** The parser on the table that pandas reads *)

Section typed_registry.
Import typed typed.WaveConfigParser.

Lemma typed_elem_of_sorted_keys (p : t) (k : N) :
  k ∈ sorted_keys p ↔ k ∈ dom (wave_numbers p).
Proof.
  unfold sorted_keys. rewrite merge_sort_Permutation. apply elem_of_elements.
Qed.

Lemma typed_length_sorted_keys (p : t) :
  List.length (sorted_keys p) = size (wave_numbers p).
Proof.
  unfold sorted_keys.
  rewrite (Permutation_length (merge_sort_Permutation _ _)).
  rewrite <- size_dom. reflexivity.
Qed.

Lemma typed_sorted_keys_sorted (p : t) : StronglySorted N.le (sorted_keys p).
Proof.
  apply Sorted_StronglySorted; [intros x y z; apply N.le_trans |].
  apply (Sorted_merge_sort N.le).
Qed.

Lemma typed_prefix_of_dom (p : t) (k : N) :
  k ∈ dom (wave_numbers p) →
  ∃ name prefix,
    wave_numbers p !! k = Some (name, prefix) ∧ prefix_of p k = Ok prefix.
Proof.
  intros [[name prefix] Hk]%elem_of_dom. exists name, prefix.
  unfold prefix_of. rewrite Hk. auto.
Qed.

(** [all_waves] with two waves or more: the prefixes of the least and of
    the greatest registered number, strings or not. *)
Lemma typed_all_waves_extremes (p : t) :
  (2 ≤ size (wave_numbers p))%nat →
  ∃ lo hi nlo nhi plo phi,
    wave_numbers p !! lo = Some (nlo, plo) ∧
    wave_numbers p !! hi = Some (nhi, phi) ∧
    (∀ k, k ∈ dom (wave_numbers p) → (lo <= k)%N ∧ (k <= hi)%N) ∧
    parse_wave_config p "all_waves" = Ok (plo, phi).
Proof.
  intros Hsize. unfold parse_wave_config. simpl String.eqb. cbv iota.
  rewrite typed_length_sorted_keys.
  destruct (Nat.leb_spec 2 (size (wave_numbers p))) as [_ | ?]; [| lia].
  pose proof (typed_length_sorted_keys p) as Hlen.
  destruct (head (sorted_keys p)) as [lo|] eqn:Hhead;
    [| destruct (sorted_keys p); simpl in *; [lia | discriminate]].
  destruct (last (sorted_keys p)) as [hi|] eqn:Hlast;
    [| apply last_None in Hlast; rewrite Hlast in Hlen; simpl in Hlen; lia].
  destruct (typed_prefix_of_dom p lo) as (nlo & plo & Hlo & Eqlo).
  { apply typed_elem_of_sorted_keys. by apply head_elem_of. }
  destruct (typed_prefix_of_dom p hi) as (nhi & phi & Hhi & Eqhi).
  { apply typed_elem_of_sorted_keys. by apply last_elem_of. }
  exists lo, hi, nlo, nhi, plo, phi. repeat split; auto.
  - apply (head_least _ _ Hhead (typed_sorted_keys_sorted p)).
    by apply typed_elem_of_sorted_keys.
  - apply (last_greatest _ _ Hlast (typed_sorted_keys_sorted p)).
    by apply typed_elem_of_sorted_keys.
  - rewrite Eqlo, Eqhi. reflexivity.
Qed.

(** The resolver raises [ValueError], or [AttributeError] from its
    [print] when a registered prefix is not a string, and nothing else. *)
Lemma typed_parse_raises (p : t) (cfg : string) (e : exn) :
  parse_wave_config p cfg = Raise e →
  (∃ v, e = ValueError v)
  ∨ (e = AttributeError
     ∧ ∃ n name written, wave_numbers p !! n = Some (name, NotStr written)).
Proof.
  unfold parse_wave_config.
  destruct (String.eqb (PyStr.lower cfg) "all_waves").
  - destruct (Nat.leb_spec 2 (List.length (sorted_keys p))) as [Hlen | _];
      [| discriminate].
    rewrite typed_length_sorted_keys in Hlen.
    destruct (typed_all_waves_extremes p Hlen)
      as (lo & hi & nlo & nhi & plo & phi & _ & _ & _ & Heq).
    unfold parse_wave_config in Heq. simpl String.eqb in Heq.
    cbv iota in Heq. rewrite typed_length_sorted_keys in Heq.
    destruct (Nat.leb_spec 2 (size (wave_numbers p))); [| lia].
    rewrite Heq. discriminate.
  - destruct (PyStr.wave_pattern_match (PyStr.strip cfg)) as [[g1 g2]|];
      [| intros [= <-]; eauto].
    destruct (_ || _); [intros [= <-]; eauto |].
    destruct (_ =? _)%N; [intros [= <-]; eauto |].
    destruct (decide (PyStr.int g1 ∉ _)) as [|Hs]; [intros [= <-]; eauto |].
    destruct (decide (PyStr.int g2 ∉ _)) as [|Ht]; [intros [= <-]; eauto |].
    apply dec_stable in Hs. apply dec_stable in Ht.
    destruct (typed_prefix_of_dom p _ Hs) as (n1 & p1 & Hl1 & ->).
    destruct (typed_prefix_of_dom p _ Ht) as (n2 & p2 & Hl2 & ->).
    destruct p1 as [s1 | w1]; simpl.
    + destruct p2 as [s2 | w2]; simpl; [discriminate |].
      intros [= <-]. right. split; [done |]. eauto.
    + intros [= <-]. right. split; [done |]. eauto.
Qed.

(** The resolver reads the registry of numbers and nothing else. *)
Lemma typed_parse_numbers (p p' : t) (cfg : string) :
  wave_numbers p = wave_numbers p' →
  parse_wave_config p cfg = parse_wave_config p' cfg.
Proof.
  intros Hn. unfold parse_wave_config, sorted_keys, prefix_of.
  by rewrite Hn.
Qed.

(** The loader reads two cells of each row. *)
Lemma load_row_cells (p : t) (row row' : wave_row) :
  loaded_cells row = loaded_cells row' → load_row p row = load_row p row'.
Proof.
  unfold loaded_cells, load_row. intros [= Hname Hprefix].
  by rewrite Hname, Hprefix.
Qed.

Lemma load_rows_cells (rows rows' : list wave_row) (p : t) :
  loaded_cells <$> rows = loaded_cells <$> rows' →
  load_rows p rows = load_rows p rows'.
Proof.
  revert rows' p. induction rows as [|row rows IH]; intros [|row' rows'] p;
    try done.
  rewrite !fmap_cons. intros Heq.
  pose proof (f_equal head Heq) as Hrow. apply (inj Some) in Hrow.
  pose proof (f_equal tail Heq) as Hrows. simpl in Hrows. simpl.
  rewrite (load_row_cells p row row') by done.
  destruct (load_row p row') as [p' | e]; simpl; [by apply IH | done].
Qed.

Lemma load_rows_app (rows rows' : list wave_row) (p : t) :
  load_rows p (rows ++ rows')
  = p' ← load_rows p rows; load_rows p' rows'.
Proof.
  revert p. induction rows as [|row rows IH]; intros p; [done |].
  simpl. destruct (load_row p row) as [p' | e]; simpl; [apply IH | done].
Qed.

Lemma load_row_text (p : t) (name : string) (prefix descr : value) :
  load_row p (WaveRow (Str name) prefix descr)
  = Ok {| wave_definitions := <[name := prefix]> (wave_definitions p);
          wave_numbers :=
            match PyStr.re_search_digits name with
            | Some d => <[PyStr.int d := (name, prefix)]> (wave_numbers p)
            | None => wave_numbers p
            end |}.
Proof. unfold load_row. simpl. by destruct (PyStr.re_search_digits name). Qed.

(** On a table of plain text the loop raises nothing. *)
Lemma load_rows_plain (rows : list wave_row) (p : t) :
  forallb plain_row rows = true → ∃ p', load_rows p rows = Ok p'.
Proof.
  revert p. induction rows as [|row rows IH]; intros p; [by eexists |].
  simpl. intros [Hrow Hrows]%andb_true_iff.
  destruct row as [[name | w] prefix descr]; [| done].
  rewrite load_row_text. simpl. by apply IH.
Qed.

Lemma init_table (rows : list wave_row) (p : t) :
  load_rows empty rows = Ok p → __init__ (Some (Table rows)) = p.
Proof. unfold __init__, _load_wave_definitions. by intros ->. Qed.

Lemma plain_snoc (rows : list wave_row) (name prefix : string)
    (descr : value) :
  forallb plain_row rows = true →
  plain_text name = true → plain_text prefix = true →
  forallb plain_row (rows ++ [WaveRow (Str name) (Str prefix) descr]) = true.
Proof.
  intros Hrows Hname Hprefix. rewrite forallb_app, Hrows. simpl.
  unfold plain_row. simpl. by rewrite Hname, Hprefix.
Qed.

Lemma plain_file_rows (file : option typed.file) :
  plain_file file = true → forallb plain_row (file_rows file) = true.
Proof. by destruct file as [[|rows]|]. Qed.

Lemma file_registry_rows (file : option typed.file) (p : t) :
  plain_file file = true →
  load_rows empty (file_rows file) = Ok p →
  file_registry file = wave_numbers p.
Proof.
  destruct file as [[|rows]|]; simpl; [done | | by intros _ [= <-]].
  intros _ Hload. by rewrite (init_table _ _ Hload).
Qed.

(** [add_wave_definition] where the file can be written and holds plain
    text, for a name and a prefix that are plain text: the parser built
    next is the one that the rows of the file and the new row give. *)
Lemma typed_parser_after_add {C : CsvFile} (name prefix descr : string)
    (w : wave_parser.world) :
  wave_parser.writable w = true →
  plain_file (wave_parser.wave_file w) = true →
  plain_text name = true → plain_text prefix = true →
  ∃ p0,
    load_rows empty (file_rows (wave_parser.wave_file w)) = Ok p0 ∧
    (wave_parser.add_wave_definition name prefix descr w).1 = true ∧
    (wave_parser._get_wave_parser
       (wave_parser.add_wave_definition name prefix descr w).2).1
    = {| wave_definitions := <[name := Str prefix]> (wave_definitions p0);
         wave_numbers :=
           match PyStr.re_search_digits name with
           | Some d =>
               <[PyStr.int d := (name, Str prefix)]> (wave_numbers p0)
           | None => wave_numbers p0
           end |}.
Proof.
  intros Hwrite Hfile Hname Hprefix.
  pose proof (plain_file_rows _ Hfile) as Hrows.
  destruct (load_rows_plain _ empty Hrows) as [p0 Hp0].
  exists p0. split; [done |].
  assert (Hadd : wave_parser.add_wave_definition name prefix descr w
    = (true,
       {| wave_parser.writable := true;
          wave_parser.wave_file :=
            Some (Table (read_back
                           (file_rows (wave_parser.wave_file w)
                            ++ [WaveRow (Str name) (Str prefix) (Str descr)])));
          wave_parser.wave_parser := None |})).
  { unfold wave_parser.add_wave_definition. rewrite Hwrite.
    by destruct (wave_parser.wave_file w) as [[|rows]|]. }
  rewrite Hadd. split; [done |].
  unfold wave_parser._get_wave_parser. simpl. apply init_table.
  rewrite (load_rows_cells _
             (file_rows (wave_parser.wave_file w)
              ++ [WaveRow (Str name) (Str prefix) (Str descr)]))
    by (apply read_back_plain; by apply plain_snoc).
  rewrite load_rows_app, Hp0. simpl. by rewrite load_row_text.
Qed.

Lemma typed_parse_fst (cfg : string) (w : wave_parser.world) :
  (wave_parser.parse_wave_config cfg w).1
  = parse_wave_config (wave_parser._get_wave_parser w).1 cfg.
Proof.
  unfold wave_parser.parse_wave_config.
  by destruct (wave_parser._get_wave_parser w).
Qed.

Lemma typed_parse_coherent (cfg : string) (w : wave_parser.world) :
  wave_parser.coherent w →
  (wave_parser.parse_wave_config cfg w).1
  = parse_wave_config (__init__ (wave_parser.wave_file w)) cfg.
Proof.
  unfold wave_parser.parse_wave_config, wave_parser._get_wave_parser.
  intros [Hw | Hw]; rewrite Hw; reflexivity.
Qed.

End typed_registry.

(** On a registry of text the two resolvers agree: the [print] raises
    nothing there. *)
Section two_resolvers.

Lemma text_registry_prefix_of (p : WaveConfigParser.t) (k : N) :
  typed.WaveConfigParser.prefix_of (text_registry p) k
  = s ← WaveConfigParser.prefix_of p k; Ok (typed.Str s).
Proof.
  unfold typed.WaveConfigParser.prefix_of, WaveConfigParser.prefix_of.
  simpl. rewrite lookup_fmap.
  by destruct (WaveConfigParser.wave_numbers p !! k) as [[name prefix]|].
Qed.

Lemma text_registry_sorted_keys (p : WaveConfigParser.t) :
  typed.WaveConfigParser.sorted_keys (text_registry p)
  = WaveConfigParser.sorted_keys p.
Proof.
  unfold typed.WaveConfigParser.sorted_keys, WaveConfigParser.sorted_keys.
  simpl. by rewrite dom_fmap_L.
Qed.

Lemma text_registry_parse (p : WaveConfigParser.t) (cfg : string) :
  typed.WaveConfigParser.parse_wave_config (text_registry p) cfg
  = prefixes ← WaveConfigParser.parse_wave_config p cfg;
    Ok (typed.Str prefixes.1, typed.Str prefixes.2).
Proof.
  unfold typed.WaveConfigParser.parse_wave_config,
    WaveConfigParser.parse_wave_config.
  rewrite text_registry_sorted_keys.
  destruct (String.eqb (PyStr.lower cfg) "all_waves").
  - destruct (2 <=? _)%nat; [| done].
    destruct (head _) as [lo|]; [| done].
    destruct (last _) as [hi|]; [| done].
    rewrite !text_registry_prefix_of.
    destruct (WaveConfigParser.prefix_of p lo) as [plo | e]; [| done].
    by destruct (WaveConfigParser.prefix_of p hi) as [phi | e].
  - destruct (PyStr.wave_pattern_match (PyStr.strip cfg)) as [[g1 g2]|];
      [| done].
    destruct (_ || _); [done |].
    destruct (_ =? _)%N; [done |].
    simpl typed.WaveConfigParser.wave_numbers. rewrite !dom_fmap_L.
    destruct (decide (PyStr.int g1 ∉ _)); [done |].
    destruct (decide (PyStr.int g2 ∉ _)); [done |].
    rewrite !text_registry_prefix_of.
    destruct (WaveConfigParser.prefix_of p (PyStr.int g1)) as [p1 | e];
      [| done].
    by destruct (WaveConfigParser.prefix_of p (PyStr.int g2)) as [p2 | e].
Qed.

(** On a table of text the two loaders agree: the loop raises nothing
    there. *)
Lemma text_registry_load_rows (rows : list WaveConfigParser.wave_row)
    (p : WaveConfigParser.t) :
  typed.WaveConfigParser.load_rows (text_registry p) (text_rows rows)
  = Ok (text_registry (foldl WaveConfigParser.load_row p rows)).
Proof.
  revert p. induction rows as [|row rows IH]; intros p; [done |].
  unfold text_rows. rewrite fmap_cons. fold (text_rows rows).
  simpl typed.WaveConfigParser.load_rows.
  assert (Hrow : typed.WaveConfigParser.load_row (text_registry p)
                   (typed.WaveRow
                      (typed.Str (WaveConfigParser.wave_name row))
                      (typed.Str (WaveConfigParser.column_prefix row))
                      (typed.Str (WaveConfigParser.description row)))
                 = Ok (text_registry (WaveConfigParser.load_row p row))).
  { unfold typed.WaveConfigParser.load_row, WaveConfigParser.load_row,
      text_registry. simpl.
    destruct (PyStr.re_search_digits (WaveConfigParser.wave_name row));
      simpl; by rewrite ?fmap_insert. }
  rewrite Hrow. simpl. apply IH.
Qed.

Lemma text_registry_init (rows : list WaveConfigParser.wave_row) :
  typed.WaveConfigParser.__init__ (Some (typed.Table (text_rows rows)))
  = text_registry (WaveConfigParser.__init__ (Some rows)).
Proof.
  unfold typed.WaveConfigParser.__init__,
    typed.WaveConfigParser._load_wave_definitions.
  assert (Hempty : typed.WaveConfigParser.empty
                   = text_registry WaveConfigParser.empty).
  { unfold text_registry. simpl. by rewrite !fmap_empty. }
  by rewrite Hempty, text_registry_load_rows.
Qed.

End two_resolvers.

(** The reader that keeps plain text is within what is known of the
    file. *)
Definition plain_reader : typed.CsvFile.
Proof.
  refine {| typed.read_back := fmap typed.keep_plain_row |}.
  intros rows Hplain. rewrite <- list_fmap_compose.
  apply list_fmap_ext. intros i row Hrow.
  assert (Hr : typed.plain_row row = true).
  { rewrite forallb_forall in Hplain. apply Hplain.
    apply list_elem_of_In. by eapply list_elem_of_lookup_2. }
  destruct row as [[name | w1] [prefix | w2] descr]; try done.
  unfold typed.plain_row in Hr. simpl in Hr.
  apply andb_true_iff in Hr as [Hname Hprefix].
  unfold typed.loaded_cells. simpl. by rewrite Hname, Hprefix.
Defined.

Section typed_claims.
Import typed typed.WaveConfigParser Cases.

(** C10, at an input where it fails. The second row of the definitions
    file has an empty [column_prefix] cell, which is read as NaN and
    registered as the prefix of wave 2. On [w1_to_w2] the resolver passes
    every check and raises [AttributeError] in its [print], where it calls
    [rstrip] on the prefix; [validate_wave_config] catches [ValueError]
    only, so it raises too instead of answering [False]. *)
Theorem validate_wave_config_attribute_error :
  let parser := __init__ (Some empty_prefix_table) in
  wave_numbers parser !! 2%N = Some ("Wave2", nan) ∧
  parse_wave_config parser "w1_to_w2" = Raise AttributeError ∧
  validate_wave_config parser "w1_to_w2" = Raise AttributeError.
Proof. vm_compute. repeat split; reflexivity. Qed.

Lemma validate_wave_config_cases (p : t) (cfg : string) :
  (validate_wave_config p cfg = Ok true
     ↔ ∃ pair, parse_wave_config p cfg = Ok pair) ∧
  (validate_wave_config p cfg = Ok false
     ↔ ∃ v, parse_wave_config p cfg = Raise (ValueError v)) ∧
  (∀ e, validate_wave_config p cfg = Raise e →
        e = AttributeError
        ∧ parse_wave_config p cfg = Raise AttributeError
        ∧ ∃ n name written,
            wave_numbers p !! n = Some (name, NotStr written)) ∧
  (text_prefixes p → ∃ b, validate_wave_config p cfg = Ok b).
Proof.
  unfold validate_wave_config.
  destruct (parse_wave_config p cfg) as [pair | e] eqn:Hparse.
  - split; [split; eauto |]. split; [split; [done | by intros [v Hv]] |].
    split; [done | eauto].
  - destruct (typed_parse_raises p cfg e Hparse)
      as [[v ->] | [-> (n & name & written & Hn)]].
    + split; [split; [done | by intros [pair Hpair]] |].
      split; [split; eauto |]. split; [done | eauto].
    + split; [split; [done | by intros [pair Hpair]] |].
      split; [split; [done | by intros [v Hv]] |]. split.
      * intros e' [= <-]. eauto 10.
      * intros Htext. destruct (Htext _ _ _ Hn) as [s Hs]. discriminate.
Qed.

(** X23. [validate_wave_config] answers [True] exactly when the resolver
    returns a pair and [False] exactly when it raises [ValueError]. It
    raises nothing but the [AttributeError] of the resolver, which takes a
    registered prefix that is not a string: where every registered prefix
    is a string it always answers. *)
Theorem validate_wave_config_outcomes (p : t) (cfg : string) :
  (validate_wave_config p cfg = Ok true
     ↔ ∃ pair, parse_wave_config p cfg = Ok pair) ∧
  (validate_wave_config p cfg = Ok false
     ↔ ∃ v, parse_wave_config p cfg = Raise (ValueError v)) ∧
  (∀ e, validate_wave_config p cfg = Raise e →
        e = AttributeError
        ∧ parse_wave_config p cfg = Raise AttributeError
        ∧ ∃ n name written,
            wave_numbers p !! n = Some (name, NotStr written)) ∧
  (text_prefixes p → ∃ b, validate_wave_config p cfg = Ok b).
Proof. apply validate_wave_config_cases. Qed.

(** C4, as the code has it. With two registered waves or more,
    [all_waves] resolves to the prefix of the least registered number
    followed by the prefix of the greatest. When the definitions file is
    a table of plain text that can be written, a wave appended to it, its
    name and prefix plain text, under a number above every registered one
    is the target of the next resolution, and the source stays: the
    result is new exactly when the appended prefix is not the old target
    prefix. *)
Theorem all_waves_resolution :
  (∀ p : t,
     (2 ≤ size (wave_numbers p))%nat →
     ∃ lo hi nlo nhi plo phi,
       wave_numbers p !! lo = Some (nlo, plo) ∧
       wave_numbers p !! hi = Some (nhi, phi) ∧
       (∀ k, k ∈ dom (wave_numbers p) → (lo <= k)%N ∧ (k <= hi)%N) ∧
       parse_wave_config p "all_waves" = Ok (plo, phi)) ∧
  (∀ (C : CsvFile) (w : wave_parser.world) (rows : list wave_row)
     (name prefix descr d : string),
     wave_parser.writable w = true →
     wave_parser.wave_file w = Some (Table rows) →
     forallb plain_row rows = true →
     wave_parser.coherent w →
     plain_text name = true → plain_text prefix = true →
     (2 ≤ size (wave_numbers (__init__ (Some (Table rows)))))%nat →
     PyStr.re_search_digits name = Some d →
     (∀ k, k ∈ dom (wave_numbers (__init__ (Some (Table rows)))) →
           (k < PyStr.int d)%N) →
     ∃ plo phi,
       (wave_parser.parse_wave_config "all_waves" w).1 = Ok (plo, phi) ∧
       (wave_parser.parse_wave_config "all_waves"
          (wave_parser.add_wave_definition name prefix descr w).2).1
       = Ok (plo, Str prefix)).
Proof.
  split; [exact typed_all_waves_extremes |].
  intros C w rows name prefix descr d Hwrite Hf Hplain Hco Hname Hprefix
    Hsize Hd Habove.
  set (old := __init__ (Some (Table rows))) in *.
  destruct (typed_all_waves_extremes old Hsize)
    as (lo & hi & nlo & nhi & plo & phi & Hlo & Hhi & Hext & Hold).
  exists plo, phi. split.
  { rewrite (typed_parse_coherent _ _ Hco), Hf. exact Hold. }
  destruct (typed_parser_after_add name prefix descr w)
    as (p0 & Hp0 & _ & Hp'); [done | by rewrite Hf | done | done |].
  rewrite Hf in Hp0. simpl in Hp0.
  assert (Eold : old = p0) by (by apply init_table).
  unfold wave_parser.parse_wave_config.
  destruct (wave_parser._get_wave_parser
              (wave_parser.add_wave_definition name prefix descr w).2)
    as [p' w'] eqn:Hget.
  simpl in Hp'. simpl. subst p'. rewrite Hd, <- Eold.
  set (p' := {| wave_definitions := _; wave_numbers := _ |}).
  assert (Hnum : wave_numbers p'
                 = <[PyStr.int d := (name, Str prefix)]> (wave_numbers old))
    by done.
  assert (Hfresh : wave_numbers old !! PyStr.int d = None).
  { apply not_elem_of_dom. intros Hin. specialize (Habove _ Hin). lia. }
  assert (Hsize' : (2 ≤ size (wave_numbers p'))%nat).
  { rewrite Hnum, map_size_insert_None by done. lia. }
  destruct (typed_all_waves_extremes p' Hsize')
    as (lo' & hi' & nlo' & nhi' & plo' & phi' & Hlo' & Hhi' & Hext' & Hnew).
  rewrite Hnew. rewrite Hnum in Hlo', Hhi', Hext'.
  assert (Hin_lo : lo ∈ dom (wave_numbers old)) by (apply elem_of_dom; eauto).
  assert (Ehi : hi' = PyStr.int d).
  { destruct (decide (hi' = PyStr.int d)) as [|Hne]; [done |].
    rewrite lookup_insert_ne in Hhi' by done.
    assert (Hin : hi' ∈ dom (wave_numbers old)) by (apply elem_of_dom; eauto).
    specialize (Habove _ Hin).
    destruct (Hext' (PyStr.int d)) as [_ Hle]; [| lia].
    apply elem_of_dom. rewrite lookup_insert_eq. eauto. }
  assert (Hkeep : lo ∈ dom (<[PyStr.int d := (name, Str prefix)]>
                              (wave_numbers old))).
  { apply elem_of_dom. specialize (Habove _ Hin_lo).
    rewrite lookup_insert_ne by lia. by apply elem_of_dom. }
  assert (Elo : lo' = lo).
  { destruct (decide (lo' = PyStr.int d)) as [Heq | Hne].
    - destruct (Hext' lo Hkeep) as [Hle _].
      specialize (Habove _ Hin_lo). lia.
    - rewrite lookup_insert_ne in Hlo' by done.
      assert (Hin : lo' ∈ dom (wave_numbers old)) by (apply elem_of_dom; eauto).
      destruct (Hext lo' Hin) as [H1 _].
      destruct (Hext' lo Hkeep) as [H2 _]. lia. }
  subst hi' lo'. rewrite lookup_insert_eq in Hhi'.
  rewrite lookup_insert_ne in Hlo'
    by (specialize (Habove _ Hin_lo); lia).
  congruence.
Qed.

Lemma two_wave_table_above (k : N) :
  k ∈ dom (wave_numbers
             (__init__ (wave_parser.wave_file two_wave_table))) →
  (k < PyStr.int "3")%N.
Proof.
  intros Hk.
  change (k ∈ dom (<[2%N := ("Wave2", Str "W2_")]>
                     (<[1%N := ("Wave1", Str "W1_")]>
                        (∅ : gmap N (string * value))))) in Hk.
  rewrite !dom_insert_L, dom_empty_L in Hk.
  change (PyStr.int "3") with 3%N.
  apply elem_of_union in Hk as [Hk | Hk];
    [| apply elem_of_union in Hk as [Hk | Hk]].
  - apply elem_of_singleton in Hk as ->. lia.
  - apply elem_of_singleton in Hk as ->. lia.
  - by apply elem_of_empty in Hk.
Qed.

Lemma two_wave_table_size :
  (2 ≤ size (wave_numbers
               (__init__ (wave_parser.wave_file two_wave_table))))%nat.
Proof. vm_compute. lia. Qed.

Lemma all_waves_resolution_witness :
  (∃ lo hi nlo nhi plo phi,
     wave_numbers defaults !! lo = Some (nlo, plo) ∧
     wave_numbers defaults !! hi = Some (nhi, phi) ∧
     (∀ k, k ∈ dom (wave_numbers defaults) → (lo <= k)%N ∧ (k <= hi)%N) ∧
     parse_wave_config defaults "all_waves" = Ok (plo, phi)) ∧
  (∃ plo phi,
     (wave_parser.parse_wave_config "all_waves" two_wave_table).1
     = Ok (plo, phi) ∧
     (wave_parser.parse_wave_config "all_waves"
        (wave_parser.add_wave_definition (C := plain_reader)
           "Wave3" "W3_" EmptyString two_wave_table).2).1
     = Ok (plo, Str "W3_")).
Proof.
  destruct all_waves_resolution as [HA HB]. split.
  - apply HA. vm_compute. lia.
  - exact (HB plain_reader two_wave_table
             [text_row "Wave1" "W1_"; text_row "Wave2" "W2_"]
             "Wave3" "W3_" EmptyString "3" eq_refl eq_refl eq_refl
             (or_introl eq_refl) eq_refl eq_refl two_wave_table_size
             eq_refl two_wave_table_above).
Defined.

(** C4 fails as stated: wave 3 appended under the prefix that wave 2
    already has is registered, and leaves the resolution of [all_waves]
    as it was. *)
Lemma all_waves_unchanged_by_larger_wave :
  for_every_csv_file (λ C,
    let w1 := (wave_parser.parse_wave_config "all_waves" two_wave_table).2 in
    let added := wave_parser.add_wave_definition "Wave3" "W2_" EmptyString w1 in
    added.1 = true ∧
    wave_numbers (wave_parser._get_wave_parser added.2).1 !! 3%N
    = Some ("Wave3", Str "W2_") ∧
    (wave_parser.parse_wave_config "all_waves" two_wave_table).1
    = Ok (Str "W1_", Str "W2_") ∧
    (wave_parser.parse_wave_config "all_waves" added.2).1
    = (wave_parser.parse_wave_config "all_waves" two_wave_table).1).
Proof.
  intros C. cbv zeta.
  set (w1 := (wave_parser.parse_wave_config "all_waves" two_wave_table).2).
  destruct (typed_parser_after_add "Wave3" "W2_" EmptyString w1)
    as (p0 & Hp0 & Hadded & Hp');
    [reflexivity | reflexivity | reflexivity | reflexivity |].
  change (load_rows empty [text_row "Wave1" "W1_"; text_row "Wave2" "W2_"]
          = Ok p0) in Hp0.
  vm_compute in Hp0. injection Hp0 as <-.
  split; [exact Hadded |].
  rewrite (typed_parse_fst _ (wave_parser.add_wave_definition _ _ _ _).2).
  rewrite Hp'. clear Hp' Hadded.
  split; [vm_compute; reflexivity |].
  split; vm_compute; reflexivity.
Qed.

End typed_claims.

(** ** The row filter *)

Section filter_claims.
Import DataFrame RowReductionHandler Samples.

Lemma apply_one_columns (d : DataFrame.t) (f : filter_item) :
  columns (apply_one d f) = columns d.
Proof. unfold apply_one. case_bool_decide; reflexivity. Qed.

Lemma foldl_apply_one_columns (fs : list filter_item) (d : DataFrame.t) :
  columns (foldl apply_one d fs) = columns d.
Proof.
  revert d. induction fs as [|f fs IH]; intros d; simpl; [reflexivity |].
  rewrite IH. apply apply_one_columns.
Qed.

Lemma apply_one_missing (d : DataFrame.t) (f : filter_item) :
  column f ∉ columns d → apply_one d f = d.
Proof. intros Hmiss. unfold apply_one. by rewrite bool_decide_eq_false_2. Qed.

Lemma foldl_apply_one_skip (fs1 fs2 : list filter_item) (f : filter_item)
    (d : DataFrame.t) :
  column f ∉ columns d →
  foldl apply_one d (fs1 ++ f :: fs2)%list
  = foldl apply_one d (fs1 ++ fs2)%list.
Proof.
  intros Hmiss. rewrite !foldl_app. simpl.
  rewrite apply_one_missing; [reflexivity |].
  by rewrite foldl_apply_one_columns.
Qed.

(** What [apply_filters] does once the list of filters is not empty. *)
Lemma apply_filters_cons (data : DataFrame.t) (fs : list filter_item) :
  fs ≠ [] →
  apply_filters data (Some fs)
  = if (len data =? 0)%nat then Raise ZeroDivisionError
    else if (len (foldl apply_one data fs) =? 0)%nat
         then Raise (ValueError AllRowsFiltered)
         else Ok (foldl apply_one data fs).
Proof.
  destruct fs as [|f fs]; [done |]. intros _.
  unfold apply_filters, int_true_div.
  destruct (len data =? 0)%nat; reflexivity.
Qed.

(** C8, as the code has it. On a dataset with a row or more, a filter
    on a column the dataset does not have is skipped: the outcome is
    that of the other filters, and the dataset itself when there is no
    other filter. *)
Theorem apply_filters_skips_missing_column
    (data : DataFrame.t) (fs1 fs2 : list filter_item) (f : filter_item) :
  column f ∉ columns data →
  rows data ≠ [] →
  apply_filters data (Some (fs1 ++ f :: fs2)%list)
  = apply_filters data (Some (fs1 ++ fs2)%list) ∧
  apply_filters data (Some [f]) = Ok data.
Proof.
  intros Hmiss Hrows.
  assert (Hlen : (len data =? 0)%nat = false).
  { apply Nat.eqb_neq. unfold len. destruct (rows data); simpl; [done | lia]. }
  assert (Hone : apply_filters data (Some [f]) = Ok data).
  { rewrite apply_filters_cons by done. simpl.
    rewrite apply_one_missing by done. by rewrite Hlen. }
  split; [| exact Hone].
  rewrite apply_filters_cons by (destruct fs1; done).
  rewrite foldl_apply_one_skip by done.
  destruct (decide ((fs1 ++ fs2)%list = [])) as [Hnil | Hne].
  - rewrite Hnil. simpl. by rewrite Hlen.
  - by rewrite (apply_filters_cons _ _ Hne).
Qed.

Lemma apply_filters_skips_missing_column_witness :
  ("PID1_labeled" ∉ columns one_row) ∧
  (rows one_row ≠ []) ∧
  (apply_filters one_row (Some [FilterItem "PID1_labeled" [Some "Republican"]])
   = Ok one_row).
Proof.
  assert (H1 : "PID1_labeled" ∉ columns one_row).
  { intros Hin. simpl in Hin. apply list_elem_of_singleton in Hin.
    discriminate. }
  assert (H2 : rows one_row ≠ []) by discriminate.
  split; [exact H1 | split; [exact H2 |]].
  exact (proj2 (apply_filters_skips_missing_column one_row [] []
                  (FilterItem "PID1_labeled" [Some "Republican"]) H1 H2)).
Defined.

(** C8 fails as stated: the filter names a column the dataset does not
    have, and the dataset comes back with no error. *)
Lemma apply_filters_missing_column_no_error :
  ("PID1_labeled" ∉ columns one_row) ∧
  ¬ (∃ e, apply_filters one_row
            (Some [FilterItem "PID1_labeled" [Some "Republican"]]) = Raise e).
Proof.
  split.
  - intros Hin. simpl in Hin. apply list_elem_of_singleton in Hin.
    discriminate.
  - intros [e He]. vm_compute in He. discriminate.
Qed.

(** C9. With a filter or more, [apply_filters] never hands back a
    dataset with no rows: when the filters leave none it raises, and
    whatever it returns has a row. *)
Theorem apply_filters_empty_result_raises
    (data : DataFrame.t) (fs : list filter_item) :
  fs ≠ [] →
  (rows (foldl apply_one data fs) = [] →
   ∃ e, apply_filters data (Some fs) = Raise e) ∧
  (∀ d, apply_filters data (Some fs) = Ok d → rows d ≠ []).
Proof.
  intros Hfs. rewrite (apply_filters_cons _ _ Hfs). split.
  - intros Hempty. unfold len at 2. rewrite Hempty. simpl.
    destruct (len data =? 0)%nat; eauto.
  - intros d. destruct (len data =? 0)%nat; [discriminate |].
    destruct (len (foldl apply_one data fs) =? 0)%nat eqn:Hlen;
      [discriminate |].
    intros [= <-] Hnil. apply Nat.eqb_neq in Hlen.
    unfold len in Hlen. rewrite Hnil in Hlen. done.
Qed.

Lemma apply_filters_empty_result_raises_witness :
  let fs := [FilterItem "PID1_labeled" [Some "Republican"]] in
  (fs ≠ []) ∧
  (rows (foldl apply_one two_rows fs) = []) ∧
  (∃ e, apply_filters two_rows (Some fs) = Raise e).
Proof.
  intros fs.
  assert (H : fs ≠ []) by discriminate.
  assert (Hempty : rows (foldl apply_one two_rows fs) = [])
    by (vm_compute; reflexivity).
  split; [exact H | split; [exact Hempty |]].
  exact (proj1 (apply_filters_empty_result_raises two_rows fs H) Hempty).
Defined.

End filter_claims.

(** ** Rounding *)

Section float_bounds.
Context {F : FloatModel}.

Lemma fl_bounds (x : Q) :
  (x - fl_u * Qabs x <= fl x)%Q ∧ (fl x <= x + fl_u * Qabs x)%Q.
Proof.
  pose proof (fl_err x) as E. apply Qabs_Qle_condition in E.
  destruct E. split; lra.
Qed.

(** A percentage [(x) * 100] with [x] a rounded quotient is within two
    roundings of the exact one. *)
Lemma percentage_error (x : Q) :
  (0 <= x)%Q →
  (Qabs (fl (fl x * 100) - 100 * x) <= two_roundings * (100 * x))%Q.
Proof.
  intros Hx. unfold two_roundings.
  pose proof fl_u_nonneg as Hu.
  destruct (fl_bounds x) as [L1 U1].
  rewrite (Qabs_pos x Hx) in L1, U1.
  destruct (fl_bounds (fl x * 100)) as [L2 U2].
  assert (Hy : (Qabs (fl x * 100) <= 100 * (x + fl_u * x))%Q).
  { apply Qabs_Qle_condition. split; nra. }
  assert (Huy : (fl_u * Qabs (fl x * 100) <= fl_u * (100 * (x + fl_u * x)))%Q).
  { nra. }
  apply Qabs_Qle_condition. split; nra.
Qed.

Lemma Q_of_nat_add (a b : nat) :
  (Q_of_nat (a + b) == Q_of_nat a + Q_of_nat b)%Q.
Proof. unfold Q_of_nat. rewrite Nat2Z.inj_add, inject_Z_plus. reflexivity. Qed.

Lemma Q_of_nat_nonneg (a : nat) : (0 <= Q_of_nat a)%Q.
Proof.
  unfold Q_of_nat. change 0%Q with (inject_Z 0).
  rewrite <- Zle_Qle. lia.
Qed.

Lemma Q_of_nat_pos (a : nat) : (0 < a)%nat → (0 < Q_of_nat a)%Q.
Proof.
  intros Ha. unfold Q_of_nat. change 0%Q with (inject_Z 0).
  rewrite <- Zlt_Qlt. lia.
Qed.

Lemma share_nonneg (c n : nat) : (0 <= Q_of_nat c / Q_of_nat n)%Q.
Proof.
  destruct n as [|n].
  - unfold Qdiv. change (/ Q_of_nat 0)%Q with 0%Q. lra.
  - apply Qle_shift_div_l; [apply Q_of_nat_pos; lia |].
    pose proof (Q_of_nat_nonneg c). lra.
Qed.

Lemma percentage_sum_error (cs : list nat) (n : nat) :
  (Qabs (Qsum (pct n <$> cs) - 100 * (Q_of_nat (sum_counts cs) / Q_of_nat n))
   <= two_roundings * (100 * (Q_of_nat (sum_counts cs) / Q_of_nat n)))%Q.
Proof.
  induction cs as [|c cs IH].
  - change (Qsum (pct n <$> [])) with 0%Q.
    change (Q_of_nat (sum_counts [])) with 0%Q.
    apply Qabs_Qle_condition. unfold Qdiv.
    set (inv := (/ Q_of_nat n)%Q). split; lra.
  - change (sum_counts (c :: cs)) with (c + sum_counts cs)%nat.
    change (Qsum (pct n <$> c :: cs))
      with (pct n c + Qsum (pct n <$> cs))%Q.
    rewrite Q_of_nat_add.
    pose proof (percentage_error _ (share_nonneg c n)) as Hc.
    fold (pct n c) in Hc.
    apply Qabs_Qle_condition in Hc, IH.
    apply Qabs_Qle_condition.
    unfold Qdiv in *.
    set (inv := (/ Q_of_nat n)%Q) in *.
    split; nra.
Qed.

Lemma whole_share (n : nat) :
  (0 < n)%nat → (Q_of_nat n / Q_of_nat n == 1)%Q.
Proof.
  intros Hn. pose proof (Q_of_nat_pos n Hn). field. lra.
Qed.

(** The percentages of counts that add up to [n] add up to 100, up to
    the two roundings of each. *)
Lemma percentages_sum_to_100 (cs : list nat) (n : nat) :
  (0 < n)%nat → sum_counts cs = n →
  (Qabs (Qsum (pct n <$> cs) - 100) <= two_roundings * 100)%Q.
Proof.
  intros Hn Hsum. pose proof (percentage_sum_error cs n) as E.
  rewrite Hsum, (whole_share n Hn) in E.
  apply Qabs_Qle_condition in E. apply Qabs_Qle_condition. lra.
Qed.

End float_bounds.

(** ** Counting transitions *)

Section aggregation_facts.
Import DataFrame AlluvialVisualizationBuilder transition_pattern_analysis.

Lemma sum_counts_cons (x : nat) (l : list nat) :
  sum_counts (x :: l) = (x + sum_counts l)%nat.
Proof. reflexivity. Qed.

Lemma sum_counts_perm (l l' : list nat) :
  l ≡ₚ l' → sum_counts l = sum_counts l'.
Proof.
  induction 1 as [| x l l' _ IH | x y l | l l' l'' _ IH1 _ IH2];
    rewrite ?sum_counts_cons; [reflexivity | lia | lia | congruence].
Qed.

Lemma group_add_sum (key : string * string)
    (groups : list (string * string * nat)) :
  sum_counts (snd <$> group_add key groups)
  = S (sum_counts (snd <$> groups)).
Proof.
  induction groups as [|[key' n] groups IH]; [reflexivity |].
  simpl group_add.
  destruct (pair_compare key key');
    rewrite ?fmap_cons, ?sum_counts_cons; simpl snd; rewrite ?IH; lia.
Qed.

Lemma groupby_size_sum (l : list (string * string)) :
  sum_counts (snd <$> groupby_size l) = List.length l.
Proof.
  unfold groupby_size.
  enough (G : ∀ acc,
            sum_counts (snd <$> foldl (λ groups key, group_add key groups) acc l)
            = (sum_counts (snd <$> acc) + List.length l)%nat)
    by (rewrite G; reflexivity).
  induction l as [|key l IH]; intros acc; simpl; [lia |].
  rewrite IH, group_add_sum. lia.
Qed.

Lemma tally_add_sum (x : string) (acc : list (string * nat)) :
  sum_counts (snd <$> tally_add x acc) = S (sum_counts (snd <$> acc)).
Proof.
  induction acc as [|[y n] acc IH]; [reflexivity |].
  simpl tally_add.
  destruct (String.eqb x y);
    rewrite ?fmap_cons, ?sum_counts_cons; simpl snd; rewrite ?IH; lia.
Qed.

Lemma tally_sum (l : list string) :
  sum_counts (snd <$> tally l) = List.length l.
Proof.
  unfold tally.
  enough (G : ∀ acc,
            sum_counts (snd <$> foldl (λ acc x, tally_add x acc) acc l)
            = (sum_counts (snd <$> acc) + List.length l)%nat)
    by (rewrite G; reflexivity).
  induction l as [|x l IH]; intros acc; simpl; [lia |].
  rewrite IH, tally_add_sum. lia.
Qed.

(** The complete cases are the rows that [dropna] keeps. *)
Lemma length_dropna (d : DataFrame.t) (s t : string) :
  List.length (dropna ((λ row, (get d row s, get d row t)) <$> rows d))
  = complete_cases d s t.
Proof.
  unfold complete_cases. induction (rows d) as [|row l IH]; [reflexivity |].
  rewrite fmap_cons, filter_cons.
  destruct (decide (is_Some (get d row s) ∧ is_Some (get d row t)))
    as [[[a Ha] [b Hb]] | Hn].
  - rewrite Ha, Hb. simpl. by rewrite IH.
  - destruct (get d row s) as [a|], (get d row t) as [b|];
      try exact IH.
    exfalso. apply Hn. eauto.
Qed.

Lemma select2_present (d : DataFrame.t) (s t : string) :
  s ∈ columns d → t ∈ columns d →
  select2 d s t = Ok ((λ row, (get d row s, get d row t)) <$> rows d).
Proof.
  intros Hs Ht. unfold select2.
  by rewrite !bool_decide_eq_true_2.
Qed.

Context {F : FloatModel} {S : SortValues}.

Lemma times_100_true_divide (c n : nat) :
  (0 < n)%nat → times_100 (true_divide c n) = Finite (pct n c).
Proof.
  intros Hn. unfold true_divide.
  destruct (Nat.eqb_spec n 0) as [-> | _]; [lia | reflexivity].
Qed.

(** The table of [_process_transition_data] on two distinct columns of
    the dataset: the groups of the complete cases, each with its share
    of them, sorted. *)
Lemma process_transition_data_eq
    (self : AlluvialVisualizationBuilder.t) (s t : string) :
  WaveConfigParser.generate_column_names
    (_source_wave_prefix self) (_target_wave_prefix self)
    (_variable_name self) = (s, t) →
  s ∈ columns (_data self) → t ∈ columns (_data self) → s ≠ t →
  let n := complete_cases (_data self) s t in
  let groups :=
    groupby_size
      (dropna ((λ row, (get (_data self) row s, get (_data self) row t))
                 <$> rows (_data self))) in
  let table :=
    (λ g : string * string * nat,
       {| source := g.1.1; target := g.1.2; count := g.2;
          percentage := times_100 (true_divide g.2 n) |}) <$> groups in
  transition_counts self = Ok table ∧
  _process_transition_data self = Ok (sort_values count table) ∧
  sum_counts (count <$> table) = n.
Proof.
  intros Hnames Hs Ht Hne n groups table.
  assert (Hsum : sum_counts (snd <$> groups) = n).
  { unfold groups. rewrite groupby_size_sum. apply length_dropna. }
  assert (Htab : transition_counts self = Ok table).
  { unfold transition_counts. rewrite Hnames.
    rewrite (select2_present _ _ _ Hs Ht). simpl.
    destruct (String.eqb_spec s t) as [? | _]; [done |].
    fold groups. rewrite Hsum. reflexivity. }
  split; [exact Htab |]. split.
  - unfold _process_transition_data. rewrite Htab. reflexivity.
  - unfold table. rewrite <- list_fmap_compose. exact Hsum.
Qed.

Lemma pattern_df_eq (data : DataFrame.t) (s t : string) :
  s ∈ columns data → t ∈ columns data →
  let n := complete_cases data s t in
  let patterns :=
    (λ row : string * string, row.1 ++ " -> " ++ row.2)
      <$> dropna ((λ row, (get data row s, get data row t)) <$> rows data) in
  pattern_df data s t
  = Ok ((λ pc : string * nat,
           {| Pattern := pc.1; Count := pc.2;
              Percentage := times_100 (true_divide pc.2 n) |})
          <$> value_counts patterns) ∧
  sum_counts (snd <$> value_counts patterns) = n.
Proof.
  intros Hs Ht n patterns. split.
  - unfold pattern_df. rewrite (select2_present _ _ _ Hs Ht). simpl.
    rewrite length_dropna. reflexivity.
  - unfold value_counts.
    rewrite (sum_counts_perm _ (snd <$> tally patterns))
      by (apply fmap_Permutation, sort_values_perm).
    rewrite tally_sum. unfold patterns. rewrite length_fmap.
    apply length_dropna.
Qed.

End aggregation_facts.

(** ** Sorts and roundings that meet the contracts *)

Section insertion_sort_facts.
Context {A : Type} (k : A → nat) (stop : nat → nat → bool).
Hypothesis stop_true : ∀ a b, stop a b = true → (a ≤ b)%nat.
Hypothesis stop_false : ∀ a b, stop a b = false → (b ≤ a)%nat.

Let desc : relation A := λ x y, (k y ≤ k x)%nat.

Lemma insert_by_perm (x : A) (l : list A) : insert_by k stop x l ≡ₚ x :: l.
Proof.
  induction l as [|y l IH]; simpl; [reflexivity |].
  destruct (stop (k y) (k x)); [reflexivity |].
  rewrite IH. apply Permutation_swap.
Qed.

Lemma sort_by_perm (l : list A) : sort_by k stop l ≡ₚ l.
Proof.
  induction l as [|x l IH]; simpl; [reflexivity |].
  rewrite insert_by_perm. by rewrite IH.
Qed.

Lemma insert_by_hd (x y : A) (l : list A) :
  desc y x → HdRel desc y l → HdRel desc y (insert_by k stop x l).
Proof.
  intros Hyx Hhd. destruct l as [|z l]; simpl; [by constructor |].
  destruct (stop (k z) (k x)); constructor; [exact Hyx |].
  by inversion Hhd.
Qed.

Lemma insert_by_sorted (x : A) (l : list A) :
  Sorted desc l → Sorted desc (insert_by k stop x l).
Proof.
  induction 1 as [|y l Hs IH Hhd]; simpl.
  - repeat constructor.
  - destruct (stop (k y) (k x)) eqn:Hstop.
    + constructor; [by constructor |].
      constructor. by apply stop_true.
    + constructor; [exact IH |].
      apply insert_by_hd; [| exact Hhd]. by apply stop_false.
Qed.

Lemma sort_by_sorted (l : list A) : Sorted desc (sort_by k stop l).
Proof.
  induction l as [|x l IH]; simpl; [constructor |].
  by apply insert_by_sorted.
Qed.
End insertion_sort_facts.

(** The insertion sort that keeps ties in place. *)
Definition keep_order_sort : SortValues.
Proof.
  refine {| sort_values := λ A k, sort_keep k |}.
  - intros A k l. apply sort_by_perm.
  - intros A k l. apply sort_by_sorted.
    + intros a b Hab. by apply Nat.leb_le.
    + intros a b Hab. apply Nat.leb_gt in Hab. lia.
Defined.

(** [sort_keep] is a stable sort: rows with the same key come out in the
    order in which they went in. *)
Lemma insert_keep_filter {A : Type} (k : A → nat) (c : nat) (x : A)
    (l : list A) :
  filter (λ r, k r = c) (insert_by k Nat.leb x l)
  = filter (λ r, k r = c) (x :: l).
Proof.
  induction l as [|y l IH]; [reflexivity |].
  simpl insert_by. destruct (Nat.leb_spec (k y) (k x)) as [_ | Hlt];
    [reflexivity |].
  rewrite (filter_cons _ y), IH, !(filter_cons _ x), (filter_cons _ y).
  repeat case_decide; (reflexivity || lia).
Qed.

Lemma sort_keep_stable {A : Type} (k : A → nat) (c : nat) (l : list A) :
  filter (λ r, k r = c) (sort_keep k l) = filter (λ r, k r = c) l.
Proof.
  induction l as [|x l IH]; [reflexivity |].
  change (sort_keep k (x :: l)) with (insert_by k Nat.leb x (sort_keep k l)).
  rewrite insert_keep_filter, !(filter_cons _ x), IH. reflexivity.
Qed.

Section binary64_facts.
Local Open Scope Q_scope.

Lemma round_half_even_err (q : Q) :
  Qabs (inject_Z (round_half_even q) - q) <= 1 # 2.
Proof.
  unfold round_half_even.
  pose proof (Qfloor_le q) as Hlo. pose proof (Qlt_floor q) as Hhi.
  rewrite inject_Z_plus in Hhi. change (inject_Z 1) with 1 in Hhi.
  destruct (Qcompare_spec (q - inject_Z (Qfloor q)) (1 # 2)) as [E | E | E];
    [destruct (Z.even (Qfloor q)) | |];
    rewrite ?inject_Z_plus; change (inject_Z 1) with 1;
    apply Qabs_Qle_condition; split; lra.
Qed.

Lemma two_power_pos (e : Z) : 0 < 2 ^ e.
Proof. apply Qpower_0_lt. reflexivity. Qed.

(** The exponent found is not above that of [a / b]. *)
Lemma ilog2_le (a b : positive) : 2 ^ ilog2 a b <= Zpos a # b.
Proof.
  unfold ilog2.
  set (la := Z.log2 (Zpos a)). set (lb := Z.log2 (Zpos b)).
  destruct (Qle_bool (2 ^ (la - lb)) (Zpos a # b)) eqn:Hle.
  - apply Qle_bool_iff. exact Hle.
  - clear Hle.
    assert (Hla : (0 <= la)%Z) by apply Z.log2_nonneg.
    assert (Hlb : (0 <= lb)%Z) by apply Z.log2_nonneg.
    destruct (Z.log2_spec (Zpos a)) as [Ha _]; [lia |].
    destruct (Z.log2_spec (Zpos b)) as [_ Hb]; [lia |].
    fold la in Ha. fold lb in Hb.
    replace (la - lb - 1)%Z with (la - Z.succ lb)%Z by lia.
    rewrite Qpower_minus by discriminate.
    rewrite <- (Zpower_Qpower 2 la), <- (Zpower_Qpower 2 (Z.succ lb)) by lia.
    rewrite (Qmake_Qdiv (Zpos a) b).
    assert (HP : 0 < inject_Z (2 ^ la)).
    { change 0 with (inject_Z 0). rewrite <- Zlt_Qlt. lia. }
    assert (HB : 0 < inject_Z (Zpos b)).
    { change 0 with (inject_Z 0). rewrite <- Zlt_Qlt. lia. }
    assert (HPA : inject_Z (2 ^ la) <= inject_Z (Zpos a))
      by (rewrite <- Zle_Qle; exact Ha).
    assert (HBR : inject_Z (Zpos b) <= inject_Z (2 ^ Z.succ lb))
      by (rewrite <- Zle_Qle; lia).
    apply Qle_shift_div_l; [exact HB |].
    apply Qle_trans with (inject_Z (2 ^ la)); [| exact HPA].
    unfold Qdiv. rewrite <- Qmult_assoc.
    rewrite <- (Qmult_1_r (inject_Z (2 ^ la))) at 2.
    apply Qmult_le_l; [exact HP |].
    rewrite Qmult_comm. apply Qle_shift_div_r; [lra | lra].
Qed.

(** ... and that of [a / b] is not above it. *)
Lemma ilog2_lt (a b : positive) : Zpos a # b < 2 ^ (ilog2 a b + 1).
Proof.
  unfold ilog2.
  set (la := Z.log2 (Zpos a)). set (lb := Z.log2 (Zpos b)).
  destruct (Qle_bool (2 ^ (la - lb)) (Zpos a # b)) eqn:Hle.
  - clear Hle.
    assert (Hla : (0 <= la)%Z) by apply Z.log2_nonneg.
    assert (Hlb : (0 <= lb)%Z) by apply Z.log2_nonneg.
    destruct (Z.log2_spec (Zpos a)) as [_ Ha]; [lia |].
    destruct (Z.log2_spec (Zpos b)) as [Hb _]; [lia |].
    fold la in Ha. fold lb in Hb.
    replace (la - lb + 1)%Z with (Z.succ la - lb)%Z by lia.
    rewrite Qpower_minus by discriminate.
    rewrite <- (Zpower_Qpower 2 (Z.succ la)), <- (Zpower_Qpower 2 lb) by lia.
    rewrite (Qmake_Qdiv (Zpos a) b).
    assert (HR : 0 < inject_Z (2 ^ lb)).
    { change 0 with (inject_Z 0). rewrite <- Zlt_Qlt. lia. }
    assert (HB : 0 < inject_Z (Zpos b)).
    { change 0 with (inject_Z 0). rewrite <- Zlt_Qlt. lia. }
    assert (HA : inject_Z (Zpos a) < inject_Z (2 ^ Z.succ la))
      by (rewrite <- Zlt_Qlt; exact Ha).
    assert (HRB : inject_Z (2 ^ lb) <= inject_Z (Zpos b))
      by (rewrite <- Zle_Qle; exact Hb).
    apply Qlt_shift_div_r; [exact HB |].
    apply Qlt_le_trans with (inject_Z (2 ^ Z.succ la)); [exact HA |].
    assert (HP : 0 < inject_Z (2 ^ Z.succ la)).
    { change 0 with (inject_Z 0). rewrite <- Zlt_Qlt. lia. }
    unfold Qdiv. rewrite <- Qmult_assoc.
    rewrite <- (Qmult_1_r (inject_Z (2 ^ Z.succ la))) at 1.
    apply Qmult_le_l; [exact HP |].
    rewrite Qmult_comm. apply Qle_shift_div_l; [lra | lra].
  - replace (la - lb - 1 + 1)%Z with (la - lb)%Z by lia.
    apply Qnot_le_lt. intros Hge. apply Qle_bool_iff in Hge. congruence.
Qed.

Lemma binary64_pos_err (a b : positive) :
  Qabs (binary64_pos a b - (Zpos a # b)) <= unit_roundoff * (Zpos a # b).
Proof.
  unfold binary64_pos.
  set (x := Zpos a # b). set (e := (ilog2 a b - 52)%Z).
  pose proof (two_power_pos e) as Hs.
  pose proof (round_half_even_err (x / 2 ^ e)) as Hr.
  assert (Hx : 2 ^ e * 4503599627370496 <= x).
  { change 4503599627370496 with (2 ^ 52).
    rewrite <- Qpower_plus by discriminate.
    unfold e. replace (ilog2 a b - 52 + 52)%Z with (ilog2 a b) by lia.
    apply ilog2_le. }
  set (s := 2 ^ e) in *.
  set (r := inject_Z (round_half_even (x / s))) in *.
  assert (Hy : x / s * s == x) by (field; lra).
  apply Qabs_Qle_condition in Hr. destruct Hr as [Hr1 Hr2].
  assert (H1 : (r - x / s) * s <= (1 # 2) * s)
    by (apply Qmult_le_compat_r; lra).
  assert (H2 : - (1 # 2) * s <= (r - x / s) * s)
    by (apply Qmult_le_compat_r; lra).
  unfold unit_roundoff.
  apply Qabs_Qle_condition. split; lra.
Qed.

Lemma binary64_err (x : Q) : Qabs (binary64 x - x) <= unit_roundoff * Qabs x.
Proof.
  destruct x as [[|a|a] b]; unfold binary64; simpl Qnum; simpl Qden.
  - apply Qabs_Qle_condition. change (Qabs (0 # b)) with (0 # b).
    assert (Hz : 0 # b == 0) by reflexivity. rewrite Hz. split; lra.
  - change (Qabs (Zpos a # b)) with (Zpos a # b). apply binary64_pos_err.
  - change (Qabs (Zneg a # b)) with (Zpos a # b).
    pose proof (binary64_pos_err a b) as E.
    assert (Hneg : Zneg a # b == - (Zpos a # b)) by reflexivity.
    apply Qabs_Qle_condition in E. apply Qabs_Qle_condition.
    rewrite Hneg. set (x := Zpos a # b) in *. split; lra.
Qed.

(** The values Python prints for [2/3*100], [0.1] and [50/950*100], as
    exact fractions ([float.as_integer_ratio]). *)
Example binary64_two_thirds_percent :
  Qred (binary64 (binary64 (2 # 3) * 100))
  = 2345624805922133 # 35184372088832.
Proof. vm_compute. reflexivity. Qed.

Example binary64_one_tenth :
  Qred (binary64 (1 # 10)) = 3602879701896397 # 36028797018963968.
Proof. vm_compute. reflexivity. Qed.

Example binary64_fifty_of_950_percent :
  Qred (binary64 (binary64 (50 # 950) * 100))
  = 5925788983382231 # 1125899906842624.
Proof. vm_compute. reflexivity. Qed.

End binary64_facts.

(** Binary64 arithmetic meets the standard model. *)
Definition binary64_arithmetic : FloatModel.
Proof.
  refine {| fl := binary64; fl_u := unit_roundoff |}.
  - discriminate.
  - exact binary64_err.
Defined.

(** Arithmetic with no rounding at all. *)
Definition exact_arithmetic : FloatModel.
Proof.
  refine {| fl := λ x, x; fl_u := 0 |}.
  - apply Qle_refl.
  - intros x. apply Qabs_Qle_condition. split; lra.
Defined.

(** With no rounding the percentages add up to 100 exactly. *)
Lemma percentages_sum_exact (cs : list nat) (n : nat) :
  (0 < n)%nat → sum_counts cs = n →
  (Qsum (pct (F := exact_arithmetic) n <$> cs) == 100)%Q.
Proof.
  intros Hn Hsum.
  pose proof (percentages_sum_to_100 (F := exact_arithmetic) cs n Hn Hsum) as E.
  apply Qabs_Qle_condition in E. unfold two_roundings in E. simpl fl_u in E.
  lra.
Qed.

(** ** The transition table and its statistics *)

Section aggregation_claims.
Import DataFrame AlluvialVisualizationBuilder transition_pattern_analysis.
Context {F : FloatModel} {S : SortValues}.

(** C1. For two distinct columns of the dataset, the transition table of
    the alluvial builder and the pattern table of the pattern analysis
    are both produced, and in each the counts add up to the number of
    rows in which neither column is missing. *)
Theorem counts_add_up_to_complete_cases
    (self : AlluvialVisualizationBuilder.t) (s t : string) :
  WaveConfigParser.generate_column_names
    (_source_wave_prefix self) (_target_wave_prefix self)
    (_variable_name self) = (s, t) →
  s ∈ columns (_data self) → t ∈ columns (_data self) → s ≠ t →
  ∃ records patterns,
    _process_transition_data self = Ok records ∧
    pattern_df (_data self) s t = Ok patterns ∧
    sum_counts (count <$> records) = complete_cases (_data self) s t ∧
    sum_counts (Count <$> patterns) = complete_cases (_data self) s t.
Proof.
  intros Hnames Hs Ht Hne.
  destruct (process_transition_data_eq self s t Hnames Hs Ht Hne)
    as (_ & Hproc & Hsum).
  destruct (pattern_df_eq (_data self) s t Hs Ht) as [Hpat Hpsum].
  eexists _, _. split; [exact Hproc |]. split; [exact Hpat |]. split.
  - etrans; [| exact Hsum].
    apply sum_counts_perm, fmap_Permutation, sort_values_perm.
  - rewrite <- list_fmap_compose. exact Hpsum.
Qed.

(** C2. With a complete case or more, the percentage of every row of
    either table is [(count / n) * 100] in floating point, [n] being the
    number of complete cases; it is within two roundings of the exact
    [100 * count / n], and the percentages of a table add up to 100 within
    two roundings. *)
Theorem percentages_over_complete_cases
    (self : AlluvialVisualizationBuilder.t) (s t : string) :
  WaveConfigParser.generate_column_names
    (_source_wave_prefix self) (_target_wave_prefix self)
    (_variable_name self) = (s, t) →
  s ∈ columns (_data self) → t ∈ columns (_data self) → s ≠ t →
  (1 ≤ complete_cases (_data self) s t)%nat →
  let n := complete_cases (_data self) s t in
  let exact (c : nat) : Q := (100 * (Q_of_nat c / Q_of_nat n))%Q in
  ∃ records patterns,
    _process_transition_data self = Ok records ∧
    pattern_df (_data self) s t = Ok patterns ∧
    (∀ r, r ∈ records →
       percentage r = Finite (pct n (count r)) ∧
       (Qabs (pct n (count r) - exact (count r))
        <= two_roundings * exact (count r))%Q) ∧
    (∀ r, r ∈ patterns →
       Percentage r = Finite (pct n (Count r)) ∧
       (Qabs (pct n (Count r) - exact (Count r))
        <= two_roundings * exact (Count r))%Q) ∧
    (Qabs (Qsum (pct n <$> (count <$> records)) - 100)
     <= two_roundings * 100)%Q ∧
    (Qabs (Qsum (pct n <$> (Count <$> patterns)) - 100)
     <= two_roundings * 100)%Q.
Proof.
  intros Hnames Hs Ht Hne Hn n exact.
  destruct (process_transition_data_eq self s t Hnames Hs Ht Hne)
    as (_ & Hproc & Hsum).
  destruct (pattern_df_eq (_data self) s t Hs Ht) as [Hpat Hpsum].
  fold n in Hsum, Hpsum, Hproc, Hpat.
  eexists _, _. split; [exact Hproc |]. split; [exact Hpat |].
  assert (Hsum' : ∀ table : list transition,
            sum_counts (count <$> table) = n →
            sum_counts (count <$> sort_values count table) = n).
  { intros table <-.
    apply sum_counts_perm, fmap_Permutation, sort_values_perm. }
  apply Hsum' in Hsum.
  split; [| split; [| split]].
  - intros r Hr. split; [| apply percentage_error, share_nonneg].
    rewrite sort_values_perm in Hr.
    apply list_elem_of_fmap in Hr as (g & -> & _). simpl.
    by apply times_100_true_divide.
  - intros r Hr. split; [| apply percentage_error, share_nonneg].
    apply list_elem_of_fmap in Hr as (pc & -> & _). simpl.
    by apply times_100_true_divide.
  - by apply percentages_sum_to_100.
  - apply percentages_sum_to_100; [exact Hn |].
    rewrite <- list_fmap_compose. exact Hpsum.
Qed.

(** C3, as the code has it. With no complete case the alluvial builder
    raises nothing: the table is empty and the statistics report no
    transition, no pattern, a stability rate of 0 and no top pattern. *)
Theorem no_complete_case_statistics
    (self : AlluvialVisualizationBuilder.t) (s t : string) :
  WaveConfigParser.generate_column_names
    (_source_wave_prefix self) (_target_wave_prefix self)
    (_variable_name self) = (s, t) →
  s ∈ columns (_data self) → t ∈ columns (_data self) → s ≠ t →
  complete_cases (_data self) s t = 0%nat →
  build_statistics self
  = Ok ([], {| total_transitions := 0; unique_patterns := 0;
               stability_rate := Finite 0; top_patterns := [];
               variable_analyzed := _variable_name self;
               wave_transition := _wave_config self |}).
Proof.
  intros Hnames Hs Ht Hne Hzero.
  destruct (process_transition_data_eq self s t Hnames Hs Ht Hne)
    as (_ & Hproc & _).
  rewrite <- length_dropna in Hzero. apply length_zero_iff_nil in Hzero.
  rewrite Hzero in Hproc. simpl in Hproc.
  pose proof (sort_values_perm transition count []) as Hnil.
  apply Permutation_nil_r in Hnil. rewrite Hnil in Hproc.
  unfold build_statistics. rewrite Hproc. reflexivity.
Qed.


End aggregation_claims.

(** ** Runs on the sample datasets *)

Section samples.
Import DataFrame AlluvialVisualizationBuilder transition_pattern_analysis.
Import Samples.

Lemma sample_columns (data : DataFrame.t) :
  columns data = ["W1_P"; "W2_P"] →
  "W1_P" ∈ columns data ∧ "W2_P" ∈ columns data ∧ "W1_P" ≠ "W2_P".
Proof. intros ->. split; [| split]; [repeat constructor.. | discriminate]. Qed.

(** The table of the four respondents, as Python computes it: two
    transitions out of three are 66.66666666666666 percent, one is
    33.33333333333333, and the two add up to a little less than 100. *)
Example four_respondents_table :
  _process_transition_data (F := binary64_arithmetic) (S := keep_order_sort)
    four_respondents
  = Ok [Transition "A" "A" 2
          (Finite (pct (F := binary64_arithmetic) 3 2));
        Transition "A" "B" 1
          (Finite (pct (F := binary64_arithmetic) 3 1))] ∧
  Qred (pct (F := binary64_arithmetic) 3 2)
  = (2345624805922133 # 35184372088832)%Q ∧
  Qred (pct (F := binary64_arithmetic) 3 1)
  = (2345624805922133 # 70368744177664)%Q ∧
  (pct (F := binary64_arithmetic) 3 2 + pct (F := binary64_arithmetic) 3 1
   < 100)%Q.
Proof. vm_compute. repeat split; reflexivity. Qed.

Lemma counts_add_up_to_complete_cases_witness :
  ∃ records patterns,
    _process_transition_data (F := binary64_arithmetic) (S := keep_order_sort)
      four_respondents = Ok records ∧
    pattern_df (F := binary64_arithmetic) (S := keep_order_sort)
      (_data four_respondents) "W1_P" "W2_P" = Ok patterns ∧
    sum_counts (count <$> records) = 3%nat ∧
    sum_counts (Count <$> patterns) = 3%nat.
Proof.
  destruct (sample_columns (_data four_respondents) eq_refl) as (Hs & Ht & Hne).
  exact (counts_add_up_to_complete_cases four_respondents "W1_P" "W2_P"
           eq_refl Hs Ht Hne).
Defined.

Lemma percentages_over_complete_cases_witness :
  ∃ records patterns,
    _process_transition_data (F := binary64_arithmetic) (S := keep_order_sort)
      four_respondents = Ok records ∧
    pattern_df (F := binary64_arithmetic) (S := keep_order_sort)
      (_data four_respondents) "W1_P" "W2_P" = Ok patterns ∧
    (∀ r, r ∈ records →
       percentage r = Finite (pct (F := binary64_arithmetic) 3 (count r)) ∧
       (Qabs (pct (F := binary64_arithmetic) 3 (count r)
              - 100 * (Q_of_nat (count r) / Q_of_nat 3))
        <= two_roundings (F := binary64_arithmetic)
           * (100 * (Q_of_nat (count r) / Q_of_nat 3)))%Q) ∧
    (∀ r, r ∈ patterns →
       Percentage r = Finite (pct (F := binary64_arithmetic) 3 (Count r)) ∧
       (Qabs (pct (F := binary64_arithmetic) 3 (Count r)
              - 100 * (Q_of_nat (Count r) / Q_of_nat 3))
        <= two_roundings (F := binary64_arithmetic)
           * (100 * (Q_of_nat (Count r) / Q_of_nat 3)))%Q) ∧
    (Qabs (Qsum (pct (F := binary64_arithmetic) 3 <$> (count <$> records)) - 100)
     <= two_roundings (F := binary64_arithmetic) * 100)%Q ∧
    (Qabs (Qsum (pct (F := binary64_arithmetic) 3 <$> (Count <$> patterns)) - 100)
     <= two_roundings (F := binary64_arithmetic) * 100)%Q.
Proof.
  destruct (sample_columns (_data four_respondents) eq_refl) as (Hs & Ht & Hne).
  assert (Hn : (1 ≤ complete_cases (_data four_respondents) "W1_P" "W2_P")%nat).
  { vm_compute. lia. }
  exact (percentages_over_complete_cases four_respondents "W1_P" "W2_P"
           eq_refl Hs Ht Hne Hn).
Defined.

Lemma no_complete_case_statistics_witness :
  build_statistics (F := binary64_arithmetic) (S := keep_order_sort)
    no_complete_case
  = Ok ([], {| total_transitions := 0; unique_patterns := 0;
               stability_rate := Finite 0; top_patterns := [];
               variable_analyzed := "P"; wave_transition := "w1_to_w2" |}).
Proof.
  destruct (sample_columns (_data no_complete_case) eq_refl) as (Hs & Ht & Hne).
  exact (no_complete_case_statistics no_complete_case "W1_P" "W2_P"
           eq_refl Hs Ht Hne eq_refl).
Defined.

(** C3 fails as stated: no row has both answers, and the builder returns
    statistics instead of raising. *)
Lemma no_complete_case_no_error :
  complete_cases (_data no_complete_case) "W1_P" "W2_P" = 0%nat ∧
  ¬ (∃ e, build_statistics (F := binary64_arithmetic) (S := keep_order_sort)
            no_complete_case = Raise e).
Proof.
  split; [reflexivity |]. intros [e He]. vm_compute in He. discriminate.
Qed.


End samples.

(** * Further properties of the code *)

(** ** What [apply_filters] keeps *)

Section filter_semantics.
Import DataFrame RowReductionHandler.

Lemma get_columns (d d' : DataFrame.t) (row : list cell) (c : string) :
  columns d = columns d' → get d row c = get d' row c.
Proof. intros Hc. unfold get. by rewrite Hc. Qed.

Lemma filter_all {A : Type} (P : A → Prop) `{∀ x, Decision (P x)}
    (l : list A) :
  Forall P l → filter P l = l.
Proof.
  induction 1 as [|x l Hx _ IH]; [reflexivity |].
  by rewrite filter_cons, decide_True, IH.
Qed.

Lemma filter_filter_and {A : Type} (P Q : A → Prop)
    `{∀ x, Decision (P x)} `{∀ x, Decision (Q x)} (l : list A) :
  filter Q (filter P l) = filter (λ x, P x ∧ Q x) l.
Proof.
  induction l as [|x l IH]; [reflexivity |].
  rewrite (filter_cons P), (filter_cons (λ x, P x ∧ Q x)).
  destruct (decide (P x)) as [HP | HP].
  - rewrite (filter_cons Q), IH.
    destruct (decide (Q x)) as [HQ | HQ].
    + by rewrite decide_True.
    + rewrite decide_False; [done | tauto].
  - rewrite IH, decide_False; [done | tauto].
Qed.

Lemma filter_iff {A : Type} (P Q : A → Prop)
    `{∀ x, Decision (P x)} `{∀ x, Decision (Q x)} (l : list A) :
  (∀ x, x ∈ l → P x ↔ Q x) → filter P l = filter Q l.
Proof.
  induction l as [|x l IH]; intros Hiff; [reflexivity |].
  rewrite !filter_cons, IH by (intros y Hy; apply Hiff; by right).
  destruct (decide (P x)) as [HP | HP].
  - rewrite decide_True; [done |]. apply Hiff; [by left | done].
  - rewrite decide_False; [done |]. intros HQ. apply HP, Hiff; [by left | done].
Qed.

(** The loop of [apply_filters]: the columns stay, and the rows left are
    those that pass every filter. *)
Lemma foldl_apply_one_spec (fs : list filter_item) (d : DataFrame.t) :
  foldl apply_one d fs = {| columns := columns d; rows := kept_rows d fs |}.
Proof.
  unfold kept_rows. revert d.
  induction fs as [|f fs IH]; intros d; simpl.
  - rewrite filter_all; [by destruct d |].
    apply Forall_forall. intros row _. constructor.
  - rewrite IH. f_equal; [apply apply_one_columns |].
    trans (filter (λ row, Forall (passes d row) fs) (rows (apply_one d f))).
    { apply filter_iff. intros row _. apply Forall_proper; [| done].
      intros g. unfold passes.
      by rewrite apply_one_columns,
        (get_columns _ d row _ (apply_one_columns d f)). }
    unfold apply_one. case_bool_decide as Hin; simpl.
    + rewrite filter_filter_and. apply filter_iff. intros row _.
      rewrite Forall_cons. unfold passes at 2. tauto.
    + apply filter_iff. intros row _. rewrite Forall_cons.
      unfold passes at 2. tauto.
Qed.

End filter_semantics.

Section filter_properties.
Import DataFrame RowReductionHandler.

Lemma len_zero (d : DataFrame.t) :
  (len d =? 0)%nat = bool_decide (rows d = []).
Proof.
  unfold len. destruct (rows d) as [|row l]; [reflexivity |].
  symmetry. by apply bool_decide_eq_false_2.
Qed.

Lemma apply_filters_cases (data : DataFrame.t) (fs : list filter_item) :
  fs ≠ [] →
  apply_filters data (Some fs)
  = if bool_decide (rows data = []) then Raise ZeroDivisionError
    else if bool_decide (kept_rows data fs = [])
         then Raise (ValueError AllRowsFiltered)
         else Ok {| columns := columns data; rows := kept_rows data fs |}.
Proof.
  intros Hfs. rewrite (apply_filters_cons _ _ Hfs), !len_zero.
  by rewrite foldl_apply_one_spec.
Qed.

(** X1. With a filter or more, [apply_filters] has three outcomes. A frame
    with no rows is a [ZeroDivisionError] (the removal rate); no row passing
    every filter is the [ValueError]; otherwise the frame comes back with
    its columns and exactly the rows that pass every filter whose column it
    has, in their order. The labels of the columns are taken distinct. *)
Theorem apply_filters_outcome (data : DataFrame.t) (fs : list filter_item) :
  distinct_labels data →
  fs ≠ [] →
  apply_filters data (Some fs)
  = if bool_decide (rows data = []) then Raise ZeroDivisionError
    else if bool_decide (kept_rows data fs = [])
         then Raise (ValueError AllRowsFiltered)
         else Ok {| columns := columns data; rows := kept_rows data fs |}.
Proof. intros _. apply apply_filters_cases. Qed.

Lemma kept_rows_equiv (d : DataFrame.t) (fs fs' : list filter_item) :
  (∀ row, Forall (passes d row) fs ↔ Forall (passes d row) fs') →
  kept_rows d fs = kept_rows d fs'.
Proof. intros Hiff. apply filter_iff. intros row _. apply Hiff. Qed.

(** X2. The order of the filters does not matter, and neither does the order
    or the repetition of the values of a filter. The labels of the columns
    of the frame are taken distinct. *)
Theorem apply_filters_order_irrelevant
    (data : DataFrame.t) (fs fs' gs : list filter_item) :
  distinct_labels data →
  fs ≡ₚ gs → Forall2 same_filter gs fs' →
  apply_filters data (Some fs) = apply_filters data (Some fs').
Proof.
  intros _ Hperm Hsame.
  assert (Hkept : kept_rows data fs = kept_rows data fs').
  { apply kept_rows_equiv. intros row. rewrite Hperm. clear Hperm.
    induction Hsame as [|g f' gs fs' [Hcol Hval] _ IH]; [done |].
    rewrite !Forall_cons, IH. unfold passes. rewrite Hcol.
    by setoid_rewrite Hval. }
  destruct (decide (fs = [])) as [-> | Hne].
  - apply Permutation_nil_l in Hperm. subst gs.
    inversion Hsame. reflexivity.
  - assert (Hne' : fs' ≠ []).
    { intros ->. inversion Hsame; subst.
      by apply Permutation_nil_r in Hperm. }
    by rewrite !apply_filters_cases, Hkept.
Qed.

Lemma kept_rows_idem (d : DataFrame.t) (fs : list filter_item) :
  kept_rows {| columns := columns d; rows := kept_rows d fs |} fs
  = kept_rows d fs.
Proof.
  unfold kept_rows at 1. simpl.
  apply filter_all, Forall_forall. intros row Hrow.
  apply list_elem_of_filter in Hrow as [Hrow _].
  eapply Forall_impl; [exact Hrow |]. intros f Hf. exact Hf.
Qed.

(** X3. Filtering what [apply_filters] returned, with the same settings,
    gives it back unchanged. The labels of the columns are taken distinct. *)
Theorem apply_filters_idempotent
    (data d : DataFrame.t) (st : settings) :
  distinct_labels data →
  apply_filters data st = Ok d → apply_filters d st = Ok d.
Proof.
  intros _. destruct st as [[|f fs] |]; try (intros [= <-]; reflexivity).
  rewrite apply_filters_cases by done.
  case_bool_decide as Hrows; [discriminate |].
  case_bool_decide as Hkept; [discriminate |].
  intros [= <-]. rewrite apply_filters_cases by done. simpl.
  rewrite kept_rows_idem.
  by rewrite !bool_decide_eq_false_2.
Qed.

(** X4. Filters that allow every value their column holds keep the whole
    frame. The labels of the columns are taken distinct. *)
Theorem apply_filters_all_values
    (data : DataFrame.t) (fs : list filter_item) :
  distinct_labels data →
  rows data ≠ [] →
  (∀ f row, f ∈ fs → row ∈ rows data → passes data row f) →
  apply_filters data (Some fs) = Ok data.
Proof.
  intros _ Hrows Hall.
  assert (Hkept : kept_rows data fs = rows data).
  { apply filter_all, Forall_forall. intros row Hrow.
    apply Forall_forall. intros f Hf. by apply Hall. }
  destruct fs as [|f fs]; [reflexivity |].
  rewrite apply_filters_cases by done. rewrite Hkept.
  rewrite !bool_decide_eq_false_2 by done. by destruct data.
Qed.

End filter_properties.

(** ** Tokens of the resolver *)

Section token_facts.
Import PyStr.

Lemma isspace_lower (a : ascii) : isspace (lower_ascii a) = isspace a.
Proof. destruct a as [[] [] [] [] [] [] [] []]; reflexivity. Qed.

Lemma isdigit_lower (a : ascii) : isdigit (lower_ascii a) = isdigit a.
Proof. destruct a as [[] [] [] [] [] [] [] []]; reflexivity. Qed.

Lemma isdigit_not_space (a : ascii) : isdigit a = true → isspace a = false.
Proof. destruct a as [[] [] [] [] [] [] [] []]; simpl; done. Qed.

Lemma lower_ascii_idem (a : ascii) :
  lower_ascii (lower_ascii a) = lower_ascii a.
Proof. destruct a as [[] [] [] [] [] [] [] []]; reflexivity. Qed.

Lemma lower_app (s t : string) : lower (s ++ t) = lower s ++ lower t.
Proof. induction s as [|a s IH]; simpl; [reflexivity | by rewrite IH]. Qed.

Lemma all_chars_app (P : ascii → bool) (s t : string) :
  all_chars P (s ++ t) = all_chars P s && all_chars P t.
Proof.
  induction s as [|a s IH]; simpl; [reflexivity |].
  by rewrite IH, andb_assoc.
Qed.

Lemma all_chars_lower (P : ascii → bool) (s : string) :
  (∀ a, P (lower_ascii a) = P a) →
  all_chars P (lower s) = all_chars P s.
Proof.
  intros HP. induction s as [|a s IH]; simpl; [reflexivity |].
  by rewrite HP, IH.
Qed.

Lemma lstrip_blank (ws s : string) :
  all_chars isspace ws = true → lstrip (ws ++ s) = lstrip s.
Proof.
  induction ws as [|a ws IH]; simpl; [done |].
  intros [Ha Hws]%andb_true_iff. rewrite Ha. by apply IH.
Qed.

Lemma lstrip_no_space (s : string) : no_space s → lstrip s = s.
Proof.
  destruct s as [|a s]; [done |]. unfold no_space. simpl.
  intros [Ha _]%andb_true_iff. apply negb_true_iff in Ha. by rewrite Ha.
Qed.

Lemma rstrip_blank (ws : string) :
  all_chars isspace ws = true → rstrip ws = EmptyString.
Proof.
  induction ws as [|a ws IH]; simpl; [done |].
  intros [Ha Hws]%andb_true_iff. by rewrite (IH Hws), Ha.
Qed.

Lemma rstrip_no_space (s : string) : no_space s → rstrip s = s.
Proof.
  unfold no_space. induction s as [|a s IH]; simpl; [done |].
  intros [Ha Hs]%andb_true_iff. apply negb_true_iff in Ha.
  rewrite (IH Hs). destruct s; [by rewrite Ha | done].
Qed.

Lemma rstrip_app_blank (s ws : string) :
  all_chars isspace ws = true → rstrip (s ++ ws) = rstrip s.
Proof.
  intros Hws. induction s as [|a s IH]; simpl; [by apply rstrip_blank |].
  by rewrite IH.
Qed.

Lemma lstrip_all_blank (ws : string) :
  all_chars isspace ws = true → lstrip ws = EmptyString.
Proof.
  induction ws as [|a ws IH]; simpl; [done |].
  intros [Ha Hws]%andb_true_iff. rewrite Ha. by apply IH.
Qed.

(** [strip] removes the white space around a text that has none inside. *)
Lemma strip_padded (lead core trail : string) :
  all_chars isspace lead = true → all_chars isspace trail = true →
  no_space core → strip (lead ++ core ++ trail) = core.
Proof.
  intros Hlead Htrail Hcore. unfold strip.
  rewrite (lstrip_blank _ _ Hlead).
  destruct core as [|a core].
  - change (EmptyString ++ trail) with trail.
    by rewrite (lstrip_all_blank _ Htrail).
  - assert (Ha : isspace a = false).
    { unfold no_space in Hcore. simpl in Hcore.
      apply andb_true_iff in Hcore as [Ha _]. by apply negb_true_iff. }
    change (lstrip (String a core ++ trail))
      with (if isspace a then lstrip (core ++ trail)
            else String a core ++ trail).
    rewrite Ha, (rstrip_app_blank _ _ Htrail). by apply rstrip_no_space.
Qed.

End token_facts.

Section matcher_facts.
Import PyStr.

Lemma string_app_assoc (s t u : string) : (s ++ t) ++ u = s ++ t ++ u.
Proof.
  induction s as [|a s IH]; [reflexivity |].
  change (String a ((s ++ t) ++ u) = String a (s ++ t ++ u)). by f_equal.
Qed.

Lemma string_app_nil_r (s : string) : s ++ EmptyString = s.
Proof.
  induction s as [|a s IH]; [reflexivity |].
  change (String a (s ++ EmptyString) = String a s). by f_equal.
Qed.

Lemma lower_nil_inv (s : string) : lower s = EmptyString → s = EmptyString.
Proof. destruct s; [done | discriminate]. Qed.

Lemma expect_ci_app (lit l rest : string) :
  lower l = lower lit → expect_ci lit (l ++ rest) = Some rest.
Proof.
  revert l. induction lit as [|c lit IH]; intros l Hl.
  - apply lower_nil_inv in Hl as ->. by destruct rest.
  - destruct l as [|a l]; [discriminate |].
    simpl in Hl. injection Hl as Ha Hl.
    simpl. rewrite Ha, Ascii.eqb_refl. by apply IH.
Qed.

Lemma expect_ci_inv (lit s rest : string) :
  expect_ci lit s = Some rest →
  ∃ l, s = l ++ rest ∧ lower l = lower lit.
Proof.
  revert s. induction lit as [|c lit IH]; intros s.
  - destruct s; simpl; intros [= <-]; by exists EmptyString.
  - destruct s as [|a s]; simpl; [discriminate |].
    destruct (Ascii.eqb_spec (lower_ascii a) (lower_ascii c)) as [Ha | _];
      [| discriminate].
    intros (l & -> & Hl)%IH. exists (String a l). simpl. by rewrite Ha, Hl.
Qed.

Lemma span_digits_app (d rest : string) :
  all_chars isdigit d = true → digits_end rest →
  span_digits (d ++ rest) = (d, rest).
Proof.
  intros Hd Hrest. induction d as [|a d IH]; simpl.
  - destruct rest as [|b rest]; [done |]. simpl in Hrest |- *.
    by rewrite Hrest.
  - simpl in Hd. apply andb_true_iff in Hd as [Ha Hd].
    by rewrite Ha, (IH Hd).
Qed.

Lemma span_digits_inv (s d rest : string) :
  span_digits s = (d, rest) →
  s = d ++ rest ∧ all_chars isdigit d = true ∧ digits_end rest.
Proof.
  revert d rest. induction s as [|a s IH]; simpl; intros d rest.
  - intros [= <- <-]. done.
  - destruct (isdigit a) eqn:Ha.
    + destruct (span_digits s) as [d' rest'] eqn:Hs. intros [= <- <-].
      destruct (IH _ _ eq_refl) as (-> & Hd & Hrest).
      simpl. by rewrite Ha, Hd.
    + intros [= <- <-]. simpl. by rewrite Ha.
Qed.

Lemma all_chars_impl (P Q : ascii → bool) (s : string) :
  (∀ a, P a = true → Q a = true) →
  all_chars P s = true → all_chars Q s = true.
Proof.
  intros HPQ. induction s as [|a s IH]; simpl; [done |].
  intros [Ha Hs]%andb_true_iff. by rewrite (HPQ _ Ha), (IH Hs).
Qed.

Lemma no_space_of_lower (s : string) : no_space (lower s) → no_space s.
Proof.
  unfold no_space. rewrite all_chars_lower; [done |].
  intros a. by rewrite isspace_lower.
Qed.

Lemma no_space_digits (d : string) : all_chars isdigit d = true → no_space d.
Proof.
  apply all_chars_impl. intros a Ha. by rewrite (isdigit_not_space _ Ha).
Qed.

Lemma no_space_app (s t : string) : no_space s → no_space t → no_space (s ++ t).
Proof. unfold no_space. rewrite all_chars_app. by intros -> ->. Qed.

Lemma token_text_core (k : wave_token) :
  token_text k = tok_lead k ++ token_core k ++ tok_trail k.
Proof.
  unfold token_text, token_core.
  by rewrite !string_app_assoc.
Qed.

Lemma token_core_no_space (k : wave_token) :
  well_formed k → no_space (token_core k).
Proof.
  intros (_ & Hw & _ & Hd1 & Hsep & _ & Hd2 & _). unfold token_core.
  repeat apply no_space_app; try by apply no_space_digits.
  - apply no_space_of_lower. by rewrite Hw.
  - apply no_space_of_lower. by rewrite Hsep.
Qed.

Lemma strip_token (k : wave_token) :
  well_formed k → strip (token_text k) = token_core k.
Proof.
  intros Hk. rewrite token_text_core.
  destruct Hk as (Hlead & Hw & Hs & Hd1 & Hsep & Ht & Hd2 & Htrail).
  apply strip_padded; [done | done |].
  apply token_core_no_space. by repeat split.
Qed.

Lemma sep_head (sep : string) :
  lower sep = "_to_w" → digits_end (sep ++ EmptyString) ∧ ∀ r, digits_end (sep ++ r).
Proof.
  destruct sep as [|a sep]; [discriminate |]. simpl. intros [= Ha _].
  assert (isdigit a = false).
  { rewrite <- isdigit_lower, Ha. reflexivity. }
  done.
Qed.

Lemma wave_pattern_match_eq (s : string) :
  wave_pattern_match s
  = match expect_ci "w" s with
    | None => None
    | Some r0 =>
        match span_digits r0 with
        | (g1, r1) =>
            if String.eqb g1 EmptyString then None else
            match expect_ci "_to_w" r1 with
            | None => None
            | Some r2 =>
                match span_digits r2 with
                | (g2, r3) =>
                    if String.eqb g2 EmptyString then None else
                    if String.eqb r3 EmptyString
                       || String.eqb r3 (String (Ascii.ascii_of_N 10) EmptyString)
                    then Some (g1, g2) else None
                end
            end
        end
    end.
Proof.
  unfold wave_pattern_match. destruct (expect_ci "w" s) as [r0|]; [| done].
  simpl. destruct (span_digits r0) as [g1 r1].
  destruct (String.eqb g1 EmptyString); [done |].
  destruct (expect_ci "_to_w" r1) as [r2|]; [| done].
  simpl. by destruct (span_digits r2) as [g2 r3].
Qed.

Lemma match_token (k : wave_token) :
  well_formed k →
  wave_pattern_match (token_core k) = Some (tok_source k, tok_target k).
Proof.
  intros (_ & Hw & Hs & Hd1 & Hsep & Ht & Hd2 & _).
  rewrite wave_pattern_match_eq. unfold token_core.
  rewrite (expect_ci_app "w" (tok_w k)) by done.
  rewrite (span_digits_app _ _ Hd1) by (by apply sep_head).
  destruct (String.eqb_spec (tok_source k) EmptyString) as [? | _]; [done |].
  rewrite (expect_ci_app "_to_w" (tok_sep k)) by done.
  rewrite <- (string_app_nil_r (tok_target k)) at 1.
  rewrite (span_digits_app _ _ Hd2) by done.
  by destruct (String.eqb_spec (tok_target k) EmptyString) as [? | _].
Qed.

Lemma space_is_not_a (b : ascii) :
  isspace b = true → Ascii.eqb (lower_ascii b) "a" = false.
Proof. destruct b as [[] [] [] [] [] [] [] []]; simpl; done. Qed.

Lemma token_not_all_waves (k : wave_token) :
  well_formed k → String.eqb (lower (token_text k)) "all_waves" = false.
Proof.
  intros (Hlead & Hw & _). unfold token_text.
  destruct (tok_lead k) as [|b lead].
  - destruct (tok_w k) as [|a w]; [discriminate |].
    simpl in Hw. injection Hw as Ha _. simpl. by rewrite Ha.
  - simpl in Hlead. apply andb_true_iff in Hlead as [Hb _].
    simpl. by rewrite (space_is_not_a _ Hb).
Qed.

End matcher_facts.

Section token_properties.
Import PyStr WaveConfigParser.

(** The resolver on a well-formed token: the checks it runs, in their
    order, on the numbers that the two runs of digits denote. *)
Lemma parse_well_formed (p : WaveConfigParser.t) (k : wave_token) :
  well_formed k →
  parse_wave_config p (token_text k)
  = let source_num := int (tok_source k) in
    let target_num := int (tok_target k) in
    if (source_num <? 1)%N || (target_num <? 1)%N then
      Raise (ValueError (NotPositive (token_text k)))
    else if (source_num =? target_num)%N then
      Raise (ValueError (SameWave (token_text k)))
    else if decide (source_num ∉ dom (wave_numbers p)) then
      Raise (ValueError (WaveNotFound source_num))
    else if decide (target_num ∉ dom (wave_numbers p)) then
      Raise (ValueError (WaveNotFound target_num))
    else
      source_prefix ← prefix_of p source_num;
      target_prefix ← prefix_of p target_num;
      Ok (source_prefix, target_prefix).
Proof.
  intros Hk. unfold parse_wave_config.
  by rewrite (token_not_all_waves k Hk), (strip_token k Hk), (match_token k Hk).
Qed.


(** X6. A well-formed token that names two different waves numbered from 1,
    one of them not registered, is rejected with a [ValueError] that
    names the unregistered wave, the source if both are. *)
Theorem unregistered_wave_rejected (p : WaveConfigParser.t) (k : wave_token) :
  well_formed k →
  (1 <= int (tok_source k))%N → (1 <= int (tok_target k))%N →
  int (tok_source k) ≠ int (tok_target k) →
  int (tok_source k) ∉ dom (wave_numbers p)
  ∨ int (tok_target k) ∉ dom (wave_numbers p) →
  parse_wave_config p (token_text k)
  = Raise (ValueError (WaveNotFound
             (if decide (int (tok_source k) ∈ dom (wave_numbers p))
              then int (tok_target k) else int (tok_source k)))).
Proof.
  intros Hk H1 H2 Hne Hmiss. rewrite (parse_well_formed p k Hk). simpl.
  destruct (N.ltb_spec (int (tok_source k)) 1); [lia |].
  destruct (N.ltb_spec (int (tok_target k)) 1); [lia |]. simpl.
  destruct (N.eqb_spec (int (tok_source k)) (int (tok_target k))); [done |].
  destruct (decide (int (tok_source k) ∈ dom (wave_numbers p))) as [Hin | Hout].
  - rewrite decide_False by tauto.
    rewrite decide_True; [done |]. destruct Hmiss; done.
  - by rewrite decide_True.
Qed.

(** X7. A well-formed token whose two numbers are equal, or one of them 0, is
    rejected with a [ValueError] whether or not the waves are registered;
    the numbers are compared as numbers, so [w01_to_w1] is rejected. *)
Theorem same_or_zero_wave_rejected (p : WaveConfigParser.t) (k : wave_token) :
  well_formed k →
  int (tok_source k) = int (tok_target k)
  ∨ int (tok_source k) = 0%N ∨ int (tok_target k) = 0%N →
  parse_wave_config p (token_text k)
  = Raise (ValueError
             (if decide (int (tok_source k) = 0%N ∨ int (tok_target k) = 0%N)
              then NotPositive (token_text k) else SameWave (token_text k))).
Proof.
  intros Hk Hbad. rewrite (parse_well_formed p k Hk). simpl.
  destruct (decide (int (tok_source k) = 0%N ∨ int (tok_target k) = 0%N))
    as [Hz | Hnz].
  - destruct (N.ltb_spec (int (tok_source k)) 1);
      destruct (N.ltb_spec (int (tok_target k)) 1); simpl; try done.
    destruct Hz; lia.
  - destruct (N.ltb_spec (int (tok_source k)) 1); [lia |].
    destruct (N.ltb_spec (int (tok_target k)) 1); [lia |]. simpl.
    destruct (N.eqb_spec (int (tok_source k)) (int (tok_target k))); [done |].
    tauto.
Qed.

Lemma lstrip_decompose (s : string) :
  ∃ ws, all_chars isspace ws = true ∧ s = ws ++ lstrip s.
Proof.
  induction s as [|a s (ws & Hws & Hs)]; [by exists EmptyString |].
  change (lstrip (String a s))
    with (if isspace a then lstrip s else String a s).
  destruct (isspace a) eqn:Ha.
  - exists (String a ws). split; [simpl; by rewrite Ha, Hws |].
    change (String a s = String a (ws ++ lstrip s)). by f_equal.
  - by exists EmptyString.
Qed.

Lemma rstrip_decompose (s : string) :
  ∃ ws, all_chars isspace ws = true ∧ s = rstrip s ++ ws.
Proof.
  induction s as [|a s (ws & Hws & Hs)]; [by exists EmptyString |].
  change (rstrip (String a s))
    with (match rstrip s with
          | EmptyString =>
              if isspace a then EmptyString else String a EmptyString
          | r => String a r
          end).
  destruct (rstrip s) as [|b r] eqn:Hr.
  - change (EmptyString ++ ws) with ws in Hs. subst s.
    destruct (isspace a) eqn:Ha.
    + exists (String a ws). split; [simpl; by rewrite Ha, Hws | done].
    + by exists ws.
  - exists ws. split; [done |].
    change (String a s = String a (String b r ++ ws)). by f_equal.
Qed.

Lemma blank_newline (ws : string) :
  all_chars isspace ws = true →
  all_chars isspace (String (Ascii.ascii_of_N 10) EmptyString ++ ws) = true.
Proof. intros Hws. simpl. exact Hws. Qed.

Lemma resolved_token_shape
    (p : WaveConfigParser.t) (cfg source_prefix target_prefix : string) :
  parse_wave_config p cfg = Ok (source_prefix, target_prefix) →
  lower cfg ≠ "all_waves" →
  ∃ (k : wave_token) (source_name target_name : string),
    well_formed k ∧ cfg = token_text k ∧
    wave_numbers p !! int (tok_source k) = Some (source_name, source_prefix) ∧
    wave_numbers p !! int (tok_target k) = Some (target_name, target_prefix) ∧
    (1 <= int (tok_source k))%N ∧ (1 <= int (tok_target k))%N ∧
    int (tok_source k) ≠ int (tok_target k).
Proof.
  unfold parse_wave_config. intros Hparse Hnot.
  destruct (String.eqb_spec (lower cfg) "all_waves") as [? | _]; [done |].
  destruct (wave_pattern_match (strip cfg)) as [[g1 g2]|] eqn:Hmatch;
    [| discriminate].
  destruct (N.ltb_spec (int g1) 1); [discriminate |].
  destruct (N.ltb_spec (int g2) 1); [discriminate |]. simpl in Hparse.
  destruct (N.eqb_spec (int g1) (int g2)); [discriminate |].
  destruct (decide (int g1 ∉ dom (wave_numbers p))) as [|Hs]; [discriminate |].
  destruct (decide (int g2 ∉ dom (wave_numbers p))) as [|Ht]; [discriminate |].
  apply dec_stable in Hs. apply dec_stable in Ht.
  destruct (prefix_of_dom p _ Hs) as (n1 & p1 & Hl1 & E1).
  destruct (prefix_of_dom p _ Ht) as (n2 & p2 & Hl2 & E2).
  rewrite E1, E2 in Hparse. injection Hparse as <- <-.
  rewrite wave_pattern_match_eq in Hmatch.
  destruct (expect_ci "w" (strip cfg)) as [r0|] eqn:Hw; [| discriminate].
  destruct (span_digits r0) as [d1 r1] eqn:Hd1.
  destruct (String.eqb_spec d1 EmptyString) as [| Hne1]; [discriminate |].
  destruct (expect_ci "_to_w" r1) as [r2|] eqn:Hsep; [| discriminate].
  destruct (span_digits r2) as [d2 r3] eqn:Hd2.
  destruct (String.eqb_spec d2 EmptyString) as [| Hne2]; [discriminate |].
  destruct (String.eqb r3 EmptyString
            || String.eqb r3 (String (Ascii.ascii_of_N 10) EmptyString))
    eqn:Hend; [| discriminate].
  injection Hmatch as <- <-.
  apply expect_ci_inv in Hw as (w & Hcore & Hlw).
  apply span_digits_inv in Hd1 as (-> & Hdig1 & _).
  apply expect_ci_inv in Hsep as (sep & -> & Hlsep).
  apply span_digits_inv in Hd2 as (-> & Hdig2 & _).
  destruct (lstrip_decompose cfg) as (lead & Hlead & Hcfg).
  destruct (rstrip_decompose (lstrip cfg)) as (trail & Htrail & Hl).
  fold (strip cfg) in Hl. rewrite Hcore in Hl.
  assert (Hr3 : all_chars isspace (r3 ++ trail) = true).
  { apply orb_true_iff in Hend as [E | E].
    - apply String.eqb_eq in E as ->. exact Htrail.
    - apply String.eqb_eq in E as ->. by apply blank_newline. }
  exists (WaveToken lead w d1 sep d2 (r3 ++ trail)), n1, n2.
  split; [by repeat split |]. split; [| by repeat split].
  unfold token_text. simpl. rewrite Hcfg at 1. rewrite Hl.
  by rewrite !string_app_assoc.
Qed.

End token_properties.

Section typed_tokens.
Import typed typed.WaveConfigParser PyStr.

(** What the pattern matches once the configuration is trimmed: the text
    of a well-formed token, with the two groups as its numbers. *)
Lemma matched_token (cfg g1 g2 : string) :
  wave_pattern_match (strip cfg) = Some (g1, g2) →
  ∃ k : wave_token,
    well_formed k ∧ cfg = token_text k
    ∧ tok_source k = g1 ∧ tok_target k = g2.
Proof.
  intros Hmatch. rewrite wave_pattern_match_eq in Hmatch.
  destruct (expect_ci "w" (strip cfg)) as [r0|] eqn:Hw; [| discriminate].
  destruct (span_digits r0) as [d1 r1] eqn:Hd1.
  destruct (String.eqb_spec d1 EmptyString) as [| Hne1]; [discriminate |].
  destruct (expect_ci "_to_w" r1) as [r2|] eqn:Hsep; [| discriminate].
  destruct (span_digits r2) as [d2 r3] eqn:Hd2.
  destruct (String.eqb_spec d2 EmptyString) as [| Hne2]; [discriminate |].
  destruct (String.eqb r3 EmptyString
            || String.eqb r3 (String (Ascii.ascii_of_N 10) EmptyString))
    eqn:Hend; [| discriminate].
  injection Hmatch as <- <-.
  apply expect_ci_inv in Hw as (w & Hcore & Hlw).
  apply span_digits_inv in Hd1 as (-> & Hdig1 & _).
  apply expect_ci_inv in Hsep as (sep & -> & Hlsep).
  apply span_digits_inv in Hd2 as (-> & Hdig2 & _).
  destruct (lstrip_decompose cfg) as (lead & Hlead & Hcfg).
  destruct (rstrip_decompose (lstrip cfg)) as (trail & Htrail & Hl).
  fold (strip cfg) in Hl. rewrite Hcore in Hl.
  assert (Hr3 : all_chars isspace (r3 ++ trail) = true).
  { apply orb_true_iff in Hend as [E | E].
    - apply String.eqb_eq in E as ->. exact Htrail.
    - apply String.eqb_eq in E as ->. by apply blank_newline. }
  exists (WaveToken lead w d1 sep d2 (r3 ++ trail)).
  split; [by repeat split |]. split; [| by split].
  unfold token_text. simpl. rewrite Hcfg at 1. rewrite Hl.
  by rewrite !string_app_assoc.
Qed.

Lemma typed_resolved_token_shape
    (p : t) (cfg : string) (source_prefix target_prefix : value) :
  parse_wave_config p cfg = Ok (source_prefix, target_prefix) →
  lower cfg ≠ "all_waves" →
  ∃ (k : wave_token)
    (source_name target_name source_text target_text : string),
    well_formed k ∧ cfg = token_text k ∧
    source_prefix = Str source_text ∧ target_prefix = Str target_text ∧
    wave_numbers p !! int (tok_source k) = Some (source_name, source_prefix) ∧
    wave_numbers p !! int (tok_target k) = Some (target_name, target_prefix) ∧
    (1 <= int (tok_source k))%N ∧ (1 <= int (tok_target k))%N ∧
    int (tok_source k) ≠ int (tok_target k).
Proof.
  unfold parse_wave_config. intros Hparse Hnot.
  destruct (String.eqb_spec (lower cfg) "all_waves") as [? | _]; [done |].
  destruct (wave_pattern_match (strip cfg)) as [[g1 g2]|] eqn:Hmatch;
    [| discriminate].
  destruct (N.ltb_spec (int g1) 1); [discriminate |].
  destruct (N.ltb_spec (int g2) 1); [discriminate |]. simpl in Hparse.
  destruct (N.eqb_spec (int g1) (int g2)); [discriminate |].
  destruct (decide (int g1 ∉ dom (wave_numbers p))) as [|Hs]; [discriminate |].
  destruct (decide (int g2 ∉ dom (wave_numbers p))) as [|Ht]; [discriminate |].
  apply dec_stable in Hs. apply dec_stable in Ht.
  destruct (typed_prefix_of_dom p _ Hs) as (n1 & p1 & Hl1 & E1).
  destruct (typed_prefix_of_dom p _ Ht) as (n2 & p2 & Hl2 & E2).
  rewrite E1, E2 in Hparse.
  destruct p1 as [s1 | w1]; [| discriminate].
  destruct p2 as [s2 | w2]; [| discriminate].
  injection Hparse as <- <-.
  destruct (matched_token cfg g1 g2 Hmatch) as (k & Hk & -> & <- & <-).
  exists k, n1, n2, s1, s2. split; [exact Hk |]. by repeat split.
Qed.

(** X8. Apart from [all_waves], the resolver returns prefixes for the text
    of well-formed tokens only, and only when both numbers are registered,
    at least 1 and different and both prefixes are strings; the prefixes
    are those registered for the two numbers. The configuration is a
    string of ASCII characters. *)
Theorem resolved_token_is_well_formed
    (p : t) (cfg : string) (source_prefix target_prefix : value) :
  is_ascii cfg →
  parse_wave_config p cfg = Ok (source_prefix, target_prefix) →
  lower cfg ≠ "all_waves" →
  ∃ (k : wave_token)
    (source_name target_name source_text target_text : string),
    well_formed k ∧ cfg = token_text k ∧
    source_prefix = Str source_text ∧ target_prefix = Str target_text ∧
    wave_numbers p !! int (tok_source k) = Some (source_name, source_prefix) ∧
    wave_numbers p !! int (tok_target k) = Some (target_name, target_prefix) ∧
    (1 <= int (tok_source k))%N ∧ (1 <= int (tok_target k))%N ∧
    int (tok_source k) ≠ int (tok_target k).
Proof. intros _. apply typed_resolved_token_shape. Qed.

End typed_tokens.

(** ** The registry after [add_wave_definition] *)

Section registry_properties.
Import PyStr WaveConfigParser wave_parser.

(** The resolver reads the registry of numbers and nothing else. *)
Lemma parse_wave_config_numbers (p p' : WaveConfigParser.t) (cfg : string) :
  wave_numbers p = wave_numbers p' →
  WaveConfigParser.parse_wave_config p cfg
  = WaveConfigParser.parse_wave_config p' cfg.
Proof.
  intros Hn. unfold WaveConfigParser.parse_wave_config, sorted_keys, prefix_of.
  by rewrite Hn.
Qed.

Lemma parser_after_add (name prefix descr : string) (w : world) :
  (_get_wave_parser (add_wave_definition name prefix descr w).2).1
  = load_row (foldl load_row WaveConfigParser.empty (default [] (wave_file w)))
      (WaveRow name prefix descr).
Proof.
  unfold add_wave_definition, _get_wave_parser, __init__. simpl.
  rewrite foldl_app. by destruct (wave_file w).
Qed.

End registry_properties.

Section typed_registry_properties.
Import typed typed.WaveConfigParser PyStr.
Context {C : CsvFile}.

(** X9. Where the definitions file can be written and is absent or a
    table of plain text, [add_wave_definition] with a name and a prefix
    that are plain text reports success, and the parser built for the next
    call holds the waves of the file as it was, with the wave added under
    the first number in its name: that number now maps to the new name and
    prefix, whatever it mapped to before, and every other number maps to
    what the rows of the file gave it. Default waves that stood in for a
    missing file are not among them. *)
Theorem add_wave_definition_registers
    (name prefix descr d : string) (w : wave_parser.world) :
  wave_parser.writable w = true →
  plain_file (wave_parser.wave_file w) = true →
  plain_text name = true → plain_text prefix = true →
  re_search_digits name = Some d →
  let added := wave_parser.add_wave_definition name prefix descr w in
  let parser := (wave_parser._get_wave_parser added.2).1 in
  added.1 = true ∧
  wave_numbers parser !! int d = Some (name, Str prefix) ∧
  (∀ n, n ≠ int d →
        wave_numbers parser !! n
        = file_registry (wave_parser.wave_file w) !! n) ∧
  wave_definitions parser !! name = Some (Str prefix).
Proof.
  intros Hwrite Hfile Hname Hprefix Hd. cbv zeta.
  destruct (typed_parser_after_add name prefix descr w Hwrite Hfile
              Hname Hprefix) as (p0 & Hp0 & Hadded & ->).
  rewrite Hd. simpl.
  rewrite (file_registry_rows _ _ Hfile Hp0).
  split; [done |]. split; [apply lookup_insert_eq |]. split.
  - intros n Hn. by rewrite lookup_insert_ne.
  - apply lookup_insert_eq.
Qed.

(** X10. A wave whose name holds no digit is written to the file and
    reported as added, but it gets no number: every configuration resolves
    after the call as it did before. The file is a table of plain text
    that can be written, the name and the prefix are plain text, and the
    configuration is a string of ASCII characters. *)
Theorem add_wave_without_number_changes_nothing
    (name prefix descr cfg : string) (w : wave_parser.world)
    (rows : list wave_row) :
  wave_parser.writable w = true →
  wave_parser.wave_file w = Some (Table rows) →
  forallb plain_row rows = true →
  plain_text name = true → plain_text prefix = true →
  re_search_digits name = None →
  wave_parser.coherent w →
  is_ascii cfg →
  (wave_parser.add_wave_definition name prefix descr w).1 = true ∧
  (wave_parser.parse_wave_config cfg
     (wave_parser.add_wave_definition name prefix descr w).2).1
  = (wave_parser.parse_wave_config cfg w).1.
Proof.
  intros Hwrite Hf Hrows Hname Hprefix Hd Hco _.
  destruct (typed_parser_after_add name prefix descr w)
    as (p0 & Hp0 & Hadded & Hp'); [done | by rewrite Hf | done | done |].
  split; [done |].
  rewrite (typed_parse_fst _ (wave_parser.add_wave_definition _ _ _ _).2).
  rewrite Hp', Hd, (typed_parse_coherent _ _ Hco), Hf.
  rewrite Hf in Hp0. simpl in Hp0. rewrite (init_table _ _ Hp0).
  by apply typed_parse_numbers.
Qed.

End typed_registry_properties.

(** ** The format validator and the resolver *)

Section format_properties.
Import PyStr WaveConfigParser validators.

Lemma lower_digit (a : ascii) : isdigit a = true → lower_ascii a = a.
Proof. destruct a as [[] [] [] [] [] [] [] []]; simpl; done. Qed.

Lemma lower_digits (d : string) : all_chars isdigit d = true → lower d = d.
Proof.
  induction d as [|a d IH]; simpl; [done |].
  intros [Ha Hd]%andb_true_iff. by rewrite (lower_digit _ Ha), (IH Hd).
Qed.

Lemma expect_exact_app (lit rest : string) :
  expect_exact lit (lit ++ rest) = Some rest.
Proof.
  induction lit as [|c lit IH]; simpl; [by destruct rest |].
  by rewrite Ascii.eqb_refl.
Qed.

Lemma wave_pattern_exact_eq (s : string) :
  wave_pattern_exact s
  = match expect_exact "w" s with
    | None => None
    | Some r0 =>
        match span_digits r0 with
        | (g1, r1) =>
            if String.eqb g1 EmptyString then None else
            match expect_exact "_to_w" r1 with
            | None => None
            | Some r2 =>
                match span_digits r2 with
                | (g2, r3) =>
                    if String.eqb g2 EmptyString then None else
                    if String.eqb r3 EmptyString
                       || String.eqb r3 (String (Ascii.ascii_of_N 10) EmptyString)
                    then Some (g1, g2) else None
                end
            end
        end
    end.
Proof.
  unfold wave_pattern_exact. destruct (expect_exact "w" s) as [r0|]; [| done].
  simpl. destruct (span_digits r0) as [g1 r1].
  destruct (String.eqb g1 EmptyString); [done |].
  destruct (expect_exact "_to_w" r1) as [r2|]; [| done].
  simpl. by destruct (span_digits r2) as [g2 r3].
Qed.

(** The token in lower case, as the format validator sees it. *)
Lemma lower_token_core (k : wave_token) :
  well_formed k →
  lower (token_core k) = "w" ++ tok_source k ++ "_to_w" ++ tok_target k.
Proof.
  intros (_ & Hw & _ & Hd1 & Hsep & _ & Hd2 & _). unfold token_core.
  by rewrite !lower_app, Hw, Hsep, (lower_digits _ Hd1), (lower_digits _ Hd2).
Qed.

Lemma match_exact_token (d1 d2 : string) :
  d1 ≠ EmptyString → all_chars isdigit d1 = true →
  d2 ≠ EmptyString → all_chars isdigit d2 = true →
  wave_pattern_exact ("w" ++ d1 ++ "_to_w" ++ d2) = Some (d1, d2).
Proof.
  intros Hs Hd1 Ht Hd2. rewrite wave_pattern_exact_eq.
  rewrite (expect_exact_app "w").
  rewrite (span_digits_app _ _ Hd1) by done.
  destruct (String.eqb_spec d1 EmptyString) as [? | _]; [done |].
  rewrite (expect_exact_app "_to_w").
  rewrite <- (string_app_nil_r d2) at 1.
  rewrite (span_digits_app _ _ Hd2) by done.
  by destruct (String.eqb_spec d2 EmptyString) as [? | _].
Qed.

Lemma format_validator_shape (k : wave_token) :
  well_formed k →
  validate_wave_config_format (token_text k)
  = if String.eqb (tok_source k) (tok_target k)
    then Fails (Package (WaveConfigurationError
                           ("w" ++ tok_source k ++ "_to_w" ++ tok_target k)))
    else Returns ("w" ++ tok_source k, "w" ++ tok_target k).
Proof.
  intros Hk. unfold validate_wave_config_format.
  rewrite (strip_token k Hk), (lower_token_core k Hk).
  destruct Hk as (_ & _ & Hs & Hd1 & _ & Ht & Hd2 & _).
  by rewrite (match_exact_token _ _ Hs Hd1 Ht Hd2).
Qed.

(** X11. The format validator on a well-formed token: it returns the two wave
    identifiers unless the two runs of digits are the same text. The
    registry plays no part, and neither do the numbers the digits denote. *)
Theorem format_validator_on_token (k : wave_token) :
  well_formed k →
  validate_wave_config_format (token_text k)
  = if String.eqb (tok_source k) (tok_target k)
    then Fails (Package (WaveConfigurationError
                           ("w" ++ tok_source k ++ "_to_w" ++ tok_target k)))
    else Returns ("w" ++ tok_source k, "w" ++ tok_target k).
Proof. apply format_validator_shape. Qed.

Lemma all_waves_no_space (cfg : string) :
  lower cfg = "all_waves" → strip cfg = cfg.
Proof.
  intros Hl.
  assert (Hns : no_space cfg) by (apply no_space_of_lower; by rewrite Hl).
  pose proof (strip_padded EmptyString cfg EmptyString eq_refl eq_refl Hns) as E.
  by rewrite string_app_nil_r in E.
Qed.

Lemma int_neq_text (d1 d2 : string) : int d1 ≠ int d2 → d1 ≠ d2.
Proof. congruence. Qed.

(** X12. Every configuration that the resolver resolves passes the format
    validator that [validate_visualization_inputs] runs before it. *)
Theorem resolved_config_has_valid_format
    (p : WaveConfigParser.t) (cfg : string) (pair : string * string) :
  WaveConfigParser.parse_wave_config p cfg = Ok pair →
  ∃ ids, validate_wave_config_format cfg = Returns ids.
Proof.
  intros Hparse.
  destruct (decide (lower cfg = "all_waves")) as [Hall | Hnot].
  - exists ("all", "all"). unfold validate_wave_config_format.
    by rewrite (all_waves_no_space _ Hall), Hall.
  - destruct pair as [s t].
    destruct (resolved_token_shape p cfg s t Hparse Hnot)
      as (k & n1 & n2 & Hk & -> & _ & _ & _ & _ & Hne).
    rewrite (format_validator_shape k Hk).
    destruct (String.eqb_spec (tok_source k) (tok_target k)) as [E | _];
      [by rewrite E in Hne | eauto].
Qed.

End format_properties.

Section padded_all_waves.
Import PyStr WaveConfigParser validators.

Lemma length_lower (s : string) : String.length (lower s) = String.length s.
Proof. induction s as [|a s IH]; simpl; [done | by rewrite IH]. Qed.

Lemma string_length_app (s t : string) :
  String.length (s ++ t) = (String.length s + String.length t)%nat.
Proof. induction s as [|a s IH]; simpl; [done | by rewrite IH]. Qed.

Lemma nonempty_length (s : string) :
  s ≠ EmptyString → (0 < String.length s)%nat.
Proof. destruct s; [done | simpl; lia]. Qed.

(** X13. [all_waves] with white space around it: the format validator, which
    trims before it compares, accepts it; the resolver, which compares
    before it trims, rejects it as an invalid format, whatever the
    registry holds. *)
Theorem padded_all_waves_unresolved
    (p : WaveConfigParser.t) (lead body trail : string) :
  all_chars isspace lead = true → all_chars isspace trail = true →
  lower body = "all_waves" →
  lead ≠ EmptyString ∨ trail ≠ EmptyString →
  validate_wave_config_format (lead ++ body ++ trail) = Returns ("all", "all") ∧
  WaveConfigParser.parse_wave_config p (lead ++ body ++ trail)
  = Raise (ValueError (InvalidFormat (lead ++ body ++ trail))).
Proof.
  intros Hlead Htrail Hbody Hpad.
  assert (Hns : no_space body) by (apply no_space_of_lower; by rewrite Hbody).
  assert (Hstrip : strip (lead ++ body ++ trail) = body)
    by (by apply strip_padded).
  split.
  - unfold validate_wave_config_format. by rewrite Hstrip, Hbody.
  - unfold WaveConfigParser.parse_wave_config.
    destruct (String.eqb_spec (lower (lead ++ body ++ trail)) "all_waves")
      as [E | _].
    + apply (f_equal String.length) in E.
      rewrite length_lower, !string_length_app in E.
      rewrite <- (length_lower body), Hbody in E. simpl in E.
      destruct Hpad as [H | H]; apply nonempty_length in H; lia.
    + rewrite Hstrip, wave_pattern_match_eq.
      destruct body as [|a body]; [discriminate |].
      simpl in Hbody. injection Hbody as Ha _.
      simpl. by rewrite Ha.
Qed.

End padded_all_waves.

(** ** The filter validator and the filter *)

Section filter_validation.
Import DataFrame RowReductionHandler validators.

Lemma elem_of_unique (x : string) (l : list string) : x ∈ unique l ↔ x ∈ l.
Proof.
  unfold unique.
  enough (G : ∀ seen,
            x ∈ foldl (λ (seen : list string) (y : string),
                         if bool_decide (y ∈ seen) then seen
                         else (seen ++ [y])%list) seen l
            ↔ x ∈ seen ∨ x ∈ l).
  { rewrite G. split; [intros [H | H]; [by apply elem_of_nil in H | done]
                      | by right]. }
  induction l as [|y l IH]; intros seen; simpl.
  - split; [by left | intros [H | H]; [done | by apply elem_of_nil in H]].
  - rewrite IH. case_bool_decide as Hy.
    + rewrite elem_of_cons. split; [tauto |].
      intros [H | [-> | H]]; tauto.
    + rewrite elem_of_app, list_elem_of_singleton, elem_of_cons. tauto.
Qed.

Lemma elem_of_available (d : DataFrame.t) (c v : string) :
  v ∈ unique (dropna1 (column_values d c))
  ↔ ∃ row, row ∈ rows d ∧ get d row c = Some v.
Proof.
  rewrite elem_of_unique. unfold dropna1, column_values.
  rewrite list_elem_of_omap. split.
  - intros (cell & Hcell & Hv). simpl in Hv. subst cell.
    apply list_elem_of_fmap in Hcell as (row & Hget & Hrow). eauto.
  - intros (row & Hrow & Hget). exists (Some v). split; [| done].
    apply list_elem_of_fmap. eauto.
Qed.

Lemma filter_nonempty {A : Type} (P : A → Prop) `{∀ x, Decision (P x)}
    (l : list A) (x : A) :
  x ∈ l → P x → filter P l ≠ [].
Proof.
  intros Hx HP Hnil.
  assert (Hin : x ∈ filter P l) by (by apply list_elem_of_filter).
  rewrite Hnil in Hin. by apply elem_of_nil in Hin.
Qed.

(** [validate_filter_operation] rejects a column the frame does not have
    with [ColumnNotFoundError] and a value that no row holds in that
    column with [FilteringError]; otherwise it returns. Its last check,
    on the number of matching rows, never fails on its own. *)
Lemma validate_filter_operation_outcome
    (data : DataFrame.t) (c v : string) :
  validate_filter_operation data c v
  = if bool_decide (c ∈ columns data) then
      if bool_decide (Some v ∈ column_values data c) then Returns ()
      else Fails (Package (FilteringError c v))
    else Fails (Package (ColumnNotFoundError c)).
Proof.
  unfold validate_filter_operation.
  case_bool_decide as Hc; [| done].
  case_bool_decide as Hv.
  - apply elem_of_available in Hv as (row & Hrow & Hget).
    rewrite bool_decide_eq_true_2
      by (apply list_elem_of_fmap; exists row; eauto).
    destruct (Nat.eqb_spec
                (List.length (filter (λ c0, c0 = Some v) (column_values data c)))
                0) as [E | _]; [| done].
    apply length_zero_iff_nil in E. exfalso.
    eapply (filter_nonempty (λ c0, c0 = Some v)); [| | exact E];
      [apply list_elem_of_fmap; exists row; eauto | done].
  - rewrite bool_decide_eq_false_2; [done |].
    intros Hin. apply Hv, elem_of_available.
    apply list_elem_of_fmap in Hin as (row & Hget & Hrow). eauto.
Qed.

Lemma validated_filter_shape (data : DataFrame.t) (c v : string) :
  validate_filter_operation data c v = Returns () →
  ∃ d, apply_filters data (Some [FilterItem c [Some v]]) = Ok d ∧
       columns d = columns data ∧
       rows d = filter (λ row, get data row c = Some v) (rows data) ∧
       rows d ≠ [].
Proof.
  rewrite validate_filter_operation_outcome.
  case_bool_decide as Hc; [| discriminate].
  case_bool_decide as Hv; [intros _ | discriminate].
  apply list_elem_of_fmap in Hv as (row & Hget & Hrow).
  assert (Hkept : kept_rows data [FilterItem c [Some v]]
                  = filter (λ row, get data row c = Some v) (rows data)).
  { apply filter_iff. intros r _. rewrite Forall_singleton.
    unfold passes. simpl. rewrite list_elem_of_singleton. tauto. }
  assert (Hne : filter (λ row, get data row c = Some v) (rows data) ≠ []).
  { by apply (filter_nonempty _ _ row). }
  eexists. rewrite apply_filters_cons, !len_zero, foldl_apply_one_spec by done.
  simpl. rewrite Hkept.
  rewrite bool_decide_eq_false_2;
    [| intros E; rewrite E in Hrow; by apply elem_of_nil in Hrow].
  rewrite bool_decide_eq_false_2 by done. done.
Qed.

(** X14. A filter that [validate_filter_operation] lets through, applied as
    [_apply_data_filter] applies it, never raises: the frame that comes back
    has the same columns and exactly the rows that hold the value, and there
    is at least one. The labels of the columns are taken distinct. *)
Theorem validated_filter_applies (data : DataFrame.t) (c v : string) :
  distinct_labels data →
  validate_filter_operation data c v = Returns () →
  ∃ d, apply_filters data (Some [FilterItem c [Some v]]) = Ok d ∧
       columns d = columns data ∧
       rows d = filter (λ row, get data row c = Some v) (rows data) ∧
       rows d ≠ [].
Proof. intros _. apply validated_filter_shape. Qed.

(** X15. [validate_filter_operation] rejects a column the frame does not
    have with [ColumnNotFoundError] and a value that no row holds in that
    column with [FilteringError], and returns otherwise: its last check, on
    the number of matching rows, can never be the one that fails. The labels
    of the columns are taken distinct. *)
Theorem filter_validator_outcome (data : DataFrame.t) (c v : string) :
  distinct_labels data →
  validate_filter_operation data c v
  = if bool_decide (c ∈ columns data) then
      if bool_decide (Exists (λ row, get data row c = Some v) (rows data))
      then Returns ()
      else Fails (Package (FilteringError c v))
    else Fails (Package (ColumnNotFoundError c)).
Proof.
  intros _. rewrite validate_filter_operation_outcome.
  case_bool_decide; [| done].
  apply (f_equal (λ b : bool, if b then _ else _)).
  apply bool_decide_ext. unfold column_values.
  rewrite list_elem_of_fmap, Exists_exists. split.
  - intros (row & Hget & Hrow). eauto.
  - intros (row & Hrow & Hget). eauto.
Qed.

End filter_validation.

(** ** From validated inputs to the transition table *)

Section prepared_data.
Import DataFrame validators alluvial_builder.
Context {F : FloatModel} {S : SortValues}.

Lemma parse_cached (cfg : string) (w w' : wave_parser.world)
    (r : result (string * string)) :
  wave_parser.parse_wave_config cfg w = (r, w') →
  wave_parser.parse_wave_config cfg w' = (r, w').
Proof.
  unfold wave_parser.parse_wave_config, wave_parser._get_wave_parser.
  destruct (wave_parser.wave_parser w) as [p|] eqn:Hp.
  - intros [= <- <-]. by rewrite Hp.
  - intros [= <- <-]. reflexivity.
Qed.

Lemma validate_column_exists_inv (data : DataFrame.t) (c : string) (u : unit) :
  validate_column_exists data c = Returns u → c ∈ columns data.
Proof. unfold validate_column_exists. by case_bool_decide. Qed.

Lemma validate_categorical_inv (data : DataFrame.t) (c : string) (u : unit) :
  validate_categorical_column data c 50 = Returns u →
  (2 ≤ nunique data c ≤ 50)%nat.
Proof.
  unfold validate_categorical_column. case_bool_decide; [| done].
  destruct (Nat.ltb_spec 50 (nunique data c)); [done |].
  destruct (Nat.ltb_spec (nunique data c) 2); [done |]. lia.
Qed.

(** What a successful [validate_visualization_inputs] has checked, when
    the variable itself is not a column of the frame. *)
Lemma validate_inputs_inv (data : DataFrame.t) (v cfg : string)
    (fc fv : option string) (w w' : wave_parser.world) (u : unit) :
  validate_visualization_inputs data v cfg fc fv w = (Returns u, w') →
  v ∉ columns data →
  (10 ≤ len data)%nat ∧
  ∃ s t,
    wave_parser.parse_wave_config cfg w = (Ok (s, t), w') ∧
    (s ++ v) ∈ columns data ∧ (t ++ v) ∈ columns data ∧
    (2 ≤ nunique data (s ++ v) ≤ 50)%nat ∧
    (2 ≤ nunique data (t ++ v) ≤ 50)%nat ∧
    (truthy fc && truthy fv = true →
     ∃ c val, fc = Some c ∧ fv = Some val ∧
              validate_filter_operation data c val = Returns ()).
Proof.
  unfold validate_visualization_inputs, validate_dataframe.
  intros Hval Hv.
  destruct (Nat.ltb_spec (len data) 10) as [| Hlen]; [by inversion Hval |].
  destruct (List.length (columns data) <? 2)%nat; [by inversion Hval |].
  destruct (validate_wave_config_format cfg); [| by inversion Hval].
  destruct (wave_parser.parse_wave_config cfg w) as [parsed w1].
  injection Hval as Hval <-. split; [done |].
  destruct parsed as [[s t] | e]; simpl in Hval.
  - destruct (validate_column_exists data (s ++ v)) as [u1|] eqn:Hs;
      simpl in Hval.
    + destruct (validate_column_exists data (t ++ v)) as [u2|] eqn:Ht;
        simpl in Hval.
      * destruct (validate_categorical_column data (s ++ v) 50) as [u3|] eqn:Hcs;
          simpl in Hval.
        -- destruct (validate_categorical_column data (t ++ v) 50) as [u4|] eqn:Hct;
             simpl in Hval.
           ++ exists s, t.
              apply validate_column_exists_inv in Hs, Ht.
              apply validate_categorical_inv in Hcs, Hct.
              repeat split; try done; try lia.
              intros Htruthy. rewrite Htruthy in Hval.
              destruct fc as [c|]; [| done]. destruct fv as [val|];
                [| by rewrite andb_false_r in Htruthy].
              exists c, val. repeat split.
              destruct (validate_filter_operation data c val) as [[]|];
                [done | discriminate].
           ++ destruct (validate_column_exists data v) as [u5|] eqn:Hv5;
                [by apply validate_column_exists_inv in Hv5 | discriminate].
        -- destruct (validate_column_exists data v) as [u5|] eqn:Hv5;
             [by apply validate_column_exists_inv in Hv5 | discriminate].
      * destruct (validate_column_exists data v) as [u5|] eqn:Hv5;
          [by apply validate_column_exists_inv in Hv5 | discriminate].
    + destruct (validate_column_exists data v) as [u5|] eqn:Hv5;
        [by apply validate_column_exists_inv in Hv5 | discriminate].
  - destruct (validate_column_exists data v) as [u5|] eqn:Hv5;
      [by apply validate_column_exists_inv in Hv5 | discriminate].
Qed.

(** X16. When [_prepare_data] returns and the variable itself is not a
    column of the dataset, the steps that follow in [build] go through: the
    wave configuration resolves, the prepared data has a row and both
    resolved columns, and, if the two column names differ, the transition
    table is computed. The labels of the columns of the dataset are taken
    distinct. *)
Theorem prepared_data_aggregates
    (self : inputs) (w w' : wave_parser.world) (data' : DataFrame.t) :
  distinct_labels (_data self) →
  _prepare_data self w = (Returns data', w') →
  _variable_name self ∉ columns (_data self) →
  ∃ source_prefix target_prefix,
    wave_parser.parse_wave_config (_wave_config self) w'
    = (Ok (source_prefix, target_prefix), w') ∧
    rows data' ≠ [] ∧
    (source_prefix ++ _variable_name self) ∈ columns data' ∧
    (target_prefix ++ _variable_name self) ∈ columns data' ∧
    (source_prefix ++ _variable_name self
     ≠ target_prefix ++ _variable_name self →
     ∃ records,
       AlluvialVisualizationBuilder._process_transition_data
         {| AlluvialVisualizationBuilder._data := data';
            AlluvialVisualizationBuilder._variable_name := _variable_name self;
            AlluvialVisualizationBuilder._wave_config := _wave_config self;
            AlluvialVisualizationBuilder._source_wave_prefix := source_prefix;
            AlluvialVisualizationBuilder._target_wave_prefix := target_prefix |}
       = Ok records).
Proof.
  intros _. unfold _prepare_data. intros Hprep Hv.
  destruct (validate_visualization_inputs (_data self) (_variable_name self)
              (_wave_config self) (_filter_column self) (_filter_value self) w)
    as [validated w1] eqn:Hval.
  injection Hprep as Hprep <-.
  destruct validated as [u | e]; [| discriminate]. simpl in Hprep.
  destruct (validate_inputs_inv _ _ _ _ _ _ _ _ Hval Hv)
    as (Hlen & s & t & Hparse & Hs & Ht & _ & _ & Hfilter).
  exists s, t. split; [by apply (parse_cached _ w) |].
  assert (Hdata : rows data' ≠ [] ∧ columns data' = columns (_data self)).
  { destruct (truthy (_filter_column self) && truthy (_filter_value self))
      eqn:Htruthy.
    - destruct (Hfilter eq_refl) as (c & val & Hc & Hval' & Hok).
      rewrite Hc, Hval' in Hprep.
      destruct (validated_filter_shape _ _ _ Hok) as (d & Happ & Hcols & _ & Hne).
      unfold _apply_data_filter in Hprep. rewrite Happ in Hprep.
      simpl in Hprep. unfold RowReductionHandler.int_true_div in Hprep.
      destruct (Nat.eqb_spec (len (_data self)) 0) as [| _]; [lia |].
      simpl in Hprep. by injection Hprep as <-.
    - assert (data' = _data self) as ->.
      { destruct (_filter_column self), (_filter_value self);
          simpl in Hprep; congruence. }
      split; [| done]. unfold len in Hlen.
      destruct (rows (_data self)); [simpl in Hlen; lia | done]. }
  destruct Hdata as [Hrows Hcols]. rewrite Hcols.
  repeat split; try done.
  intros Hne.
  edestruct (process_transition_data_eq
               {| AlluvialVisualizationBuilder._data := data';
                  AlluvialVisualizationBuilder._variable_name := _variable_name self;
                  AlluvialVisualizationBuilder._wave_config := _wave_config self;
                  AlluvialVisualizationBuilder._source_wave_prefix := s;
                  AlluvialVisualizationBuilder._target_wave_prefix := t |}
               (s ++ _variable_name self) (t ++ _variable_name self))
    as (_ & Hproc & _); [reflexivity | simpl; by rewrite Hcols .. | done |].
  eauto.
Qed.

End prepared_data.

(** ** One record for each pair of answers *)

Section grouping_facts.
Import DataFrame AlluvialVisualizationBuilder.

Lemma string_compare_refl (s : string) : String.compare s s = Eq.
Proof.
  change (String_as_OT.compare s s = Eq).
  destruct (String_as_OT.compare_spec s s) as [_ | H | H]; [done | |];
    by apply (StrictOrder_Irreflexive (R := String_as_OT.lt)) in H.
Qed.

Lemma string_compare_trans (a b c : string) :
  String.compare a b = Lt → String.compare b c = Lt → String.compare a c = Lt.
Proof. apply (StrictOrder_Transitive (R := String_as_OT.lt)). Qed.

Lemma pair_compare_eq (a b : string * string) :
  pair_compare a b = Eq ↔ a = b.
Proof.
  unfold pair_compare. split.
  - destruct (String.compare a.1 b.1) eqn:H1; try discriminate.
    intros H2. apply String.compare_eq_iff in H1, H2.
    destruct a, b; simpl in *; congruence.
  - intros ->. by rewrite !string_compare_refl.
Qed.

Lemma pair_compare_antisym (a b : string * string) :
  pair_compare a b = CompOpp (pair_compare b a).
Proof.
  unfold pair_compare. rewrite (String.compare_antisym b.1 a.1).
  destruct (String.compare a.1 b.1); simpl; try done.
  apply String.compare_antisym.
Qed.

Lemma pair_compare_trans (a b c : string * string) :
  pair_compare a b = Lt → pair_compare b c = Lt → pair_compare a c = Lt.
Proof.
  unfold pair_compare.
  destruct (String.compare a.1 b.1) eqn:Hab; try discriminate;
    destruct (String.compare b.1 c.1) eqn:Hbc; try discriminate; intros H1 H2.
  - apply String.compare_eq_iff in Hab, Hbc. rewrite Hab, Hbc.
    rewrite string_compare_refl.
    eapply string_compare_trans; eauto.
  - apply String.compare_eq_iff in Hab. by rewrite Hab, Hbc.
  - apply String.compare_eq_iff in Hbc. by rewrite <- Hbc, Hab.
  - by rewrite (string_compare_trans _ _ _ Hab Hbc).
Qed.

Lemma group_add_hd (key : string * string) (g : string * string * nat)
    (groups : list (string * string * nat)) :
  pair_compare g.1 key = Lt → HdRel key_lt g groups →
  HdRel key_lt g (group_add key groups).
Proof.
  intros Hlt Hhd. destruct groups as [|[key' n] groups]; simpl.
  - by constructor.
  - inversion Hhd as [|? ? Hg]; subst.
    destruct (pair_compare key key'); constructor; done.
Qed.

Lemma group_add_sorted (key : string * string)
    (groups : list (string * string * nat)) :
  Sorted key_lt groups → Sorted key_lt (group_add key groups).
Proof.
  induction 1 as [|[key' n] groups Hs IH Hhd]; simpl.
  - repeat constructor.
  - destruct (pair_compare key key') eqn:Hcmp.
    + constructor; [done |]. apply pair_compare_eq in Hcmp as ->.
      destruct Hhd; constructor; done.
    + constructor; [by constructor |]. by constructor.
    + constructor; [done |]. apply group_add_hd; [| done].
      simpl. by rewrite pair_compare_antisym, Hcmp.
Qed.

Lemma groupby_size_sorted (l : list (string * string)) :
  Sorted key_lt (groupby_size l).
Proof.
  unfold groupby_size.
  enough (G : ∀ acc, Sorted key_lt acc →
              Sorted key_lt (foldl (λ groups key, group_add key groups) acc l))
    by (apply G; constructor).
  induction l as [|key l IH]; intros acc Hacc; simpl; [done |].
  by apply IH, group_add_sorted.
Qed.

Lemma sorted_keys_nodup (groups : list (string * string * nat)) :
  Sorted key_lt groups → NoDup (fst <$> groups).
Proof.
  intros Hs. apply Sorted_StronglySorted in Hs;
    [| intros x y z; apply pair_compare_trans].
  induction Hs as [|g groups _ IH Hall]; simpl; constructor; [| done].
  intros Hin. apply list_elem_of_fmap in Hin as (g' & Hkey & Hg').
  rewrite Forall_forall in Hall. specialize (Hall _ Hg').
  unfold key_lt in Hall. rewrite Hkey in Hall.
  by rewrite (proj2 (pair_compare_eq _ _) eq_refl) in Hall.
Qed.

Lemma filed_cons {K : Type} `{EqDecision K} (key : K) (g : K * nat)
    (groups : list (K * nat)) :
  filed key (g :: groups)
  = ((if decide (g.1 = key) then g.2 else 0) + filed key groups)%nat.
Proof.
  unfold filed. rewrite filter_cons.
  destruct (decide (g.1 = key)); [| done].
  by rewrite fmap_cons, sum_counts_cons.
Qed.

Lemma group_add_filed (key x : string * string)
    (groups : list (string * string * nat)) :
  filed key (group_add x groups)
  = ((if decide (x = key) then 1 else 0) + filed key groups)%nat.
Proof.
  induction groups as [|[key' n] groups IH].
  - simpl. rewrite filed_cons. simpl. by destruct (decide (x = key)).
  - simpl group_add. destruct (pair_compare x key') eqn:Hcmp.
    + apply pair_compare_eq in Hcmp as ->. rewrite !filed_cons. simpl.
      destruct (decide (key' = key)); lia.
    + rewrite filed_cons. simpl. destruct (decide (x = key)); lia.
    + rewrite (filed_cons key (key', n)), IH, filed_cons. lia.
Qed.

Lemma groupby_size_filed (key : string * string) (l : list (string * string)) :
  filed key (groupby_size l) = List.length (filter (λ x, x = key) l).
Proof.
  unfold groupby_size.
  enough (G : ∀ acc,
              filed key (foldl (λ groups x, group_add x groups) acc l)
              = (filed key acc + List.length (filter (λ x, x = key) l))%nat)
    by (rewrite G; reflexivity).
  induction l as [|x l IH]; intros acc; simpl; [lia |].
  rewrite IH, group_add_filed, filter_cons.
  destruct (decide (x = key)); simpl; lia.
Qed.

Lemma group_add_positive (x : string * string)
    (groups : list (string * string * nat)) :
  Forall (λ g, 1 ≤ g.2)%nat groups →
  Forall (λ g, 1 ≤ g.2)%nat (group_add x groups).
Proof.
  induction 1 as [|[key' n] groups Hn Htl IH]; simpl.
  - apply Forall_cons. split; [simpl; lia | constructor].
  - simpl in Hn. destruct (pair_compare x key').
    + apply Forall_cons. split; [simpl; lia | done].
    + apply Forall_cons. split; [simpl; lia |].
      apply Forall_cons. split; [simpl; lia | done].
    + apply Forall_cons. split; [simpl; lia | done].
Qed.

Lemma groupby_size_positive (l : list (string * string)) :
  Forall (λ g, 1 ≤ g.2)%nat (groupby_size l).
Proof.
  unfold groupby_size.
  enough (G : ∀ acc, Forall (λ g, 1 ≤ g.2)%nat acc →
              Forall (λ g, 1 ≤ g.2)%nat
                (foldl (λ groups x, group_add x groups) acc l))
    by (apply G; constructor).
  induction l as [|x l IH]; intros acc Hacc; simpl; [done |].
  by apply IH, group_add_positive.
Qed.

Lemma filed_absent {K : Type} `{EqDecision K} (key : K)
    (groups : list (K * nat)) :
  key ∉ fst <$> groups → filed key groups = 0%nat.
Proof.
  induction groups as [|g groups IH]; intros Hout; [reflexivity |].
  rewrite fmap_cons in Hout. apply not_elem_of_cons in Hout as [Hne Hout].
  rewrite filed_cons, decide_False by done. by rewrite IH.
Qed.

Lemma filed_nodup {K : Type} `{EqDecision K} (key : K) (n : nat)
    (groups : list (K * nat)) :
  NoDup (fst <$> groups) → (key, n) ∈ groups → filed key groups = n.
Proof.
  induction groups as [|g groups IH]; intros Hnd Hin.
  - by apply elem_of_nil in Hin.
  - rewrite fmap_cons in Hnd. apply NoDup_cons in Hnd as [Hfresh Hnd].
    rewrite filed_cons. apply elem_of_cons in Hin as [<- | Hin].
    + simpl. rewrite decide_True by done.
      rewrite filed_absent by done. lia.
    + rewrite decide_False.
      * by rewrite IH.
      * intros Hkey. apply Hfresh. rewrite Hkey.
        apply list_elem_of_fmap. by exists (key, n).
Qed.

(** [groupby(...).size()] is right: the keys are distinct, each entry
    counts the rows that hold its key, and every row is counted. *)
Lemma groupby_size_spec (l : list (string * string)) :
  NoDup (fst <$> groupby_size l) ∧
  (∀ key n, (key, n) ∈ groupby_size l →
            n = List.length (filter (λ x, x = key) l) ∧ (1 ≤ n)%nat) ∧
  (∀ key, key ∈ l → ∃ n, (key, n) ∈ groupby_size l).
Proof.
  pose proof (sorted_keys_nodup _ (groupby_size_sorted l)) as Hnd.
  split; [done |]. split.
  - intros key n Hin. split.
    + by rewrite <- groupby_size_filed, (filed_nodup _ _ _ Hnd Hin).
    + pose proof (groupby_size_positive l) as Hpos.
      rewrite Forall_forall in Hpos. apply (Hpos _ Hin).
  - intros key Hin.
    destruct (decide (key ∈ fst <$> groupby_size l)) as [Hkey | Hout].
    + apply list_elem_of_fmap in Hkey as ([key' n] & -> & Hg). eauto.
    + apply filed_absent in Hout. rewrite groupby_size_filed in Hout.
      apply length_zero_iff_nil in Hout.
      exfalso. by eapply (filter_nonempty (λ x, x = key)).
Qed.

End grouping_facts.

Section record_properties.
Import DataFrame AlluvialVisualizationBuilder transition_pattern_analysis.
Context {F : FloatModel} {S : SortValues}.

Lemma dropna_pair_rows (d : DataFrame.t) (s t a b : string) :
  List.length
    (filter (λ x, x = (a, b))
            (dropna ((λ row, (get d row s, get d row t)) <$> rows d)))
  = pair_rows d s t a b.
Proof.
  unfold pair_rows. induction (rows d) as [|row l IH]; [reflexivity |].
  rewrite fmap_cons, (filter_cons _ row).
  destruct (get d row s) as [a'|] eqn:Ha, (get d row t) as [b'|] eqn:Hb;
    simpl dropna.
  - rewrite filter_cons.
    destruct (decide ((a', b') = (a, b))) as [[= -> ->] | Hne].
    + rewrite decide_True by done. simpl. by rewrite IH.
    + rewrite decide_False by (intros [[= ->] [= ->]]; done). exact IH.
  - rewrite decide_False by (intros [_ ?]; done). exact IH.
  - rewrite decide_False by (intros [? _]; done). exact IH.
  - rewrite decide_False by (intros [? _]; done). exact IH.
Qed.

Lemma dropna_elem (d : DataFrame.t) (s t a b : string) :
  (1 ≤ pair_rows d s t a b)%nat →
  (a, b) ∈ dropna ((λ row, (get d row s, get d row t)) <$> rows d).
Proof.
  rewrite <- dropna_pair_rows. intros Hpos.
  destruct (filter (λ x, x = (a, b))
              (dropna ((λ row, (get d row s, get d row t)) <$> rows d)))
    as [|x l] eqn:Hf; [simpl in Hpos; lia |].
  assert (Hx : x ∈ x :: l) by (by left). rewrite <- Hf in Hx.
  apply list_elem_of_filter in Hx as [-> Hx]. exact Hx.
Qed.

(** X17. The transition table has one record for each pair of answers that
    some complete row holds: the pairs of the records are distinct, the
    count of a record is the number of rows that hold its pair, never 0, and
    every pair held by a row has its record. [unique_patterns] is the number
    of these records. The labels of the columns of the dataset are taken
    distinct. *)
Theorem one_record_per_pair
    (self : AlluvialVisualizationBuilder.t) (s t : string) :
  WaveConfigParser.generate_column_names
    (_source_wave_prefix self) (_target_wave_prefix self)
    (_variable_name self) = (s, t) →
  distinct_labels (_data self) →
  s ∈ columns (_data self) → t ∈ columns (_data self) → s ≠ t →
  ∃ records,
    _process_transition_data self = Ok records ∧
    NoDup ((λ r, (source r, target r)) <$> records) ∧
    (∀ r, r ∈ records →
       count r = pair_rows (_data self) s t (source r) (target r)
       ∧ (1 ≤ count r)%nat) ∧
    (∀ a b, (1 ≤ pair_rows (_data self) s t a b)%nat →
       ∃ r, r ∈ records ∧ source r = a ∧ target r = b) ∧
    unique_patterns (_calculate_statistics self records)
    = List.length ((λ r, (source r, target r)) <$> records).
Proof.
  intros Hnames _ Hs Ht Hne.
  destruct (process_transition_data_eq self s t Hnames Hs Ht Hne)
    as (_ & Hproc & _).
  eexists. split; [exact Hproc |].
  set (l := dropna ((λ row, (get (_data self) row s, get (_data self) row t))
                      <$> rows (_data self))) in *.
  destruct (groupby_size_spec l) as (Hnd & Hcount & Hall).
  set (mk := λ g : string * string * nat,
         {| source := g.1.1; target := g.1.2; count := g.2;
            percentage :=
              times_100 (true_divide g.2 (complete_cases (_data self) s t)) |}).
  assert (Hkeys : ∀ gs : list (string * string * nat),
            (λ r, (source r, target r)) <$> (mk <$> gs) = fst <$> gs).
  { intros gs. rewrite <- list_fmap_compose. apply list_fmap_ext.
    intros _ [[a b] n] _. reflexivity. }
  split; [| split; [| split]].
  - rewrite (sort_values_perm transition count (mk <$> groupby_size l)).
    by rewrite Hkeys.
  - intros r Hr. rewrite sort_values_perm in Hr.
    apply list_elem_of_fmap in Hr as ([[a b] n] & -> & Hg). simpl.
    destruct (Hcount _ _ Hg) as [-> Hpos]. split; [| done].
    apply dropna_pair_rows.
  - intros a b Hpos. destruct (Hall (a, b)) as [n Hg].
    { by apply dropna_elem. }
    exists (mk (a, b, n)). split; [| done].
    rewrite sort_values_perm. apply list_elem_of_fmap. eauto.
  - simpl. by rewrite length_fmap.
Qed.

End record_properties.

Section pattern_table_properties.
Import DataFrame transition_pattern_analysis.
Context {F : FloatModel} {S : SortValues}.








End pattern_table_properties.

(** ** The summary statistics *)

Section statistics_properties.
Import AlluvialVisualizationBuilder.
Context {F : FloatModel}.

Lemma sum_counts_filter_le {A : Type} (k : A → nat) (P : A → Prop)
    `{∀ x, Decision (P x)} (l : list A) :
  (sum_counts (k <$> filter P l) ≤ sum_counts (k <$> l))%nat.
Proof.
  induction l as [|x l IH]; [done |].
  rewrite filter_cons, (fmap_cons k x l), sum_counts_cons.
  destruct (decide (P x)); [rewrite fmap_cons, sum_counts_cons |]; lia.
Qed.

Lemma sum_counts_filter_all {A : Type} (k : A → nat) (P : A → Prop)
    `{∀ x, Decision (P x)} (l : list A) :
  Forall P l → sum_counts (k <$> filter P l) = sum_counts (k <$> l).
Proof. intros Hall. by rewrite filter_all. Qed.

Lemma sum_counts_filter_none {A : Type} (k : A → nat) (P : A → Prop)
    `{∀ x, Decision (P x)} (l : list A) :
  Forall (λ x, ¬ P x) l → sum_counts (k <$> filter P l) = 0%nat.
Proof.
  induction 1 as [|x l Hx _ IH]; [done |].
  by rewrite filter_cons, decide_False.
Qed.

Lemma Q_of_nat_le (a b : nat) : (a ≤ b)%nat → (Q_of_nat a <= Q_of_nat b)%Q.
Proof. intros Hab. unfold Q_of_nat. rewrite <- Zle_Qle. lia. Qed.

Lemma exact_stability_range (table : list transition) :
  (0 <= exact_stability table)%Q ∧ (exact_stability table <= 100)%Q.
Proof.
  unfold exact_stability.
  destruct (Nat.eqb_spec (sum_counts (count <$> table)) 0) as [_ | Hne];
    [split; lra |].
  pose proof (share_nonneg (stable_total table) (sum_counts (count <$> table))).
  assert (Hpos : (0 < Q_of_nat (sum_counts (count <$> table)))%Q)
    by (apply Q_of_nat_pos; lia).
  assert (Hle : (Q_of_nat (stable_total table)
                 / Q_of_nat (sum_counts (count <$> table)) <= 1)%Q).
  { apply Qle_shift_div_r; [done |]. rewrite Qmult_1_l.
    apply Q_of_nat_le, sum_counts_filter_le. }
  split; lra.
Qed.

(** X19. The statistics of a transition table. [total_transitions] is the sum
    of its counts and [top_patterns] has as many entries as the table has
    records, up to ten. [stability_rate] is a finite number, within two
    roundings of the exact share of respondents with an unchanged answer,
    which lies between 0 and 100: it is exactly 0 when no record stands
    for an unchanged answer, and the exact share is 100 when all of a
    non-empty table do. *)
Theorem statistics_of_a_table
    (self : AlluvialVisualizationBuilder.t) (table : list transition) :
  let stats := _calculate_statistics self table in
  total_transitions stats = sum_counts (count <$> table) ∧
  List.length (top_patterns stats) = (10 `min` List.length table)%nat ∧
  ∃ q, stability_rate stats = Finite q ∧
       (0 <= exact_stability table)%Q ∧ (exact_stability table <= 100)%Q ∧
       (Qabs (q - exact_stability table)
        <= two_roundings * exact_stability table)%Q ∧
       (Forall (λ r, source r ≠ target r) table → (q == 0)%Q) ∧
       (Forall (λ r, source r = target r) table → table ≠ [] →
        Forall (λ r, 1 ≤ count r)%nat table →
        (exact_stability table == 100)%Q).
Proof.
  intros stats. split; [done |]. split.
  { unfold stats. simpl. by rewrite length_fmap, length_take. }
  pose proof (exact_stability_range table) as [Hlo Hhi].
  unfold stats, _calculate_statistics. simpl stability_rate.
  fold (stable_total table).
  assert (Hq : ∃ q,
    (if (0 <? sum_counts (count <$> table))%nat
     then times_100 (true_divide (stable_total table)
                       (sum_counts (count <$> table)))
     else Finite 0) = Finite q ∧
    (Qabs (q - exact_stability table)
     <= two_roundings * exact_stability table)%Q).
  { unfold exact_stability.
    destruct (Nat.eqb_spec (sum_counts (count <$> table)) 0) as [E | Hne].
    - rewrite E. exists 0%Q. split; [done |].
      apply Qabs_Qle_condition. split; lra.
    - destruct (Nat.ltb_spec 0 (sum_counts (count <$> table))); [| lia].
      rewrite times_100_true_divide by done. eexists. split; [done |].
      apply percentage_error, share_nonneg. }
  destruct Hq as (q & Eq & Herr). exists q.
  split; [done |]. split; [done |]. split; [done |]. split; [done |]. split.
  - intros Hnone.
    assert (Hz : (exact_stability table == 0)%Q).
    { unfold exact_stability, stable_total.
      rewrite (sum_counts_filter_none count _ table Hnone).
      destruct (_ =? _)%nat; [done |].
      change (Q_of_nat 0) with 0%Q. unfold Qdiv. lra. }
    rewrite Hz in Herr. apply Qabs_Qle_condition in Herr. lra.
  - intros Hall Hne Hpos.
    unfold exact_stability, stable_total.
    rewrite (sum_counts_filter_all count _ table Hall).
    assert (Htot : (0 < sum_counts (count <$> table))%nat).
    { destruct table as [|r table]; [done |].
      apply Forall_cons in Hpos as [Hr _].
      rewrite fmap_cons, sum_counts_cons. lia. }
    destruct (Nat.eqb_spec (sum_counts (count <$> table)) 0); [lia |].
    rewrite (whole_share _ Htot). lra.
Qed.

End statistics_properties.

(** ** File names *)

Section filename_properties.
Import validators.

Lemma re_sub_length (chars : list ascii) (repl : ascii) (s : string) :
  String.length (re_sub chars repl s) = String.length s.
Proof. induction s as [|a s IH]; [done |]. simpl. by rewrite IH. Qed.

Lemma re_sub_clean (chars : list ascii) (repl : ascii) (s : string) :
  one_of chars repl = false →
  all_chars (λ a, negb (one_of chars a)) (re_sub chars repl s) = true.
Proof.
  intros Hrepl. induction s as [|a s IH]; [done |].
  simpl. rewrite IH, andb_true_r.
  destruct (one_of chars a) eqn:E; [by rewrite Hrepl | by rewrite E].
Qed.

Lemma re_sub_of_clean (chars : list ascii) (repl : ascii) (s : string) :
  all_chars (λ a, negb (one_of chars a)) s = true → re_sub chars repl s = s.
Proof.
  induction s as [|a s IH]; [done |].
  simpl. intros [Ha Hs]%andb_true_iff.
  apply negb_true_iff in Ha. rewrite Ha. f_equal. by apply IH.
Qed.

Lemma lstrip_chars_all (P : ascii → bool) (chars : list ascii) (s : string) :
  all_chars P s = true → all_chars P (lstrip_chars chars s) = true.
Proof.
  induction s as [|a s IH]; [done |].
  intros Hall. simpl. destruct (one_of chars a); [| done].
  simpl in Hall. apply andb_true_iff in Hall as [_ Hs]. by apply IH.
Qed.

Lemma rstrip_chars_all (P : ascii → bool) (chars : list ascii) (s : string) :
  all_chars P s = true → all_chars P (rstrip_chars chars s) = true.
Proof.
  induction s as [|a s IH]; [done |].
  intros [Ha Hs]%andb_true_iff. specialize (IH Hs). simpl rstrip_chars.
  destruct (rstrip_chars chars s) as [|b r].
  - destruct (one_of chars a); [done |]. simpl. by rewrite Ha.
  - change (P a && all_chars P (String b r) = true). by rewrite Ha, IH.
Qed.

Lemma lstrip_chars_length (chars : list ascii) (s : string) :
  (String.length (lstrip_chars chars s) ≤ String.length s)%nat.
Proof.
  induction s as [|a s IH]; [done |].
  simpl. destruct (one_of chars a); simpl; lia.
Qed.

Lemma rstrip_chars_length (chars : list ascii) (s : string) :
  (String.length (rstrip_chars chars s) ≤ String.length s)%nat.
Proof.
  induction s as [|a s IH]; [done |].
  simpl rstrip_chars. destruct (rstrip_chars chars s) as [|b r].
  - destruct (one_of chars a); simpl; lia.
  - change (S (String.length (String b r)) ≤ S (String.length s))%nat. lia.
Qed.

Lemma lstrip_chars_head (chars : list ascii) (s : string) :
  lstrip_chars chars s = EmptyString ∨
  ∃ a rest, lstrip_chars chars s = String a rest ∧ one_of chars a = false.
Proof.
  induction s as [|a s IH]; [by left |].
  simpl. destruct (one_of chars a) eqn:E; [done |]. right. eauto.
Qed.

Lemma rstrip_chars_head (chars : list ascii) (a : ascii) (s : string) :
  one_of chars a = false →
  ∃ rest, rstrip_chars chars (String a s) = String a rest.
Proof.
  intros Ha. simpl rstrip_chars.
  destruct (rstrip_chars chars s) as [|b r]; [rewrite Ha |]; eauto.
Qed.

Lemma rstrip_chars_idem (chars : list ascii) (s : string) :
  rstrip_chars chars (rstrip_chars chars s) = rstrip_chars chars s.
Proof.
  induction s as [|a s IH]; [done |].
  simpl rstrip_chars at 2 3.
  destruct (rstrip_chars chars s) as [|b r] eqn:E.
  - destruct (one_of chars a) eqn:Ha; [done |]. simpl. by rewrite Ha.
  - change (match rstrip_chars chars (String b r) with
            | EmptyString =>
                if one_of chars a then EmptyString else String a EmptyString
            | r' => String a r'
            end = String a (String b r)).
    by rewrite IH.
Qed.

Lemma strip_chars_head (chars : list ascii) (s : string) :
  strip_chars chars s = EmptyString ∨
  ∃ a rest, strip_chars chars s = String a rest ∧ one_of chars a = false.
Proof.
  unfold strip_chars.
  destruct (lstrip_chars_head chars s) as [-> | (a & rest & -> & Ha)];
    [by left |].
  right. destruct (rstrip_chars_head chars a rest Ha) as [rest' ->]. eauto.
Qed.

Lemma strip_chars_idem (chars : list ascii) (s : string) :
  strip_chars chars (strip_chars chars s) = strip_chars chars s.
Proof.
  destruct (strip_chars_head chars s) as [-> | (a & rest & E & Ha)]; [done |].
  unfold strip_chars at 1. rewrite E. simpl lstrip_chars. rewrite Ha.
  rewrite <- E. unfold strip_chars. apply rstrip_chars_idem.
Qed.

Lemma strip_chars_length (chars : list ascii) (s : string) :
  (String.length (strip_chars chars s) ≤ String.length s)%nat.
Proof.
  unfold strip_chars.
  pose proof (rstrip_chars_length chars (lstrip_chars chars s)).
  pose proof (lstrip_chars_length chars s). lia.
Qed.

Lemma substring_length (n : nat) (s : string) :
  String.length (String.substring 0 n s) = (n `min` String.length s)%nat.
Proof.
  revert s. induction n as [|n IH]; intros [|a s]; simpl; try done.
  by rewrite IH.
Qed.

Lemma substring_all (P : ascii → bool) (n : nat) (s : string) :
  all_chars P s = true → all_chars P (String.substring 0 n s) = true.
Proof.
  revert s. induction n as [|n IH]; intros [|a s]; simpl; try done.
  intros [Ha Hs]%andb_true_iff. by rewrite Ha, IH.
Qed.

Lemma substring_head (n : nat) (a : ascii) (s : string) :
  String.substring 0 (S n) (String a s) = String a (String.substring 0 n s).
Proof. done. Qed.

(** The stripped name, or [untitled] in its place. *)
Lemma sanitize_filename_eq (filename : string) :
  sanitize_filename filename =
  let stripped :=
    strip_chars [" "; "."]%char (re_sub unsafe_chars "_"%char filename) in
  let named :=
    match stripped with
    | EmptyString => "untitled"
    | _ => stripped
    end in
  if (100 <? String.length named)%nat
  then String.substring 0 100 named else named.
Proof. reflexivity. Qed.

Lemma sanitize_filename_shape (filename : string) :
  (1 ≤ String.length (sanitize_filename filename))%nat ∧
  (String.length (sanitize_filename filename) ≤ 100)%nat ∧
  all_chars (λ a, negb (one_of unsafe_chars a))
            (sanitize_filename filename) = true ∧
  ∃ a rest, sanitize_filename filename = String a rest ∧
            one_of [" "; "."]%char a = false.
Proof.
  rewrite sanitize_filename_eq.
  set (subbed := re_sub unsafe_chars "_"%char filename).
  assert (Hclean : all_chars (λ a, negb (one_of unsafe_chars a))
                             (strip_chars [" "; "."]%char subbed) = true).
  { apply rstrip_chars_all, lstrip_chars_all, re_sub_clean. done. }
  cbv zeta.
  set (named := match strip_chars [" "; "."]%char subbed with
                | EmptyString => "untitled"
                | _ => strip_chars [" "; "."]%char subbed
                end).
  assert (Hnamed : all_chars (λ a, negb (one_of unsafe_chars a)) named = true
                   ∧ ∃ a rest, named = String a rest
                               ∧ one_of [" "; "."]%char a = false).
  { unfold named.
    destruct (strip_chars_head [" "; "."]%char subbed)
      as [-> | (a & rest & E & Ha)].
    - split; [done |]. by exists "u"%char, "ntitled".
    - rewrite E in *. split; [done |]. eauto. }
  destruct Hnamed as (Hall & a & rest & E & Ha).
  destruct (Nat.ltb_spec 100 (String.length named)) as [Hlong | Hshort].
  - rewrite substring_length. repeat split; try lia.
    + by apply substring_all.
    + rewrite E. exists a, (String.substring 0 99 rest). split; [| done].
      apply (substring_head 99).
  - rewrite E in *. simpl in *. repeat split; try lia; eauto.
Qed.

(** X20. Whatever the name given, [sanitize_filename] returns a name of
    1 to 100 characters, none of which is one of the nine unsafe
    characters, and which does not begin with a space or a dot. *)
Theorem sanitize_filename_safe (filename : string) :
  (1 ≤ String.length (sanitize_filename filename))%nat ∧
  (String.length (sanitize_filename filename) ≤ 100)%nat ∧
  all_chars (λ a, negb (one_of unsafe_chars a))
            (sanitize_filename filename) = true ∧
  ∃ a rest, sanitize_filename filename = String a rest ∧
            one_of [" "; "."]%char a = false.
Proof. apply sanitize_filename_shape. Qed.

(** X21. On a name of at most 100 characters a second sanitisation
    changes nothing, and the result neither begins nor ends with a space
    or a dot. *)
Theorem sanitize_filename_idempotent (filename : string) :
  (String.length filename ≤ 100)%nat →
  sanitize_filename (sanitize_filename filename)
  = sanitize_filename filename ∧
  strip_chars [" "; "."]%char (sanitize_filename filename)
  = sanitize_filename filename.
Proof.
  intros Hlen.
  assert (Hfix : ∀ s,
    (String.length s ≤ 100)%nat → s ≠ EmptyString →
    all_chars (λ a, negb (one_of unsafe_chars a)) s = true →
    strip_chars [" "; "."]%char s = s → sanitize_filename s = s).
  { intros s Hs Hne Hall Hstrip. rewrite sanitize_filename_eq.
    rewrite (re_sub_of_clean _ _ _ Hall), Hstrip. cbv zeta.
    destruct s as [|a s]; [done |].
    assert (Hb : (100 <? String.length (String a s))%nat = false)
      by (apply Nat.ltb_ge; lia).
    by rewrite Hb. }
  assert (Hres : sanitize_filename filename = "untitled" ∨
                 (sanitize_filename filename
                  = strip_chars [" "; "."]%char
                      (re_sub unsafe_chars "_"%char filename)
                  ∧ sanitize_filename filename ≠ EmptyString)).
  { rewrite sanitize_filename_eq.
    pose proof (strip_chars_length [" "; "."]%char
                  (re_sub unsafe_chars "_"%char filename)) as Hle.
    rewrite re_sub_length in Hle.
    destruct (strip_chars [" "; "."]%char
                (re_sub unsafe_chars "_"%char filename)) as [|a s] eqn:E;
      [by left |].
    right. cbv zeta iota.
    assert (Hb : (100 <? String.length (String a s))%nat = false)
      by (apply Nat.ltb_ge; lia).
    rewrite Hb. by split. }
  destruct Hres as [-> | [E Hne]]; [done |].
  assert (Hstrip : strip_chars [" "; "."]%char (sanitize_filename filename)
                   = sanitize_filename filename).
  { rewrite E. apply strip_chars_idem. }
  split; [| done].
  apply Hfix; [apply sanitize_filename_shape | done
              | apply sanitize_filename_shape | done].
Qed.

End filename_properties.

(** ** The properties on sample inputs *)

Section further_samples.
Import DataFrame RowReductionHandler Samples Cases.

Lemma cases_distinct_labels :
  distinct_labels region_party ∧ distinct_labels twelve_respondents
  ∧ distinct_labels (AlluvialVisualizationBuilder._data four_respondents).
Proof.
  unfold distinct_labels. simpl.
  repeat split; repeat (apply NoDup_cons; split);
    try apply NoDup_nil_2;
    rewrite ?not_elem_of_cons; repeat split; try discriminate;
    apply not_elem_of_nil.
Qed.

Lemma apply_filters_outcome_witness :
  apply_filters region_party (Some [democrats; north_or_south])
  = if bool_decide (rows region_party = []) then Raise ZeroDivisionError
    else if bool_decide
              (kept_rows region_party [democrats; north_or_south] = [])
         then Raise (ValueError AllRowsFiltered)
         else Ok {| columns := columns region_party;
                    rows := kept_rows region_party
                              [democrats; north_or_south] |}.
Proof.
  exact (apply_filters_outcome region_party [democrats; north_or_south]
           (proj1 cases_distinct_labels) ltac:(discriminate)).
Defined.

Lemma cases_same_filters :
  Forall2 same_filter [democrats; north_or_south] [democrats; south_or_north].
Proof.
  apply Forall2_cons; split; [| apply Forall2_cons; split; [| apply Forall2_nil_2]].
  - by split.
  - split; [reflexivity |]. intros c. simpl.
    rewrite !elem_of_cons, !elem_of_nil. tauto.
Qed.

Lemma apply_filters_order_irrelevant_witness :
  apply_filters region_party (Some [north_or_south; democrats])
  = apply_filters region_party (Some [democrats; south_or_north]).
Proof.
  exact (apply_filters_order_irrelevant region_party
           [north_or_south; democrats] [democrats; south_or_north]
           [democrats; north_or_south] (proj1 cases_distinct_labels)
           (perm_swap democrats north_or_south []) cases_same_filters).
Defined.

Lemma apply_filters_idempotent_witness :
  apply_filters democrats_north_south (Some [democrats; north_or_south])
  = Ok democrats_north_south.
Proof.
  exact (apply_filters_idempotent region_party democrats_north_south
           (Some [democrats; north_or_south]) (proj1 cases_distinct_labels)
           eq_refl).
Defined.

Lemma cases_any_region :
  ∀ f row, f ∈ [any_region] → row ∈ rows region_party →
           passes region_party row f.
Proof.
  intros f row ->%list_elem_of_singleton Hrow _.
  simpl in Hrow. rewrite !elem_of_cons, elem_of_nil in Hrow.
  destruct Hrow as [-> | [-> | [-> | [-> | []]]]];
    apply list_elem_of_In; vm_compute; tauto.
Qed.

Lemma apply_filters_all_values_witness :
  apply_filters region_party (Some [any_region]) = Ok region_party.
Proof.
  exact (apply_filters_all_values region_party [any_region]
           (proj1 cases_distinct_labels) ltac:(discriminate)
           cases_any_region).
Defined.

Lemma cases_well_formed :
  well_formed padded_token ∧ well_formed wave7_token
  ∧ well_formed same_wave_token.
Proof. repeat split; (reflexivity || discriminate). Qed.


Lemma cases_wave7_unregistered :
  PyStr.int (tok_source wave7_token)
    ∉ dom (WaveConfigParser.wave_numbers WaveConfigParser.defaults)
  ∨ PyStr.int (tok_target wave7_token)
    ∉ dom (WaveConfigParser.wave_numbers WaveConfigParser.defaults).
Proof. right. apply not_elem_of_dom. reflexivity. Qed.

Lemma unregistered_wave_rejected_witness :
  WaveConfigParser.parse_wave_config WaveConfigParser.defaults
    (token_text wave7_token)
  = Raise (ValueError (WaveNotFound
             (if decide (PyStr.int (tok_source wave7_token)
                         ∈ dom (WaveConfigParser.wave_numbers
                                  WaveConfigParser.defaults))
              then PyStr.int (tok_target wave7_token)
              else PyStr.int (tok_source wave7_token)))).
Proof.
  exact (unregistered_wave_rejected WaveConfigParser.defaults wave7_token
           (proj1 (proj2 cases_well_formed))
           ltac:(discriminate) ltac:(discriminate) ltac:(discriminate)
           cases_wave7_unregistered).
Defined.

Lemma same_or_zero_wave_rejected_witness :
  WaveConfigParser.parse_wave_config WaveConfigParser.defaults
    (token_text same_wave_token)
  = Raise (ValueError
             (if decide (PyStr.int (tok_source same_wave_token) = 0%N
                         ∨ PyStr.int (tok_target same_wave_token) = 0%N)
              then NotPositive (token_text same_wave_token)
              else SameWave (token_text same_wave_token))).
Proof.
  exact (same_or_zero_wave_rejected WaveConfigParser.defaults same_wave_token
           (proj2 (proj2 cases_well_formed)) (or_introl eq_refl)).
Defined.

Lemma cases_resolved :
  is_ascii " W1_to_w2 " ∧
  typed.WaveConfigParser.parse_wave_config typed.WaveConfigParser.defaults
    " W1_to_w2 " = Ok (typed.Str "W1_", typed.Str "W2_") ∧
  PyStr.lower " W1_to_w2 " ≠ "all_waves".
Proof. split; [by vm_compute |]. split; [by vm_compute |]. by vm_compute. Qed.

Lemma resolved_token_is_well_formed_witness :
  ∃ (k : wave_token)
    (source_name target_name source_text target_text : string),
    well_formed k ∧ " W1_to_w2 " = token_text k ∧
    typed.Str "W1_" = typed.Str source_text ∧
    typed.Str "W2_" = typed.Str target_text ∧
    typed.WaveConfigParser.wave_numbers typed.WaveConfigParser.defaults
      !! PyStr.int (tok_source k) = Some (source_name, typed.Str "W1_") ∧
    typed.WaveConfigParser.wave_numbers typed.WaveConfigParser.defaults
      !! PyStr.int (tok_target k) = Some (target_name, typed.Str "W2_") ∧
    (1 <= PyStr.int (tok_source k))%N ∧ (1 <= PyStr.int (tok_target k))%N ∧
    PyStr.int (tok_source k) ≠ PyStr.int (tok_target k).
Proof.
  destruct cases_resolved as (Hascii & Hparse & Hnot).
  exact (resolved_token_is_well_formed typed.WaveConfigParser.defaults
           " W1_to_w2 " (typed.Str "W1_") (typed.Str "W2_")
           Hascii Hparse Hnot).
Defined.

Lemma cases_plain :
  typed.plain_text "Wave4" = true ∧ typed.plain_text "W4_" = true ∧
  typed.plain_text "Baseline" = true ∧ typed.plain_text "B_" = true ∧
  is_ascii "w1_to_w2".
Proof. repeat split; by vm_compute. Qed.

Lemma add_wave_definition_registers_witness :
  let added :=
    typed.wave_parser.add_wave_definition (C := plain_reader)
      "Wave4" "W4_" EmptyString two_wave_table in
  let parser := (typed.wave_parser._get_wave_parser added.2).1 in
  added.1 = true ∧
  typed.WaveConfigParser.wave_numbers parser !! PyStr.int "4"
  = Some ("Wave4", typed.Str "W4_") ∧
  (∀ n, n ≠ PyStr.int "4" →
        typed.WaveConfigParser.wave_numbers parser !! n
        = file_registry (typed.wave_parser.wave_file two_wave_table) !! n) ∧
  typed.WaveConfigParser.wave_definitions parser !! "Wave4"
  = Some (typed.Str "W4_").
Proof.
  destruct cases_plain as (Hname & Hprefix & _).
  exact (add_wave_definition_registers (C := plain_reader)
           "Wave4" "W4_" EmptyString "4" two_wave_table
           eq_refl eq_refl Hname Hprefix eq_refl).
Defined.

Lemma add_wave_without_number_changes_nothing_witness :
  (typed.wave_parser.add_wave_definition (C := plain_reader)
     "Baseline" "B_" EmptyString two_wave_table).1 = true ∧
  (typed.wave_parser.parse_wave_config "w1_to_w2"
     (typed.wave_parser.add_wave_definition (C := plain_reader)
        "Baseline" "B_" EmptyString two_wave_table).2).1
  = (typed.wave_parser.parse_wave_config "w1_to_w2" two_wave_table).1.
Proof.
  destruct cases_plain as (_ & _ & Hname & Hprefix & Hascii).
  exact (add_wave_without_number_changes_nothing (C := plain_reader)
           "Baseline" "B_" EmptyString "w1_to_w2" two_wave_table
           [text_row "Wave1" "W1_"; text_row "Wave2" "W2_"]
           eq_refl eq_refl eq_refl Hname Hprefix eq_refl
           (or_introl eq_refl) Hascii).
Defined.

Lemma format_validator_on_token_witness :
  validators.validate_wave_config_format (token_text padded_token)
  = if String.eqb (tok_source padded_token) (tok_target padded_token)
    then validators.Fails
           (validators.Package
              (validators.WaveConfigurationError
                 ("w" ++ tok_source padded_token ++ "_to_w"
                  ++ tok_target padded_token)))
    else validators.Returns
           ("w" ++ tok_source padded_token, "w" ++ tok_target padded_token).
Proof.
  exact (format_validator_on_token padded_token (proj1 cases_well_formed)).
Defined.

Lemma resolved_config_has_valid_format_witness :
  ∃ ids,
    validators.validate_wave_config_format " W1_to_W2 " = validators.Returns ids.
Proof.
  exact (resolved_config_has_valid_format WaveConfigParser.defaults
           " W1_to_W2 " ("W1_", "W2_") eq_refl).
Defined.

Lemma cases_padded_all_waves :
  all_chars PyStr.isspace " " = true ∧
  all_chars PyStr.isspace EmptyString = true ∧
  PyStr.lower "All_Waves" = "all_waves" ∧
  (" " ≠ EmptyString ∨ EmptyString ≠ EmptyString).
Proof.
  split; [by vm_compute |]. split; [by vm_compute |].
  split; [by vm_compute |]. left. discriminate.
Qed.

Lemma padded_all_waves_unresolved_witness :
  validators.validate_wave_config_format (" " ++ "All_Waves" ++ EmptyString)
  = validators.Returns ("all", "all") ∧
  WaveConfigParser.parse_wave_config WaveConfigParser.defaults
    (" " ++ "All_Waves" ++ EmptyString)
  = Raise (ValueError (InvalidFormat (" " ++ "All_Waves" ++ EmptyString))).
Proof.
  destruct cases_padded_all_waves as (Hlead & Htrail & Hbody & Hpad).
  exact (padded_all_waves_unresolved WaveConfigParser.defaults
           " " "All_Waves" EmptyString Hlead Htrail Hbody Hpad).
Defined.

Lemma validated_filter_applies_witness :
  ∃ d, apply_filters region_party
         (Some [FilterItem "PID1_labeled" [Some "Democrat"]]) = Ok d ∧
       columns d = columns region_party ∧
       rows d = filter (λ row, get region_party row "PID1_labeled"
                               = Some "Democrat") (rows region_party) ∧
       rows d ≠ [].
Proof.
  exact (validated_filter_applies region_party "PID1_labeled" "Democrat"
           (proj1 cases_distinct_labels) eq_refl).
Defined.

Lemma filter_validator_outcome_witness :
  validators.validate_filter_operation region_party "PID1_labeled" "Green"
  = if bool_decide ("PID1_labeled" ∈ columns region_party) then
      if bool_decide
           (Exists (λ row, get region_party row "PID1_labeled" = Some "Green")
                   (rows region_party))
      then validators.Returns ()
      else validators.Fails
             (validators.Package
                (validators.FilteringError "PID1_labeled" "Green"))
    else validators.Fails
           (validators.Package (validators.ColumnNotFoundError "PID1_labeled")).
Proof.
  exact (filter_validator_outcome region_party "PID1_labeled" "Green"
           (proj1 cases_distinct_labels)).
Defined.

Lemma cases_variable_not_a_column :
  alluvial_builder._variable_name northern_inputs
    ∉ columns (alluvial_builder._data northern_inputs).
Proof.
  simpl. rewrite !not_elem_of_cons. repeat split; try discriminate.
  apply not_elem_of_nil.
Qed.

Lemma prepared_data_aggregates_witness :
  ∃ source_prefix target_prefix,
    wave_parser.parse_wave_config
      (alluvial_builder._wave_config northern_inputs) no_file_parsed
    = (Ok (source_prefix, target_prefix), no_file_parsed) ∧
    rows northern_respondents ≠ [] ∧
    (source_prefix ++ alluvial_builder._variable_name northern_inputs)
      ∈ columns northern_respondents ∧
    (target_prefix ++ alluvial_builder._variable_name northern_inputs)
      ∈ columns northern_respondents ∧
    (source_prefix ++ alluvial_builder._variable_name northern_inputs
     ≠ target_prefix ++ alluvial_builder._variable_name northern_inputs →
     ∃ records,
       AlluvialVisualizationBuilder._process_transition_data
         (F := binary64_arithmetic) (S := keep_order_sort)
         {| AlluvialVisualizationBuilder._data := northern_respondents;
            AlluvialVisualizationBuilder._variable_name :=
              alluvial_builder._variable_name northern_inputs;
            AlluvialVisualizationBuilder._wave_config :=
              alluvial_builder._wave_config northern_inputs;
            AlluvialVisualizationBuilder._source_wave_prefix := source_prefix;
            AlluvialVisualizationBuilder._target_wave_prefix := target_prefix |}
       = Ok records).
Proof.
  exact (prepared_data_aggregates (F := binary64_arithmetic)
           (S := keep_order_sort) northern_inputs no_file no_file_parsed
           northern_respondents (proj1 (proj2 cases_distinct_labels))
           eq_refl cases_variable_not_a_column).
Defined.

Lemma one_record_per_pair_witness :
  ∃ records,
    AlluvialVisualizationBuilder._process_transition_data
      (F := binary64_arithmetic) (S := keep_order_sort) four_respondents
    = Ok records ∧
    NoDup ((λ r, (AlluvialVisualizationBuilder.source r,
                  AlluvialVisualizationBuilder.target r)) <$> records) ∧
    (∀ r, r ∈ records →
       AlluvialVisualizationBuilder.count r
       = pair_rows (AlluvialVisualizationBuilder._data four_respondents)
           "W1_P" "W2_P" (AlluvialVisualizationBuilder.source r)
           (AlluvialVisualizationBuilder.target r)
       ∧ (1 ≤ AlluvialVisualizationBuilder.count r)%nat) ∧
    (∀ a b,
       (1 ≤ pair_rows (AlluvialVisualizationBuilder._data four_respondents)
              "W1_P" "W2_P" a b)%nat →
       ∃ r, r ∈ records ∧ AlluvialVisualizationBuilder.source r = a
            ∧ AlluvialVisualizationBuilder.target r = b) ∧
    AlluvialVisualizationBuilder.unique_patterns
      (AlluvialVisualizationBuilder._calculate_statistics
         (F := binary64_arithmetic) four_respondents records)
    = List.length
        ((λ r, (AlluvialVisualizationBuilder.source r,
                AlluvialVisualizationBuilder.target r)) <$> records).
Proof.
  destruct (sample_columns
              (AlluvialVisualizationBuilder._data four_respondents) eq_refl)
    as (Hs & Ht & Hne).
  exact (one_record_per_pair (F := binary64_arithmetic)
           (S := keep_order_sort) four_respondents "W1_P" "W2_P"
           eq_refl (proj2 (proj2 cases_distinct_labels)) Hs Ht Hne).
Defined.


Lemma cases_stable_table :
  Forall (λ r, AlluvialVisualizationBuilder.source r
               = AlluvialVisualizationBuilder.target r) stable_table ∧
  stable_table ≠ [] ∧
  Forall (λ r, (1 ≤ AlluvialVisualizationBuilder.count r)%nat) stable_table.
Proof.
  split; [| split]; [| discriminate |];
    repeat (apply Forall_cons; split; [simpl; (reflexivity || lia) |]);
    apply Forall_nil_2.
Qed.

Lemma statistics_of_a_table_witness :
  (exact_stability stable_table == 100)%Q.
Proof.
  pose proof (statistics_of_a_table (F := binary64_arithmetic)
                four_respondents stable_table) as Hstats.
  cbv zeta in Hstats.
  destruct Hstats as (_ & _ & q & _ & _ & _ & _ & _ & Hall).
  destruct cases_stable_table as (Hstable & Hne & Hpos).
  exact (Hall Hstable Hne Hpos).
Defined.

Lemma sanitize_filename_idempotent_witness :
  validators.sanitize_filename
    (validators.sanitize_filename " report: wave 1?.csv. ")
  = validators.sanitize_filename " report: wave 1?.csv. " ∧
  validators.strip_chars [" "; "."]%char
    (validators.sanitize_filename " report: wave 1?.csv. ")
  = validators.sanitize_filename " report: wave 1?.csv. ".
Proof.
  exact (sanitize_filename_idempotent " report: wave 1?.csv. "
           ltac:(simpl; lia)).
Defined.

End further_samples.
